(** * The CREATE executor of n-store: CreateExecutor::Execute

    A shallow embedding of [src/executor/create_executor.cpp].  The executor
    receives a parsed CREATE statement and turns it into catalog state.  The
    catalog is a tree (catalog, databases, tables, columns / constraints /
    indexes); the C++ code walks it through pointers, the embedding passes it
    explicitly and writes an updated object back to the place the pointer
    pointed to.

    A call of [Execute] can end in three ways: it returns a boolean, an
    [assert] fails, or a null pointer is dereferenced.  The three are kept
    apart in [Outcome]. *)

From Stdlib Require Import String List NArith Bool Lia DecimalString.
From Stdlib Require Import DecimalPos DecimalN.
Import ListNotations.
Open Scope string_scope.
Open Scope list_scope.
Open Scope N_scope.

Set Implicit Arguments.

(* ================================================================== *)
(** ** Parsed statements (parser/statement_create.h) *)
(* ================================================================== *)

(** Modelled from the spec: the enumeration [ColumnDefinition::DataType]
    (parser/statement_create.h) is missing.  The executor names three of its
    members, [PRIMARY], [FOREIGN] and [CHAR]; every other member is a normal
    column kind and is kept as a tag. *)
Inductive DataType :=
| PRIMARY
| FOREIGN
| CHAR
| OTHER_TYPE (tag : N).

(** Modelled from the spec: the enumeration [ValueType] (common/types.h) is
    missing.  The executor names two of its members; every other member is
    kept as a tag. *)
Inductive ValueType :=
| VALUE_TYPE_VARCHAR
| VALUE_TYPE_VARBINARY
| VALUE_TYPE_OTHER (tag : N).

Definition DataType_eqb (a b : DataType) : bool :=
  match a, b with
  | PRIMARY, PRIMARY | FOREIGN, FOREIGN | CHAR, CHAR => true
  | OTHER_TYPE x, OTHER_TYPE y => N.eqb x y
  | _, _ => false
  end.

Definition ValueType_eqb (a b : ValueType) : bool :=
  match a, b with
  | VALUE_TYPE_VARCHAR, VALUE_TYPE_VARCHAR
  | VALUE_TYPE_VARBINARY, VALUE_TYPE_VARBINARY => true
  | VALUE_TYPE_OTHER x, VALUE_TYPE_OTHER y => N.eqb x y
  | _, _ => false
  end.

(** Modelled from the spec: the structures [ColumnDefinition] and
    [CreateStatement] (parser/statement_create.h) are missing; their fields
    are those [Execute] reads.  A pointer field that the code tests against
    [nullptr] (or asserts) is an [option]; the key lists hold C strings. *)
Module ColumnDefinition.
Record t := mk {
  name : option string;                    (* char* name *)
  type : DataType;
  varlen : N;                              (* size_t *)
  not_null : bool;
  unique : bool;
  primary_key : option (list string);
  foreign_key_source : option (list string);
  foreign_key_sink : option (list string)
}.
End ColumnDefinition.

Module CreateStatement.
Inductive CreateType := kTable | kDatabase | kIndex | kUnknown (tag : N).

Record t := mk {
  type : CreateType;
  if_not_exists : bool;
  columns : option (list ColumnDefinition.t);
  name : option string;
  table_name : option string;
  index_attrs : option (list string);
  unique : bool
}.
End CreateStatement.

(* ================================================================== *)
(** ** Catalog objects (catalog/, storage/) *)
(* ================================================================== *)

(** Modelled from the spec: the classes of the catalog and of the storage
    layer (catalog/, storage/, index/) are missing.  An object carries what
    [Execute] hands its constructor and what the specification's data model
    gives it. *)
Inductive IndexType := INDEX_TYPE_BTREE_MULTIMAP.

Inductive ConstraintType := CONSTRAINT_TYPE_PRIMARY | CONSTRAINT_TYPE_FOREIGN.

(** A column: the constructor's arguments of lines 229-233. *)
Record Column := mkColumn {
  column_name : string;
  column_type : ValueType;
  column_offset : N;                         (* oid_t *)
  column_size : N;                           (* size_t *)
  column_not_null : bool
}.

(** A physical column descriptor of a schema: the constructor's arguments of
    line 239. *)
Record ColumnInfo := mkColumnInfo {
  info_type : ValueType;
  info_length : N;
  info_name : string;
  info_allow_null : bool;
  info_is_varlen : bool
}.

Definition Schema := list ColumnInfo.

(** The storage layer's objects are opaque handles for the executor; a handle
    records what it was built from. *)
Record PhysicalTable := mkPhysicalTable {
  physical_database : N;
  physical_schema : Schema
}.

Record PhysicalIndex := mkPhysicalIndex {
  metadata_name : string;
  metadata_tuple_schema : Schema;
  metadata_key_schema : Schema;
  metadata_unique : bool
}.

(** [Table::GetColumn] may answer [nullptr], so a vector of column pointers
    is a list of optional columns. *)
Record Index := mkIndex {
  index_name : string;
  index_type : IndexType;
  index_unique : bool;
  index_columns : list (option Column);
  index_physical : option PhysicalIndex      (* index::Index*, nullable *)
}.

(** A constraint points to its index and to the foreign table; both are
    referred to by name here, [None] being the null pointer. *)
Record Constraint := mkConstraint {
  constraint_name : string;
  constraint_type : ConstraintType;
  constraint_index : option string;
  constraint_foreign_table : option string;
  constraint_columns : list (option Column);
  constraint_sink_columns : list (option Column)
}.

Record Table := mkTable {
  table_name : string;
  table_columns : list Column;
  table_constraints : list Constraint;
  table_indexes : list Index;
  table_physical : option PhysicalTable
}.

Record Database := mkDatabase {
  database_name : string;
  database_tables : list Table
}.

Record Catalog := mkCatalog {
  catalog_databases : list Database
}.

(** [std::find(columns.begin(), columns.end(), std::string(key)) != end]. *)
Definition std_find (columns : list string) (key : string) : bool :=
  existsb (String.eqb key) columns.

(** First element satisfying [p], as a lookup by name walks a vector. *)
Definition lookup {A} (p : A -> bool) (l : list A) : option A := find p l.

(** Write an object back to the slot a lookup found it in. *)
Fixpoint write_back {A} (p : A -> bool) (x : A) (l : list A) : list A :=
  match l with
  | [] => []
  | y :: l' => if p y then x :: l' else y :: write_back p x l'
  end.

(** The bodies of the catalog containers (catalog/table.cpp,
    catalog/database.cpp, catalog/catalog.cpp) are not part of the source.
    The C++ methods change the container in place and answer a [bool]; here
    an insertion answers the status together with the container after the
    call. *)

(** Modelled from the spec: [Table::GetColumn] is missing; a column is
    looked up by its name, which is unique within its table. *)
Definition Table_GetColumn (t : Table) (name : string) : option Column :=
  lookup (fun c => String.eqb (column_name c) name) (table_columns t).

(** Modelled from the spec: [Table::GetIndex] is missing; an index is looked
    up by its name, which is unique within its table. *)
Definition Table_GetIndex (t : Table) (name : string) : option Index :=
  lookup (fun i => String.eqb (index_name i) name) (table_indexes t).

(** Modelled from the spec: [Table::GetConstraint] is missing; a constraint
    is looked up by its name, which is unique within its table. *)
Definition Table_GetConstraint (t : Table) (name : string) : option Constraint :=
  lookup (fun c => String.eqb (constraint_name c) name) (table_constraints t).

(** Modelled from the spec: [Table::AddColumn] is missing; column names are
    pairwise distinct within a table, so a column whose name is taken is
    refused and the table left as it was, and any other column is appended
    (columns are kept in declaration order). *)
Definition Table_AddColumn (t : Table) (c : Column) : bool * Table :=
  match Table_GetColumn t (column_name c) with
  | Some _ => (false, t)
  | None => (true, mkTable (table_name t) (table_columns t ++ [c])
                           (table_constraints t) (table_indexes t)
                           (table_physical t))
  end.

(** Modelled from the spec: [Table::AddConstraint] is missing; constraint
    names are unique within a table. *)
Definition Table_AddConstraint (t : Table) (c : Constraint) : bool * Table :=
  match Table_GetConstraint t (constraint_name c) with
  | Some _ => (false, t)
  | None => (true, mkTable (table_name t) (table_columns t)
                           (table_constraints t ++ [c]) (table_indexes t)
                           (table_physical t))
  end.

(** Modelled from the spec: [Table::AddIndex] is missing; index names are
    unique within a table. *)
Definition Table_AddIndex (t : Table) (i : Index) : bool * Table :=
  match Table_GetIndex t (index_name i) with
  | Some _ => (false, t)
  | None => (true, mkTable (table_name t) (table_columns t)
                           (table_constraints t) (table_indexes t ++ [i])
                           (table_physical t))
  end.

(** Modelled from the spec: [Table::SetPhysicalTable] is missing; it
    attaches the handle of the physical table. *)
Definition Table_SetPhysicalTable (t : Table) (p : option PhysicalTable) : Table :=
  mkTable (table_name t) (table_columns t) (table_constraints t)
          (table_indexes t) p.

(** Modelled from the spec: [Index::SetPhysicalIndex] is missing; it
    attaches the handle of the physical index. *)
Definition Index_SetPhysicalIndex (i : Index) (p : option PhysicalIndex) : Index :=
  mkIndex (index_name i) (index_type i) (index_unique i) (index_columns i) p.

(** [index->SetPhysicalIndex(p)] runs after the table took the pointer
    [index]: the write lands in the index the table holds. *)
Definition Table_SetPhysicalIndexOf (t : Table) (name : string)
    (p : option PhysicalIndex) : Table :=
  match Table_GetIndex t name with
  | None => t
  | Some i =>
      mkTable (table_name t) (table_columns t) (table_constraints t)
              (write_back (fun j => String.eqb (index_name j) name)
                          (Index_SetPhysicalIndex i p) (table_indexes t))
              (table_physical t)
  end.

(** Modelled from the spec: [Database::GetTable] is missing; a table is
    looked up by its name, which is unique within its database. *)
Definition Database_GetTable (db : Database) (name : string) : option Table :=
  lookup (fun t => String.eqb (table_name t) name) (database_tables db).

(** Modelled from the spec: [Database::AddTable] is missing; table names are
    unique within a database, so a table whose name is taken is refused and
    the database left as it was. *)
Definition Database_AddTable (db : Database) (t : Table) : bool * Database :=
  match Database_GetTable db (table_name t) with
  | Some _ => (false, db)
  | None => (true, mkDatabase (database_name db) (database_tables db ++ [t]))
  end.

(** A table reached through [db->GetTable] and changed in place: the
    database holds the table as the call left it. *)
Definition Database_PutTable (db : Database) (t : Table) : Database :=
  mkDatabase (database_name db)
             (write_back (fun u => String.eqb (table_name u) (table_name t))
                         t (database_tables db)).

(** Modelled from the spec: [Catalog::GetDatabase] is missing; a database is
    looked up by its name, which is unique within the catalog. *)
Definition Catalog_GetDatabase (c : Catalog) (name : string) : option Database :=
  lookup (fun d => String.eqb (database_name d) name) (catalog_databases c).

(** Modelled from the spec: [Catalog::AddDatabase] is missing; database
    names are unique within the catalog, so a database whose name is taken
    is refused and the catalog left as it was. *)
Definition Catalog_AddDatabase (c : Catalog) (d : Database) : bool * Catalog :=
  match Catalog_GetDatabase c (database_name d) with
  | Some _ => (false, c)
  | None => (true, mkCatalog (catalog_databases c ++ [d]))
  end.

(** The database reached through [GetDatabase] and changed in place: the
    catalog holds the database as the call left it. *)
Definition Catalog_PutDatabase (c : Catalog) (d : Database) : Catalog :=
  mkCatalog (write_back (fun e => String.eqb (database_name e) (database_name d))
                        d (catalog_databases c)).

(** [Lock] and [Unlock] order the calls of different threads; within one
    call they leave the container as it is. *)
Definition Lock {A} (x : A) : A := x.
Definition Unlock {A} (x : A) : A := x.

(** Modelled from the spec: the storage factory (storage/table.h) is
    missing; it hands out a handle for the schema it is given. *)
Definition TableFactory_GetTable (database_id : N) (schema : Schema)
    : option PhysicalTable :=
  Some (mkPhysicalTable database_id schema).

(** [std::to_string] on an unsigned integer. *)
Definition to_string (n : N) : string := NilZero.string_of_uint (N.to_uint n).

(* ================================================================== *)
(** ** What the executor takes from headers outside the source *)
(* ================================================================== *)

Class Headers := {
  (** parser::ColumnDefinition::GetValueType *)
  GetValueType : DataType -> ValueType;
  (** GetTypeSize of common/types.h *)
  GetTypeSize : ValueType -> N;
  (** width in bits of the unsigned type [oid_t] *)
  oid_bits : N;
  DEFAULT_DB_NAME : string;
  DEFAULT_DB_ID : N
}.

(* ================================================================== *)
(** ** Control flow *)
(* ================================================================== *)

(** Diagnostics: one constructor per [LOG_ERROR] / [LOG_WARN] / [std::cout]
    line of [Execute]. *)
Inductive Message :=
| PrimaryKeyColumnNotInTable (key : string)
| ForeignKeySourceColumnNotInTable (key : string)
| ForeignTableDoesNotExist (name : string)
| ForeignKeySinkColumnNotInForeignTable (name key : string)
| DuplicateColumnName (name : string)
| TableAlreadyExists (name : string)
| CouldNotCreateConstraint (name : string)
| CouldNotCreateIndex (name : string)
| CouldNotCreateColumn (name : string)
| CouldNotCreateTable (name : string)
| CreatedTable (name : string)
| DatabaseAlreadyExists (name : string)
| CouldNotCreateDatabase (name : string)
| CreatedDatabase (name : string)
| TableDoesNotExist (name : string)
| NoIndexAttributesDefined (name : string)
| IndexAttributeDoesNotExist (key table : string)
| CreatedIndex (name : string)
| UnknownCreateStatementType.

(** One step inside [Execute]: go on with a value, [return false] after
    logging, fail an [assert], or dereference a null pointer. *)
Inductive Flow (A : Type) :=
| Next (a : A)
| ReturnFalse (m : Message)
| AssertionFailure
| NullDereference.

Arguments Next {A} a.
Arguments ReturnFalse {A} m.
Arguments AssertionFailure {A}.
Arguments NullDereference {A}.

Definition bind {A B} (x : Flow A) (f : A -> Flow B) : Flow B :=
  match x with
  | Next a => f a
  | ReturnFalse m => ReturnFalse m
  | AssertionFailure => AssertionFailure
  | NullDereference => NullDereference
  end.

Notation "x <- e ;; k" := (bind e (fun x => k))
  (at level 61, e at next level, right associativity).

(** [assert(p)] on a pointer. *)
Definition assert_present {A} (p : option A) : Flow A :=
  match p with Some a => Next a | None => AssertionFailure end.

(** [*p] without a test. *)
Definition deref {A} (p : option A) : Flow A :=
  match p with Some a => Next a | None => NullDereference end.

(** The result of a call of [Execute]. *)
Inductive Outcome :=
| Returned (status : bool) (log : Message) (c : Catalog)
| AssertionFailed
| NullDereferenced.

(* ================================================================== *)
(** ** CreateExecutor::Execute *)
(* ================================================================== *)

Section Executor.

Context `{Headers}.

(** [x++] on an [oid_t]. *)
Definition oid_succ (x : N) : N := (x + 1) mod 2 ^ oid_bits.

(** *** CREATE TABLE, first loop: validation (lines 50-110) *)

(** Lines 60-64 and 72-76: every key must be among the column names
    collected so far. *)
Fixpoint validate_keys (error : string -> Message)
    (columns keys : list string) : Flow unit :=
  match keys with
  | [] => Next tt
  | key :: keys' =>
      if std_find columns key
      then validate_keys error columns keys'
      else ReturnFalse (error key)
  end.

(** Lines 81-93: the foreign table is looked up once per sink key, from
    [col->name]. *)
Fixpoint validate_sink (db : Database) (name : option string)
    (keys : list string) : Flow unit :=
  match keys with
  | [] => Next tt
  | key :: keys' =>
      table_name <- deref name ;;
      match Database_GetTable db table_name with
      | None => ReturnFalse (ForeignTableDoesNotExist table_name)
      | Some foreign_table =>
          match Table_GetColumn foreign_table key with
          | None =>
              ReturnFalse (ForeignKeySinkColumnNotInForeignTable table_name key)
          | Some _ => validate_sink db name keys'
          end
      end
  end.

(** A loop over a list behind a pointer that is tested first. *)
Definition if_present {A} (p : option A) (body : A -> Flow unit) : Flow unit :=
  match p with
  | Some a => body a
  | None => Next tt
  end.

(** The body of the first loop; [columns] are the names of the normal
    columns seen so far. *)
Definition validate_column (db : Database) (columns : list string)
    (col : ColumnDefinition.t) : Flow (list string) :=
  match ColumnDefinition.type col with
  | PRIMARY =>
      _ <- if_present (ColumnDefinition.primary_key col)
             (validate_keys PrimaryKeyColumnNotInTable columns) ;;
      Next columns
  | FOREIGN =>
      _ <- if_present (ColumnDefinition.foreign_key_source col)
             (validate_keys ForeignKeySourceColumnNotInTable columns) ;;
      _ <- if_present (ColumnDefinition.foreign_key_sink col)
             (validate_sink db (ColumnDefinition.name col)) ;;
      Next columns
  | _ =>
      name <- assert_present (ColumnDefinition.name col) ;;
      if std_find columns name
      then ReturnFalse (DuplicateColumnName name)
      else Next (columns ++ [name])
  end.

Fixpoint validate (db : Database) (columns : list string)
    (cols : list ColumnDefinition.t) : Flow (list string) :=
  match cols with
  | [] => Next columns
  | col :: cols' =>
      columns' <- validate_column db columns col ;;
      validate db columns' cols'
  end.

(** *** CREATE TABLE, second loop: construction (lines 122-250) *)

(** The locals that live across iterations of the second loop. *)
Record Build := mkBuild {
  table : Table;
  physical_columns : list ColumnInfo;
  offset : N;
  constraint_id : N;
  index_id : N
}.

(** Lines 137-180.  A fresh [catalog::Index] has no physical index yet. *)
Definition create_primary (b : Build) (col : ColumnDefinition.t) : Flow Build :=
  let primary_key_cols := ColumnDefinition.primary_key col in
  let unique := ColumnDefinition.unique col in
  let constraint_name := ("PK_" ++ to_string (constraint_id b))%string in
  let index_name := ("INDEX_" ++ to_string (index_id b))%string in
  keys <- deref primary_key_cols ;;
  let columns := map (Table_GetColumn (table b)) keys in
  let index :=
    mkIndex index_name INDEX_TYPE_BTREE_MULTIMAP unique columns None in
  let constraint :=
    mkConstraint constraint_name CONSTRAINT_TYPE_PRIMARY (Some index_name)
                 None columns [] in
  let (status, table1) := Table_AddConstraint (table b) constraint in
  if status then
    let (status, table2) := Table_AddIndex table1 index in
    if status then
      Next (mkBuild table2 (physical_columns b) (offset b)
                    (oid_succ (constraint_id b)) (oid_succ (index_id b)))
    else ReturnFalse (CouldNotCreateIndex index_name)
  else ReturnFalse (CouldNotCreateConstraint constraint_name).

(** Lines 197-198: [foreign_table->GetColumn(key)] for every sink key. *)
Fixpoint sink_columns_of (foreign_table : option Table) (keys : list string)
    : Flow (list (option Column)) :=
  match keys with
  | [] => Next []
  | key :: keys' =>
      t <- deref foreign_table ;;
      rest <- sink_columns_of foreign_table keys' ;;
      Next (Table_GetColumn t key :: rest)
  end.

(** Lines 184-215. *)
Definition create_foreign (db : Database) (b : Build)
    (col : ColumnDefinition.t) : Flow Build :=
  let foreign_key_source_cols := ColumnDefinition.foreign_key_source col in
  let foreign_key_sink_cols := ColumnDefinition.foreign_key_sink col in
  let constraint_name := ("FK_" ++ to_string (constraint_id b))%string in
  foreign_name <- deref (ColumnDefinition.name col) ;;
  let foreign_table := Database_GetTable db foreign_name in
  source <- deref foreign_key_source_cols ;;
  let source_columns := map (Table_GetColumn (table b)) source in
  sink <- deref foreign_key_sink_cols ;;
  sink_columns <- sink_columns_of foreign_table sink ;;
  let constraint :=
    mkConstraint constraint_name CONSTRAINT_TYPE_FOREIGN None
                 (option_map table_name foreign_table)
                 source_columns sink_columns in
  let (status, table1) := Table_AddConstraint (table b) constraint in
  if status then
    Next (mkBuild table1 (physical_columns b) (offset b)
                  (oid_succ (constraint_id b)) (index_id b))
  else ReturnFalse (CouldNotCreateConstraint constraint_name).

(** Lines 221-227: the width of a normal column. *)
Definition column_length (col : ColumnDefinition.t) : N :=
  let type := GetValueType (ColumnDefinition.type col) in
  let col_len := GetTypeSize type in
  let col_len :=
    if DataType_eqb (ColumnDefinition.type col) CHAR then 1 else col_len in
  let col_len :=
    if ValueType_eqb type VALUE_TYPE_VARCHAR
       || ValueType_eqb type VALUE_TYPE_VARBINARY
    then ColumnDefinition.varlen col else col_len in
  col_len.

(** Lines 219-249. *)
Definition create_normal (b : Build) (col : ColumnDefinition.t) : Flow Build :=
  let type := GetValueType (ColumnDefinition.type col) in
  let col_len := column_length col in
  name <- deref (ColumnDefinition.name col) ;;
  let column :=
    mkColumn name type (offset b) col_len (ColumnDefinition.not_null col) in
  let varlen := negb (ColumnDefinition.varlen col =? 0) in
  let physical_column :=
    mkColumnInfo type col_len name
                 (negb (ColumnDefinition.not_null col)) varlen in
  let (status, table1) := Table_AddColumn (table b) column in
  if status then
    Next (mkBuild table1 (physical_columns b ++ [physical_column])
                  (oid_succ (offset b)) (constraint_id b) (index_id b))
  else ReturnFalse (CouldNotCreateColumn name).

(** The body of the second loop. *)
Definition create_column (db : Database) (b : Build)
    (col : ColumnDefinition.t) : Flow Build :=
  match ColumnDefinition.type col with
  | PRIMARY => create_primary b col
  | FOREIGN => create_foreign db b col
  | _ => create_normal b col
  end.

Fixpoint create_columns (db : Database) (b : Build)
    (cols : list ColumnDefinition.t) : Flow Build :=
  match cols with
  | [] => Next b
  | col :: cols' =>
      b' <- create_column db b col ;;
      create_columns db b' cols'
  end.

(** [new catalog::Table(stmt->name)] and the counters of lines 125-127. *)
Definition new_table (name : string) : Build :=
  mkBuild (mkTable name [] [] [] None) [] 0 0 0.

(** A step taken while the catalog is [c]: [return false], a failed
    [assert] and a null dereference end the call there. *)
Definition with_catalog {A} (c : Catalog) (step : Flow A)
    (rest : A -> Outcome) : Outcome :=
  match step with
  | Next a => rest a
  | ReturnFalse log => Returned false log c
  | AssertionFailure => AssertionFailed
  | NullDereference => NullDereferenced
  end.

(** The [kTable] case (lines 44-277).  [db] points into the catalog, so
    what [db->AddTable] leaves of the database is what the catalog holds
    when the call returns. *)
Definition ExecuteTable (c : Catalog) (db : Database)
    (stmt : CreateStatement.t) (name : string) : Outcome :=
  with_catalog c (assert_present (CreateStatement.columns stmt)) (fun cols =>
  with_catalog c (validate db [] cols) (fun _ =>
  match Database_GetTable db name, CreateStatement.if_not_exists stmt with
  | Some _, true => Returned false (TableAlreadyExists name) c
  | _, _ =>
      with_catalog c (create_columns db (new_table name) cols) (fun b =>
      let schema : Schema := physical_columns b in
      let physical_table := TableFactory_GetTable DEFAULT_DB_ID schema in
      let table := Table_SetPhysicalTable (table b) physical_table in
      let (status, db') := Database_AddTable (Lock db) table in
      if status
      then Returned true (CreatedTable name)
                    (Catalog_PutDatabase c (Unlock db'))
      else Returned false (CouldNotCreateTable name)
                    (Catalog_PutDatabase c (Unlock db')))
  end)).

(** *** CREATE DATABASE (lines 284-312) *)

Definition ExecuteDatabase (c : Catalog) (name : string) : Outcome :=
  match Catalog_GetDatabase c name with
  | Some _ => Returned false (DatabaseAlreadyExists name) (Unlock c)
  | None =>
      let database := mkDatabase name [] in
      let (status, c') := Catalog_AddDatabase (Lock c) database in
      if status
      then Returned true (CreatedDatabase name) (Unlock c')
      else Returned false (CouldNotCreateDatabase name) (Unlock c')
  end.

(** *** CREATE INDEX (lines 319-394) *)

(** Lines 340-350: resolve every key attribute to its column. *)
Fixpoint resolve_keys (t : Table) (table_name : string) (keys : list string)
    (key_attrs : list N) (key_columns : list Column)
    : Flow (list N * list Column) :=
  match keys with
  | [] => Next (key_attrs, key_columns)
  | key :: keys' =>
      match Table_GetColumn t key with
      | None => ReturnFalse (IndexAttributeDoesNotExist key table_name)
      | Some column =>
          resolve_keys t table_name keys'
                       (key_attrs ++ [column_offset column])
                       (key_columns ++ [column])
      end
  end.

(** Modelled from the spec: [Schema::CopySchema] (catalog/schema.h) is
    missing; the key schema is the positional projection of the tuple schema
    onto the key offsets, in the order of the keys. *)
Definition CopySchema (schema : Schema) (key_attrs : list N) : Schema :=
  flat_map (fun i => match nth_error schema (N.to_nat i) with
                     | Some info => [info]
                     | None => []
                     end) key_attrs.

(** [table] points into the database and the database into the catalog, so
    what [table->AddIndex] and [index->SetPhysicalIndex] leave of the table
    is what the catalog holds when the call returns. *)
Definition ExecuteIndex (c : Catalog) (db : Database)
    (stmt : CreateStatement.t) (name : string) : Outcome :=
  with_catalog c (deref (CreateStatement.table_name stmt)) (fun table_name =>
  match Database_GetTable db table_name with
  | None => Returned false (TableDoesNotExist table_name) c
  | Some table =>
      match CreateStatement.index_attrs stmt with
      | None => Returned false (NoIndexAttributesDefined name) c
      | Some index_attrs =>
          with_catalog c (resolve_keys table table_name index_attrs [] [])
            (fun keys =>
          let key_attrs := fst keys in
          let key_columns := snd keys in
          with_catalog c (deref (table_physical table)) (fun physical_table =>
          let tuple_schema := physical_schema physical_table in
          let key_schema := CopySchema tuple_schema key_attrs in
          let index_metadata :=
            mkPhysicalIndex name tuple_schema key_schema
                            (CreateStatement.unique stmt) in
          (* the call of the index factory is commented out in the source *)
          let physical_index : option PhysicalIndex := None in
          let index :=
            mkIndex name INDEX_TYPE_BTREE_MULTIMAP
                    (CreateStatement.unique stmt) (map Some key_columns)
                    None in
          let (status, table1) := Table_AddIndex (Lock table) index in
          if status
          then
            let table2 :=
              Table_SetPhysicalIndexOf (Unlock table1) name physical_index in
            Returned true (CreatedIndex name)
                     (Catalog_PutDatabase c (Database_PutTable db table2))
          else
            Returned false (CouldNotCreateIndex name)
                     (Catalog_PutDatabase c
                        (Database_PutTable db (Unlock table1)))))
      end
  end).

(** *** The dispatch (lines 29-404) *)

Definition Execute (c : Catalog) (stmt : CreateStatement.t) : Outcome :=
  with_catalog c (assert_present (Catalog_GetDatabase c DEFAULT_DB_NAME))
    (fun db =>
  with_catalog c (assert_present (CreateStatement.name stmt)) (fun name =>
  match CreateStatement.type stmt with
  | CreateStatement.kTable => ExecuteTable c db stmt name
  | CreateStatement.kDatabase => ExecuteDatabase c name
  | CreateStatement.kIndex => ExecuteIndex c db stmt name
  | CreateStatement.kUnknown _ => Returned false UnknownCreateStatementType c
  end)).

End Executor.

(* ================================================================== *)
(** ** Vocabulary of the specification *)
(* ================================================================== *)

(** A column definition is a marker ([PRIMARY], [FOREIGN]) or a normal
    column. *)
Definition is_normal (col : ColumnDefinition.t) : bool :=
  match ColumnDefinition.type col with
  | PRIMARY | FOREIGN => false
  | _ => true
  end.

(** The names declared by the normal columns of a column list, in order. *)
Definition normal_names (cols : list ColumnDefinition.t) : list string :=
  flat_map (fun col =>
              if is_normal col
              then match ColumnDefinition.name col with
                   | Some n => [n]
                   | None => []
                   end
              else []) cols.

(** The fields [Execute] asserts or reads without a test while it validates:
    the name of a normal column and the sink table name of a [FOREIGN]
    marker. *)
Definition has_required_fields (col : ColumnDefinition.t) : bool :=
  match ColumnDefinition.type col, ColumnDefinition.name col with
  | PRIMARY, _ => true
  | _, Some _ => true
  | _, None => false
  end.

(** A marker whose key-name list is absent. *)
Definition lacks_key_list (col : ColumnDefinition.t) : bool :=
  match ColumnDefinition.type col with
  | PRIMARY =>
      match ColumnDefinition.primary_key col with None => true | _ => false end
  | FOREIGN =>
      match ColumnDefinition.foreign_key_source col,
            ColumnDefinition.foreign_key_sink col with
      | Some _, Some _ => false
      | _, _ => true
      end
  | _ => false
  end.

(** The messages logged before line 122 builds the new table. *)
Definition logged_before_new_table (m : Message) : bool :=
  match m with
  | PrimaryKeyColumnNotInTable _
  | ForeignKeySourceColumnNotInTable _
  | ForeignTableDoesNotExist _
  | ForeignKeySinkColumnNotInForeignTable _ _
  | DuplicateColumnName _
  | TableAlreadyExists _ => true
  | _ => false
  end.

(** The sink of a FOREIGN marker resolves: the sink table exists in the
    database and holds every sink column. *)
Definition sink_resolves (db : Database) (name : string) (sink : list string)
    : Prop :=
  exists t, Database_GetTable db name = Some t
            /\ forall key, In key sink -> Table_GetColumn t key <> None.

(** What the first loop checks of a [FOREIGN] marker: the source columns are
    declared earlier in the statement, and the sink resolves. *)
Definition foreign_resolves (db : Database) (declared : list string)
    (name : string) (source sink : list string) : Prop :=
  (forall key, In key source -> In key declared)
  /\ sink_resolves db name sink.

(** The width the specification gives a normal column, in its words: 1 for
    the CHAR kind, the declared variable length for the value types VARCHAR
    and VARBINARY, the size of the value type otherwise.  The CHAR clause is
    read first, as the specification lists it. *)
Definition declared_width `{Headers} (col : ColumnDefinition.t) : N :=
  let type := GetValueType (ColumnDefinition.type col) in
  match ColumnDefinition.type col, type with
  | CHAR, _ => 1
  | _, VALUE_TYPE_VARCHAR | _, VALUE_TYPE_VARBINARY => ColumnDefinition.varlen col
  | _, _ => GetTypeSize type
  end.

(** A marker as the first loop sees it: an absent key list counts as an
    empty one. *)
Definition with_empty_key_lists (col : ColumnDefinition.t)
    : ColumnDefinition.t :=
  let or_empty (l : option (list string)) :=
    match l with Some _ => l | None => Some [] end in
  ColumnDefinition.mk
    (ColumnDefinition.name col) (ColumnDefinition.type col)
    (ColumnDefinition.varlen col) (ColumnDefinition.not_null col)
    (ColumnDefinition.unique col)
    (or_empty (ColumnDefinition.primary_key col))
    (or_empty (ColumnDefinition.foreign_key_source col))
    (or_empty (ColumnDefinition.foreign_key_sink col)).

(** The objects the second loop derives from normal columns. *)
Section Derived.

Context `{Headers}.

(** The column and the schema entry that lines 229-240 build. *)
Definition column_of (col : ColumnDefinition.t) (name : string) (offset : N)
    : Column :=
  mkColumn name (GetValueType (ColumnDefinition.type col)) offset
           (column_length col) (ColumnDefinition.not_null col).

Definition info_of (col : ColumnDefinition.t) (name : string) : ColumnInfo :=
  mkColumnInfo (GetValueType (ColumnDefinition.type col)) (column_length col)
               name (negb (ColumnDefinition.not_null col))
               (negb (ColumnDefinition.varlen col =? 0)).

(** The columns, in order, that a run of the second loop adds to the table,
    the first of them at offset [offset]. *)
Fixpoint columns_from (offset : N) (cols : list ColumnDefinition.t)
    : list Column :=
  match cols with
  | [] => []
  | col :: cols' =>
      if is_normal col
      then match ColumnDefinition.name col with
           | Some name =>
               column_of col name offset :: columns_from (oid_succ offset) cols'
           | None => columns_from offset cols'
           end
      else columns_from offset cols'
  end.

Definition infos_of (cols : list ColumnDefinition.t) : list ColumnInfo :=
  flat_map (fun col =>
              if is_normal col
              then match ColumnDefinition.name col with
                   | Some name => [info_of col name]
                   | None => []
                   end
              else []) cols.

(** The table a successful CREATE TABLE leaves in the default database. *)
Definition built_table (b : Build) : Table :=
  Table_SetPhysicalTable (table b)
    (TableFactory_GetTable DEFAULT_DB_ID (physical_columns b)).

End Derived.

(* ================================================================== *)
(** ** Names within a container, markers, widths *)
(* ================================================================== *)

(** Names are unique within their container: the columns, the constraints
    and the indexes of a table, the tables of a database, the databases of
    the catalog. *)
Definition table_names_unique (t : Table) : Prop :=
  NoDup (map column_name (table_columns t))
  /\ NoDup (map constraint_name (table_constraints t))
  /\ NoDup (map index_name (table_indexes t)).

Definition database_names_unique (db : Database) : Prop :=
  NoDup (map table_name (database_tables db))
  /\ Forall table_names_unique (database_tables db).

Definition catalog_names_unique (c : Catalog) : Prop :=
  NoDup (map database_name (catalog_databases c))
  /\ Forall database_names_unique (catalog_databases c).

(** Every table of the catalog has its physical table, the object
    [table->GetTable()] of line 356 is called on. *)
Definition has_physical_table (t : Table) : Prop :=
  table_physical t <> None.

Definition database_tables_physical (db : Database) : Prop :=
  Forall has_physical_table (database_tables db).

Definition catalog_tables_physical (c : Catalog) : Prop :=
  Forall database_tables_physical (catalog_databases c).

(** The constraint each marker of a column list stands for, in order. *)
Definition marker_types (cols : list ColumnDefinition.t)
    : list ConstraintType :=
  flat_map (fun col =>
              match ColumnDefinition.type col with
              | PRIMARY => [CONSTRAINT_TYPE_PRIMARY]
              | FOREIGN => [CONSTRAINT_TYPE_FOREIGN]
              | _ => []
              end) cols.

(** The [unique] flags of the PRIMARY markers of a column list, in order. *)
Definition primary_flags (cols : list ColumnDefinition.t) : list bool :=
  flat_map (fun col =>
              match ColumnDefinition.type col with
              | PRIMARY => [ColumnDefinition.unique col]
              | _ => []
              end) cols.

(** The width of a normal column when the later of the two tests of lines
    224-227 is given the last word. *)
Definition width_by_precedence `{Headers} (col : ColumnDefinition.t) : N :=
  match GetValueType (ColumnDefinition.type col) with
  | VALUE_TYPE_VARCHAR | VALUE_TYPE_VARBINARY => ColumnDefinition.varlen col
  | VALUE_TYPE_OTHER _ =>
      match ColumnDefinition.type col with
      | CHAR => 1
      | _ => GetTypeSize (GetValueType (ColumnDefinition.type col))
      end
  end.

(** The names lines 142, 143 and 189 generate: every constraint of the table
    is called PK_j or FK_j, every index INDEX_j, for a j below [n]. *)
Definition constraints_numbered (t : Table) (n : N) : Prop :=
  forall k, In k (table_constraints t) ->
    exists j, j < n
              /\ (constraint_name k = ("PK_" ++ to_string j)%string
                  \/ constraint_name k = ("FK_" ++ to_string j)%string).

Definition indexes_numbered (t : Table) (n : N) : Prop :=
  forall i, In i (table_indexes t) ->
    exists j, j < n /\ index_name i = ("INDEX_" ++ to_string j)%string.

(** A column pointer that is not null. *)
Definition is_resolved (c : option Column) : bool :=
  match c with Some _ => true | None => false end.

(** An index, a constraint that holds no null column pointer. *)
Definition index_is_resolved (i : Index) : bool :=
  forallb is_resolved (index_columns i).

Definition constraint_is_resolved (k : Constraint) : bool :=
  forallb is_resolved (constraint_columns k)
  && forallb is_resolved (constraint_sink_columns k).

(* ================================================================== *)
(** ** A concrete setting for the scenarios *)
(* ================================================================== *)

Module Scenario.

Definition INT : DataType := OTHER_TYPE 0.
Definition VARCHAR : DataType := OTHER_TYPE 1.
Definition VARBINARY : DataType := OTHER_TYPE 2.

(** Sample values for what the headers declare: three more column kinds,
    a value type for each kind, a size for each value type. *)
Definition headers : Headers := {|
  GetValueType := fun d =>
    match d with
    | OTHER_TYPE 1 => VALUE_TYPE_VARCHAR
    | OTHER_TYPE 2 => VALUE_TYPE_VARBINARY
    | OTHER_TYPE n => VALUE_TYPE_OTHER n
    | CHAR => VALUE_TYPE_OTHER 3
    | PRIMARY | FOREIGN => VALUE_TYPE_OTHER 4
    end;
  GetTypeSize := fun v =>
    match v with
    | VALUE_TYPE_OTHER 0 => 4
    | VALUE_TYPE_OTHER _ => 8
    | VALUE_TYPE_VARCHAR | VALUE_TYPE_VARBINARY => 8
    end;
  oid_bits := 64;
  DEFAULT_DB_NAME := "default";
  DEFAULT_DB_ID := 0
|}.


Definition normal (name : string) (type : DataType) (varlen : N)
    : ColumnDefinition.t :=
  ColumnDefinition.mk (Some name) type varlen true false None None None.

Definition primary (keys : option (list string)) : ColumnDefinition.t :=
  ColumnDefinition.mk None PRIMARY 0 false true keys None None.

Definition foreign (sink_table : string) (source sink : option (list string))
    : ColumnDefinition.t :=
  ColumnDefinition.mk (Some sink_table) FOREIGN 0 false false None source sink.

Definition create_table (name : string) (cols : list ColumnDefinition.t)
    (if_not_exists : bool) : CreateStatement.t :=
  CreateStatement.mk CreateStatement.kTable if_not_exists (Some cols)
                     (Some name) None None false.

Definition create_index (name table : string) (attrs : option (list string))
    : CreateStatement.t :=
  CreateStatement.mk CreateStatement.kIndex false None (Some name)
                     (Some table) attrs true.

(** The catalog at start-up: the default database, empty. *)
Definition empty_catalog : Catalog := mkCatalog [mkDatabase "default" []].

(** Scenario A: CREATE TABLE orders (id INT NOT NULL, PRIMARY KEY (id)). *)
Definition create_orders : CreateStatement.t :=
  create_table "orders" [normal "id" INT 0; primary (Some ["id"])] true.

Definition catalog_of (o : Outcome) : Catalog :=
  match o with
  | Returned _ _ c => c
  | _ => empty_catalog
  end.

(** The catalog after scenario A. *)
Definition orders_catalog : Catalog :=
  Eval vm_compute in catalog_of (@Execute headers empty_catalog create_orders).

Definition orders_database : Database :=
  Eval vm_compute in
    match Catalog_GetDatabase orders_catalog "default" with
    | Some db => db
    | None => mkDatabase "default" []
    end.

(** Scenario E: two normal columns of one name. *)
Definition create_duplicate : CreateStatement.t :=
  create_table "payments"
    [normal "amount" INT 0; normal "amount" INT 0] false.

(** A PRIMARY marker ahead of the column it names. *)
Definition create_forward : CreateStatement.t :=
  create_table "early"
    [normal "b" INT 0; primary (Some ["a"]); normal "a" INT 0] false.

(** Scenario C: the sink table exists, the sink column does not. *)
Definition create_lines_unknown_sink : CreateStatement.t :=
  create_table "lines"
    [normal "oid" INT 0; foreign "orders" (Some ["oid"]) (Some ["nope"])]
    false.

(** The sink resolves, the source column is not declared. *)
Definition create_lines_unknown_source : CreateStatement.t :=
  create_table "lines"
    [normal "oid" INT 0; foreign "orders" (Some ["nope"]) (Some ["id"])]
    false.

(** No table "ghost" exists, and the marker names no sink column. *)
Definition create_lines_ghost : CreateStatement.t :=
  create_table "lines"
    [normal "oid" INT 0; foreign "ghost" (Some ["oid"]) (Some [])] false.

(** A PRIMARY marker without its key list. *)
Definition create_unkeyed : CreateStatement.t :=
  create_table "unkeyed" [normal "a" INT 0; primary None] false.

(** Normal columns of three kinds around a marker. *)
Definition create_items : CreateStatement.t :=
  create_table "items"
    [normal "code" CHAR 0; normal "label" VARCHAR 32;
     primary (Some ["code"]); normal "qty" INT 0] false.

(** Scenario D: CREATE INDEX idx_id ON orders (id). *)
Definition create_idx_id : CreateStatement.t :=
  create_index "idx_id" "orders" (Some ["id"]).

Definition create_idx_empty : CreateStatement.t :=
  create_index "idx_id" "orders" (Some []).

Definition create_idx_absent : CreateStatement.t :=
  create_index "idx_id" "orders" None.



(** CREATE DATABASE sales. *)
Definition create_sales : CreateStatement.t :=
  CreateStatement.mk CreateStatement.kDatabase false None (Some "sales")
                     None None false.

(** CREATE DATABASE for the default database itself. *)
Definition create_default : CreateStatement.t :=
  CreateStatement.mk CreateStatement.kDatabase false None (Some "default")
                     None None false.

(** The catalog after scenario A and CREATE DATABASE sales. *)
Definition sales_catalog : Catalog :=
  Eval vm_compute in catalog_of (@Execute headers orders_catalog create_sales).

(** A table with a primary key and a foreign key into orders. *)
Definition lines_columns : list ColumnDefinition.t :=
  [normal "oid" INT 0; normal "note" VARCHAR 80;
   primary (Some ["oid"; "note"]);
   foreign "orders" (Some ["oid"]) (Some ["id"])].

Definition create_lines : CreateStatement.t :=
  create_table "lines" lines_columns false.

(** A normal column without a name after a named one. *)
Definition create_unnamed : CreateStatement.t :=
  create_table "unnamed"
    [normal "a" INT 0;
     ColumnDefinition.mk None INT 0 false false None None None;
     normal "b" INT 0] false.

Definition items_columns : list ColumnDefinition.t :=
  [normal "code" CHAR 0; normal "label" VARCHAR 32;
   primary (Some ["code"]); normal "qty" INT 0].

(** A FOREIGN marker ahead of its source column. *)
Definition create_lines_forward : CreateStatement.t :=
  create_table "lines"
    [foreign "orders" (Some ["oid"]) (Some ["id"]); normal "oid" INT 0]
    false.

(** The catalog after [create_items] on top of scenario A. *)
Definition items_catalog : Catalog :=
  Eval vm_compute in catalog_of (@Execute headers orders_catalog create_items).

Definition items_database : Database :=
  Eval vm_compute in
    match Catalog_GetDatabase items_catalog "default" with
    | Some db => db
    | None => mkDatabase "default" []
    end.

(** An index over two columns of items, the later column first. *)
Definition create_idx_items : CreateStatement.t :=
  create_index "idx_items" "items" (Some ["qty"; "code"; "qty"]).

Definition create_idx_unknown_attribute : CreateStatement.t :=
  create_index "idx_items" "items" (Some ["qty"; "colour"]).


End Scenario.

(* ================================================================== *)
(** ** Lookups and write-back *)
(* ================================================================== *)

Section Containers.

Variable A : Type.
Variable p : A -> bool.

Lemma lookup_holds (l : list A) (x : A) :
  lookup p l = Some x -> p x = true /\ In x l.
Proof.
  unfold lookup. intros E. apply find_some in E. tauto.
Qed.

Lemma lookup_snoc (l : list A) (x : A) :
  lookup p l = None ->
  lookup p (l ++ [x]) = if p x then Some x else None.
Proof.
  unfold lookup. induction l as [|y l IH]; simpl.
  - reflexivity.
  - destruct (p y); [discriminate | exact IH].
Qed.

Lemma lookup_snoc_found (l : list A) (x y : A) :
  lookup p l = Some y -> lookup p (l ++ [x]) = Some y.
Proof.
  unfold lookup. induction l as [|z l IH]; simpl.
  - discriminate.
  - destruct (p z); [trivial | exact IH].
Qed.

Lemma lookup_write_back (l : list A) (x y : A) :
  lookup p l = Some y -> p x = true -> lookup p (write_back p x l) = Some x.
Proof.
  unfold lookup. intros E Hx. induction l as [|z l IH]; simpl in *.
  - discriminate.
  - destruct (p z) eqn:Hz; simpl.
    + now rewrite Hx.
    + rewrite Hz. now apply IH.
Qed.

(** Writing back what the lookup found changes nothing. *)
Lemma write_back_same (l : list A) (x : A) :
  lookup p l = Some x -> write_back p x l = l.
Proof.
  unfold lookup. induction l as [|y l IH]; simpl.
  - reflexivity.
  - destruct (p y); [now intros [= ->] |].
    intros E. now rewrite IH.
Qed.

End Containers.

Lemma std_find_In (columns : list string) (key : string) :
  std_find columns key = true <-> In key columns.
Proof.
  unfold std_find. rewrite existsb_exists. split.
  - intros (x & Hin & E). apply String.eqb_eq in E. now subst.
  - intros Hin. exists key. split; [assumption | apply String.eqb_refl].
Qed.

Lemma std_find_not_In (columns : list string) (key : string) :
  std_find columns key = false <-> ~ In key columns.
Proof.
  rewrite <- std_find_In. destruct (std_find columns key); split; congruence.
Qed.

(* ================================================================== *)
(** ** The validation loop *)
(* ================================================================== *)

(** Closes a goal "the loop goes on, or it returns false with a validation
    message" once the loop has been evaluated. *)
Ltac flow_cases :=
  first [ left; eexists; reflexivity
        | right; eexists; split; [| reflexivity]; reflexivity ].

Section Validation.

Context `{Headers}.

Lemma validate_keys_Next error columns keys :
  validate_keys error columns keys = Next tt <->
  (forall key, In key keys -> In key columns).
Proof.
  induction keys as [|k keys IH]; simpl.
  - split; [intros _ key [] | reflexivity].
  - destruct (std_find columns k) eqn:E.
    + apply std_find_In in E. rewrite IH. split.
      * intros Hall key [<- | Hin]; auto.
      * intros Hall key Hin. apply Hall. now right.
    + apply std_find_not_In in E. split; [discriminate |].
      intros Hall. exfalso. apply E, Hall. now left.
Qed.

(** The loop over a key list ends in [Next] or in [return false]. *)
Lemma validate_keys_returns error columns keys :
  validate_keys error columns keys = Next tt
  \/ exists key, In key keys /\ ~ In key columns
                 /\ validate_keys error columns keys = ReturnFalse (error key).
Proof.
  induction keys as [|k keys IH]; simpl.
  - now left.
  - destruct (std_find columns k) eqn:E.
    + destruct IH as [IH | (key & Hin & Hno & IH)]; [now left | right].
      exists key. auto.
    + right. exists k. apply std_find_not_In in E. auto.
Qed.

Lemma validate_sink_Next db name key keys :
  validate_sink db (Some name) (key :: keys) = Next tt <->
  sink_resolves db name (key :: keys).
Proof.
  unfold sink_resolves.
  assert (G : forall ks t, Database_GetTable db name = Some t ->
            (validate_sink db (Some name) ks = Next tt <->
             forall k, In k ks -> Table_GetColumn t k <> None)).
  { induction ks as [|k ks IH]; intros t Ht; simpl.
    - split; [intros _ k [] | reflexivity].
    - rewrite Ht. destruct (Table_GetColumn t k) eqn:E.
      + rewrite (IH t Ht). split.
        * intros Hall k' [<- | Hin]; [congruence | auto].
        * intros Hall k' Hin. apply Hall. now right.
      + split; [discriminate |]. intros Hall. exfalso.
        apply (Hall k); [now left | assumption]. }
  destruct (Database_GetTable db name) as [t|] eqn:Ht.
  - rewrite (G _ t eq_refl). split.
    + intros Hall. exists t. auto.
    + intros (t' & Ht' & Hall). now inversion Ht'; subst.
  - clear G. simpl. rewrite Ht. split; [discriminate |].
    intros (t & Ht' & _). discriminate.
Qed.

Lemma validate_sink_returns db name keys :
  validate_sink db (Some name) keys = Next tt
  \/ exists m, logged_before_new_table m = true
               /\ validate_sink db (Some name) keys = ReturnFalse m.
Proof.
  induction keys as [|k keys IH]; simpl.
  - now left.
  - destruct (Database_GetTable db name) as [t|].
    + destruct (Table_GetColumn t k).
      * exact IH.
      * right. eexists. split; [| reflexivity]. reflexivity.
    + right. eexists. split; [| reflexivity]. reflexivity.
Qed.

(** With its required fields present, one iteration of the first loop goes
    on, leaving the collected names as they are or adding the column's name,
    or returns false with one of the validation messages. *)
Lemma validate_column_returns db columns col :
  has_required_fields col = true ->
  (exists columns', validate_column db columns col = Next columns')
  \/ exists m, logged_before_new_table m = true
               /\ validate_column db columns col = ReturnFalse m.
Proof.
  unfold has_required_fields, validate_column, if_present. intros Hreq.
  destruct (ColumnDefinition.type col) eqn:Ety.
  - destruct (ColumnDefinition.primary_key col) as [keys|]; simpl.
    + destruct (validate_keys_returns PrimaryKeyColumnNotInTable columns keys)
        as [E | (k & _ & _ & E)]; rewrite E; simpl; flow_cases.
    + flow_cases.
  - destruct (ColumnDefinition.name col) as [name|]; [| discriminate].
    destruct (ColumnDefinition.foreign_key_source col) as [source|]; simpl.
    + destruct (validate_keys_returns ForeignKeySourceColumnNotInTable
                  columns source) as [E | (k & _ & _ & E)];
        rewrite E; simpl; [| flow_cases].
      destruct (ColumnDefinition.foreign_key_sink col) as [sink|]; simpl;
        [| flow_cases].
      destruct (validate_sink_returns db name sink) as [E' | (m & Hm & E')];
        rewrite E'; simpl; [flow_cases | right; eauto].
    + destruct (ColumnDefinition.foreign_key_sink col) as [sink|]; simpl;
        [| flow_cases].
      destruct (validate_sink_returns db name sink) as [E' | (m & Hm & E')];
        rewrite E'; simpl; [flow_cases | right; eauto].
  - destruct (ColumnDefinition.name col) as [name|]; [| discriminate]. simpl.
    destruct (std_find columns name); flow_cases.
  - destruct (ColumnDefinition.name col) as [name|]; [| discriminate]. simpl.
    destruct (std_find columns name); flow_cases.
Qed.

Lemma validate_returns db cols : forall columns,
  forallb has_required_fields cols = true ->
  (exists columns', validate db columns cols = Next columns')
  \/ exists m, logged_before_new_table m = true
               /\ validate db columns cols = ReturnFalse m.
Proof.
  induction cols as [|col cols IH]; simpl; intros columns Hreq.
  - flow_cases.
  - apply andb_true_iff in Hreq as [Hcol Hcols].
    destruct (validate_column_returns db columns col Hcol)
      as [(columns' & E) | (m & Hm & E)]; rewrite E; simpl; eauto.
Qed.

Lemma validate_app db pre post : forall columns,
  validate db columns (pre ++ post) =
  (columns' <- validate db columns pre ;; validate db columns' post).
Proof.
  induction pre as [|col pre IH]; simpl; intros columns.
  - reflexivity.
  - destruct (validate_column db columns col); simpl; auto.
Qed.

(** The names the first loop has collected are those of the normal columns
    it has passed. *)
Lemma validate_column_names db columns col columns' :
  validate_column db columns col = Next columns' ->
  columns' = columns ++ normal_names [col].
Proof.
  unfold validate_column, normal_names, is_normal, if_present.
  destruct (ColumnDefinition.type col) eqn:Ety; simpl; rewrite Ety.
  - destruct (ColumnDefinition.primary_key col) as [keys|]; simpl.
    + destruct (validate_keys _ columns keys); simpl; try discriminate.
      intros [= <-]. now rewrite app_nil_r.
    + intros [= <-]. now rewrite app_nil_r.
  - destruct (match ColumnDefinition.foreign_key_source col with
              | Some a => validate_keys ForeignKeySourceColumnNotInTable columns a
              | None => Next tt end); simpl; try discriminate.
    destruct (match ColumnDefinition.foreign_key_sink col with
              | Some a => validate_sink db (ColumnDefinition.name col) a
              | None => Next tt end); simpl; try discriminate.
    intros [= <-]. now rewrite app_nil_r.
  - destruct (ColumnDefinition.name col) as [name|]; simpl; try discriminate.
    destruct (std_find columns name); [discriminate |].
    intros [= <-]. reflexivity.
  - destruct (ColumnDefinition.name col) as [name|]; simpl; try discriminate.
    destruct (std_find columns name); [discriminate |].
    intros [= <-]. reflexivity.
Qed.

Lemma normal_names_app pre post :
  normal_names (pre ++ post) = normal_names pre ++ normal_names post.
Proof. unfold normal_names. apply flat_map_app. Qed.

Lemma validate_names db cols : forall columns columns',
  validate db columns cols = Next columns' ->
  columns' = columns ++ normal_names cols.
Proof.
  induction cols as [|col cols IH]; intros columns columns' E; simpl in E.
  - injection E as <-. simpl. now rewrite app_nil_r.
  - destruct (validate_column db columns col) as [c1| | |] eqn:E1;
      simpl in E; try discriminate.
    apply IH in E. apply validate_column_names in E1. subst.
    rewrite <- app_assoc. f_equal.
    symmetry. apply (normal_names_app [col] cols).
Qed.

End Validation.

(* ================================================================== *)
(** ** The construction loop *)
(* ================================================================== *)

Section Construction.

Context `{Headers}.

Lemma create_normal_Next b col b' :
  create_normal b col = Next b' ->
  exists name,
    ColumnDefinition.name col = Some name
    /\ table_columns (table b') =
       table_columns (table b) ++ [column_of col name (offset b)]
    /\ physical_columns b' = physical_columns b ++ [info_of col name]
    /\ offset b' = oid_succ (offset b)
    /\ table_name (table b') = table_name (table b).
Proof.
  unfold create_normal. destruct (ColumnDefinition.name col) as [name|];
    simpl; [| discriminate].
  unfold Table_AddColumn.
  destruct (Table_GetColumn (table b) _); [discriminate |].
  intros [= <-]. exists name. simpl. auto.
Qed.

Lemma create_primary_Next b col b' :
  create_primary b col = Next b' ->
  table_columns (table b') = table_columns (table b)
  /\ physical_columns b' = physical_columns b
  /\ offset b' = offset b
  /\ table_name (table b') = table_name (table b).
Proof.
  unfold create_primary.
  destruct (ColumnDefinition.primary_key col) as [keys|]; simpl;
    [| discriminate].
  unfold Table_AddConstraint.
  destruct (Table_GetConstraint (table b) _); [discriminate |].
  unfold Table_AddIndex.
  destruct (Table_GetIndex _ _); [discriminate |].
  intros [= <-]. simpl. auto.
Qed.

Lemma create_foreign_Next db b col b' :
  create_foreign db b col = Next b' ->
  table_columns (table b') = table_columns (table b)
  /\ physical_columns b' = physical_columns b
  /\ offset b' = offset b
  /\ table_name (table b') = table_name (table b).
Proof.
  unfold create_foreign.
  destruct (ColumnDefinition.name col) as [name|]; simpl; [| discriminate].
  destruct (ColumnDefinition.foreign_key_source col) as [source|]; simpl;
    [| discriminate].
  destruct (ColumnDefinition.foreign_key_sink col) as [sink|]; simpl;
    [| discriminate].
  destruct (sink_columns_of _ sink) as [sink_columns| | |]; simpl;
    try discriminate.
  unfold Table_AddConstraint.
  destruct (Table_GetConstraint (table b) _); [discriminate |].
  intros [= <-]. simpl. auto.
Qed.

(** A marker without its key list stops the second loop at a null pointer. *)
Lemma create_column_null db b col :
  lacks_key_list col = true -> create_column db b col = NullDereference.
Proof.
  unfold lacks_key_list, create_column, create_primary, create_foreign.
  destruct (ColumnDefinition.type col); try discriminate.
  - destruct (ColumnDefinition.primary_key col); [discriminate | reflexivity].
  - destruct (ColumnDefinition.name col); [| reflexivity]. simpl.
    destruct (ColumnDefinition.foreign_key_source col); [| reflexivity]. simpl.
    destruct (ColumnDefinition.foreign_key_sink col);
      [discriminate | reflexivity].
Qed.

Lemma create_columns_null db col cols : forall b b',
  In col cols -> lacks_key_list col = true ->
  create_columns db b cols <> Next b'.
Proof.
  induction cols as [|c0 cols IH]; intros b b' Hin Hlack; simpl.
  - destruct Hin.
  - destruct Hin as [-> | Hin].
    + rewrite (create_column_null db b col Hlack). discriminate.
    + destruct (create_column db b c0); simpl; try discriminate.
      now apply IH.
Qed.

Lemma create_columns_Next db cols : forall b b',
  create_columns db b cols = Next b' ->
  table_columns (table b') =
    table_columns (table b) ++ columns_from (offset b) cols
  /\ physical_columns b' = physical_columns b ++ infos_of cols
  /\ table_name (table b') = table_name (table b)
  /\ forallb (fun col => negb (is_normal col)
                         || match ColumnDefinition.name col with
                            | Some _ => true
                            | None => false
                            end) cols = true.
Proof.
  induction cols as [|col cols IH]; intros b b' E; simpl in E.
  - injection E as <-. simpl. now rewrite !app_nil_r.
  - destruct (create_column db b col) as [b1| | |] eqn:E1; simpl in E;
      try discriminate.
    apply IH in E. destruct E as (Ecols & Einfos & Ename & Hall).
    unfold create_column in E1. unfold infos_of. simpl. unfold is_normal.
    destruct (ColumnDefinition.type col) eqn:Ety; simpl.
    + apply create_primary_Next in E1 as (E1 & E2 & E3 & E4).
      rewrite Ecols, Einfos, Ename, E1, E2, E3, E4. auto.
    + apply create_foreign_Next in E1 as (E1 & E2 & E3 & E4).
      rewrite Ecols, Einfos, Ename, E1, E2, E3, E4. auto.
    + apply create_normal_Next in E1 as (name & En & E1 & E2 & E3 & E4).
      rewrite Ecols, Einfos, Ename, E1, E2, E3, E4, En, <- !app_assoc. auto.
    + apply create_normal_Next in E1 as (name & En & E1 & E2 & E3 & E4).
      rewrite Ecols, Einfos, Ename, E1, E2, E3, E4, En, <- !app_assoc. auto.
Qed.

End Construction.

(* ================================================================== *)
(** ** Whole calls of Execute *)
(* ================================================================== *)

Section Calls.

Context `{Headers}.

Lemma Catalog_GetDatabase_name c name db :
  Catalog_GetDatabase c name = Some db -> database_name db = name.
Proof.
  intros E. apply lookup_holds in E as [E _]. now apply String.eqb_eq in E.
Qed.

Lemma Database_GetTable_name db name t :
  Database_GetTable db name = Some t -> table_name t = name.
Proof.
  intros E. apply lookup_holds in E as [E _]. now apply String.eqb_eq in E.
Qed.

(** A database written back through the pointer [GetDatabase] gave is the
    one the next lookup finds. *)
Lemma Catalog_PutDatabase_get c name db db' :
  Catalog_GetDatabase c name = Some db ->
  database_name db' = name ->
  Catalog_GetDatabase (Catalog_PutDatabase c db') name = Some db'.
Proof.
  intros E En. unfold Catalog_GetDatabase, Catalog_PutDatabase in *. simpl.
  rewrite En. apply lookup_write_back with (y := db); [assumption |].
  rewrite En. apply String.eqb_refl.
Qed.

Lemma Database_PutTable_get db name t t' :
  Database_GetTable db name = Some t ->
  table_name t' = name ->
  Database_GetTable (Database_PutTable db t') name = Some t'.
Proof.
  intros E En. unfold Database_GetTable, Database_PutTable in *. simpl.
  rewrite En. apply lookup_write_back with (y := t); [assumption |].
  rewrite En. apply String.eqb_refl.
Qed.

(** An object that a call did not change is written back to no effect. *)
Lemma Catalog_PutDatabase_same c name db :
  Catalog_GetDatabase c name = Some db -> Catalog_PutDatabase c db = c.
Proof.
  intros E. pose proof (Catalog_GetDatabase_name _ _ E) as En.
  unfold Catalog_GetDatabase, Catalog_PutDatabase in *.
  rewrite En, (write_back_same _ _ E). now destruct c.
Qed.

Lemma Database_PutTable_same db name t :
  Database_GetTable db name = Some t -> Database_PutTable db t = db.
Proof.
  intros E. pose proof (Database_GetTable_name _ _ E) as En.
  unfold Database_GetTable, Database_PutTable in *.
  rewrite En, (write_back_same _ _ E). now destruct db.
Qed.

(** A refused insertion leaves the container as it was. *)
Lemma Table_AddIndex_refused t i t' :
  Table_AddIndex t i = (false, t') -> t' = t.
Proof.
  unfold Table_AddIndex. destruct (Table_GetIndex t _); congruence.
Qed.

Lemma Database_AddTable_refused db t db' :
  Database_AddTable db t = (false, db') -> db' = db.
Proof.
  unfold Database_AddTable. destruct (Database_GetTable db _); congruence.
Qed.

Lemma Catalog_AddDatabase_refused c d c' :
  Catalog_AddDatabase c d = (false, c') -> c' = c.
Proof.
  unfold Catalog_AddDatabase. destruct (Catalog_GetDatabase c _); congruence.
Qed.

Lemma Execute_table c db stmt name :
  Catalog_GetDatabase c DEFAULT_DB_NAME = Some db ->
  CreateStatement.name stmt = Some name ->
  CreateStatement.type stmt = CreateStatement.kTable ->
  Execute c stmt = ExecuteTable c db stmt name.
Proof.
  intros Edb En Ety. unfold Execute. now rewrite Edb, En, Ety.
Qed.

Lemma Execute_index c db stmt name :
  Catalog_GetDatabase c DEFAULT_DB_NAME = Some db ->
  CreateStatement.name stmt = Some name ->
  CreateStatement.type stmt = CreateStatement.kIndex ->
  Execute c stmt = ExecuteIndex c db stmt name.
Proof.
  intros Edb En Ety. unfold Execute. now rewrite Edb, En, Ety.
Qed.

(** A call that returns has found the default database and the statement's
    name. *)
Lemma Execute_returned c stmt status log c' :
  Execute c stmt = Returned status log c' ->
  exists db name,
    Catalog_GetDatabase c DEFAULT_DB_NAME = Some db
    /\ CreateStatement.name stmt = Some name.
Proof.
  unfold Execute.
  destruct (Catalog_GetDatabase c DEFAULT_DB_NAME) as [db|]; simpl;
    [| discriminate].
  destruct (CreateStatement.name stmt) as [name|]; simpl; [| discriminate].
  eauto.
Qed.

(** The three cases, one by one: a call that returns false returns the
    catalog it was given. *)
Lemma ExecuteTable_false c db stmt name log c' :
  Catalog_GetDatabase c DEFAULT_DB_NAME = Some db ->
  ExecuteTable c db stmt name = Returned false log c' -> c' = c.
Proof.
  intros Edb. unfold ExecuteTable, Lock, Unlock.
  destruct (CreateStatement.columns stmt) as [cols|]; simpl; [| discriminate].
  destruct (validate db [] cols); simpl; try discriminate;
    [| now intros [= _ <-]].
  assert (G : with_catalog c (create_columns db (new_table name) cols)
                (fun b =>
                   let (status, db') :=
                     Database_AddTable db
                       (Table_SetPhysicalTable (table b)
                          (TableFactory_GetTable DEFAULT_DB_ID
                             (physical_columns b))) in
                   if status
                   then Returned true (CreatedTable name)
                                 (Catalog_PutDatabase c db')
                   else Returned false (CouldNotCreateTable name)
                                 (Catalog_PutDatabase c db'))
              = Returned false log c' -> c' = c).
  { destruct (create_columns db (new_table name) cols) as [b| | |]; simpl;
      try discriminate; [| now intros [= _ <-]].
    destruct (Database_AddTable db _) as [[] db'] eqn:Ea; [discriminate |].
    apply Database_AddTable_refused in Ea. subst db'.
    intros [= _ <-]. now apply Catalog_PutDatabase_same with DEFAULT_DB_NAME. }
  destruct (Database_GetTable db name);
    destruct (CreateStatement.if_not_exists stmt);
    solve [exact G | now intros [= _ <-]].
Qed.

Lemma ExecuteDatabase_false c name log c' :
  ExecuteDatabase c name = Returned false log c' -> c' = c.
Proof.
  unfold ExecuteDatabase, Lock, Unlock.
  destruct (Catalog_GetDatabase c name); [now intros [= _ <-] |].
  destruct (Catalog_AddDatabase c _) as [[] c1] eqn:Ea; [discriminate |].
  apply Catalog_AddDatabase_refused in Ea. now intros [= _ <-].
Qed.

Lemma ExecuteIndex_false c db stmt name log c' :
  Catalog_GetDatabase c DEFAULT_DB_NAME = Some db ->
  ExecuteIndex c db stmt name = Returned false log c' -> c' = c.
Proof.
  intros Edb. unfold ExecuteIndex, Lock, Unlock.
  destruct (CreateStatement.table_name stmt) as [tn|]; simpl; [| discriminate].
  destruct (Database_GetTable db tn) as [t|] eqn:Et; [| now intros [= _ <-]].
  destruct (CreateStatement.index_attrs stmt) as [attrs|];
    [| now intros [= _ <-]].
  destruct (resolve_keys t tn attrs [] []) as [keys| | |]; simpl;
    try discriminate; [| now intros [= _ <-]].
  destruct (table_physical t); simpl; [| discriminate].
  destruct (Table_AddIndex t _) as [[] t1] eqn:Ea; [discriminate |].
  apply Table_AddIndex_refused in Ea. subst t1.
  intros [= _ <-].
  rewrite (Database_PutTable_same _ _ Et).
  now apply Catalog_PutDatabase_same with DEFAULT_DB_NAME.
Qed.

(** Failure leaves no trace: whatever the statement, a call that returns
    false returns the catalog it was given. *)
Lemma Execute_false c stmt log c' :
  Execute c stmt = Returned false log c' -> c' = c.
Proof.
  intros E. pose proof (Execute_returned _ _ E) as (db & name & Edb & En).
  unfold Execute in E. rewrite Edb, En in E. simpl in E.
  destruct (CreateStatement.type stmt).
  - now apply ExecuteTable_false in E.
  - now apply ExecuteDatabase_false in E.
  - now apply ExecuteIndex_false in E.
  - now injection E as _ <-.
Qed.

(** CREATE DATABASE, one call after the other: once a name is in, the same
    statement is turned away at line 287. *)
Lemma create_database_twice c stmt name log c' :
  CreateStatement.type stmt = CreateStatement.kDatabase ->
  CreateStatement.name stmt = Some name ->
  Execute c stmt = Returned true log c' ->
  Execute c' stmt = Returned false (DatabaseAlreadyExists name) c'.
Proof.
  intros Ety En E.
  pose proof (Execute_returned _ _ E) as (db & name' & Edb & En').
  unfold Execute in *. rewrite Edb, En, Ety in E. rewrite En, Ety.
  simpl in E. unfold ExecuteDatabase, Lock, Unlock in *.
  destruct (Catalog_GetDatabase c name) eqn:Eg; [discriminate |].
  unfold Catalog_AddDatabase in E. simpl in E. rewrite Eg in E.
  injection E as <- <-.
  unfold Catalog_GetDatabase in *. simpl.
  rewrite (lookup_snoc_found _ _ _ Edb). simpl.
  rewrite (lookup_snoc _ _ _ Eg). simpl. now rewrite String.eqb_refl.
Qed.

(** What a CREATE TABLE call that returns true has done. *)
Lemma ExecuteTable_true c db stmt name log c' :
  Catalog_GetDatabase c DEFAULT_DB_NAME = Some db ->
  ExecuteTable c db stmt name = Returned true log c' ->
  exists cols declared b db',
    CreateStatement.columns stmt = Some cols
    /\ validate db [] cols = Next declared
    /\ create_columns db (new_table name) cols = Next b
    /\ Database_GetTable db name = None
    /\ database_tables db' = database_tables db ++ [built_table b]
    /\ Catalog_GetDatabase c' DEFAULT_DB_NAME = Some db'
    /\ Database_GetTable db' name = Some (built_table b).
Proof.
  intros Edb. unfold ExecuteTable, Lock, Unlock.
  destruct (CreateStatement.columns stmt) as [cols|]; simpl; [| discriminate].
  destruct (validate db [] cols) as [declared| | |] eqn:Ev; simpl;
    try discriminate.
  intros E.
  assert (E' : with_catalog c (create_columns db (new_table name) cols)
                 (fun b =>
                    let (status, db') :=
                      Database_AddTable db (built_table b) in
                    if status
                    then Returned true (CreatedTable name)
                                  (Catalog_PutDatabase c db')
                    else Returned false (CouldNotCreateTable name)
                                  (Catalog_PutDatabase c db'))
               = Returned true log c').
  { destruct (Database_GetTable db name);
      destruct (CreateStatement.if_not_exists stmt);
      try discriminate; exact E. }
  clear E.
  destruct (create_columns db (new_table name) cols) as [b| | |] eqn:Ec;
    simpl in E'; try discriminate.
  pose proof (create_columns_Next _ _ _ Ec) as (_ & _ & Ename & _).
  simpl in Ename.
  unfold Database_AddTable in E'.
  assert (En : table_name (built_table b) = name) by exact Ename.
  rewrite En in E'.
  destruct (Database_GetTable db name) eqn:Eg; [discriminate |].
  injection E' as <- <-.
  exists cols, declared, b,
    (mkDatabase (database_name db) (database_tables db ++ [built_table b])).
  repeat split; try reflexivity; try assumption.
  - eapply Catalog_PutDatabase_get; [eassumption |].
    simpl. eapply Catalog_GetDatabase_name; eassumption.
  - unfold Database_GetTable in *. simpl.
    rewrite (lookup_snoc _ _ _ Eg), En. now rewrite String.eqb_refl.
Qed.

End Calls.

(* ================================================================== *)
(** ** CREATE TABLE: rejection and atomicity *)
(* ================================================================== *)

Section CreateTable.

Context `{Headers}.

(** The first loop run over a list that ends in a rejected definition
    returns false, whatever follows the definition. *)
Lemma validate_rejects db pre col post :
  forallb has_required_fields pre = true ->
  (forall declared, validate db [] pre = Next declared ->
     exists m, logged_before_new_table m = true
               /\ validate_column db declared col = ReturnFalse m) ->
  exists m, logged_before_new_table m = true
            /\ validate db [] (pre ++ col :: post) = ReturnFalse m.
Proof.
  intros Hreq Hcol. rewrite validate_app.
  destruct (validate_returns db pre [] Hreq) as [(declared & E) | (m & Hm & E)];
    rewrite E; simpl.
  - destruct (Hcol declared E) as (m & Hm & E'). rewrite E'. simpl. eauto.
  - eauto.
Qed.

(** A CREATE TABLE call whose first loop returns false returns false. *)
Lemma Execute_table_invalid c db stmt name cols m :
  Catalog_GetDatabase c DEFAULT_DB_NAME = Some db ->
  CreateStatement.name stmt = Some name ->
  CreateStatement.type stmt = CreateStatement.kTable ->
  CreateStatement.columns stmt = Some cols ->
  validate db [] cols = ReturnFalse m ->
  Execute c stmt = Returned false m c.
Proof.
  intros Edb En Ety Ecols Ev.
  rewrite (Execute_table _ _ Edb En Ety). unfold ExecuteTable.
  rewrite Ecols. simpl. rewrite Ev. reflexivity.
Qed.

(** C2.  Atomicity of CREATE TABLE: when [Execute] returns false on a CREATE
    TABLE statement, the catalog it returns is the catalog it was called on;
    in particular the default database holds exactly the tables it held
    before the call. *)
Theorem failed_create_table_leaves_database_unchanged
    c stmt log c' :
  CreateStatement.type stmt = CreateStatement.kTable ->
  Execute c stmt = Returned false log c' ->
  c' = c
  /\ exists db db',
       Catalog_GetDatabase c DEFAULT_DB_NAME = Some db
       /\ Catalog_GetDatabase c' DEFAULT_DB_NAME = Some db'
       /\ database_tables db' = database_tables db.
Proof.
  intros _ E.
  destruct (Execute_returned _ _ E) as (db & name & Edb & _).
  apply Execute_false in E as ->. split; [reflexivity |].
  exists db, db. auto.
Qed.

(** C4.  Forward references are rejected: a PRIMARY marker that names a
    column which no normal column before it in the column list declares
    makes [Execute] return false, whatever the list declares after the
    marker.  (The fields the first loop asserts or reads are present in the
    definitions before the marker, so that the loop reaches a verdict.) *)
Theorem primary_key_forward_reference_is_rejected
    c db stmt name pre col post keys key :
  Catalog_GetDatabase c DEFAULT_DB_NAME = Some db ->
  CreateStatement.type stmt = CreateStatement.kTable ->
  CreateStatement.name stmt = Some name ->
  CreateStatement.columns stmt = Some (pre ++ col :: post) ->
  forallb has_required_fields pre = true ->
  ColumnDefinition.type col = PRIMARY ->
  ColumnDefinition.primary_key col = Some keys ->
  In key keys ->
  ~ In key (normal_names pre) ->
  exists log,
    logged_before_new_table log = true
    /\ Execute c stmt = Returned false log c.
Proof.
  intros Edb Ety En Ecols Hreq Hty Hkeys Hin Hnot.
  destruct (validate_rejects db pre col post Hreq) as (m & Hm & E).
  - intros declared Ev. apply validate_names in Ev. simpl in Ev. subst declared.
    unfold validate_column, if_present. rewrite Hty, Hkeys.
    destruct (validate_keys_returns PrimaryKeyColumnNotInTable
                (normal_names pre) keys) as [E | (k & _ & _ & E)].
    + exfalso. apply Hnot.
      now apply (proj1 (validate_keys_Next _ _ _) E).
    + rewrite E. simpl. eexists. split; [| reflexivity]. reflexivity.
  - exists m. split; [assumption |].
    now apply Execute_table_invalid with (db := db) (name := name)
                                         (cols := pre ++ col :: post).
Qed.

(** C8.  The existence guard: with the guard flag set and the target name
    already naming a table of the database, [Execute] returns false and
    leaves the catalog, and with it that table, as it was.  The message it
    logs is one logged before line 122 builds the new table; when the
    column list passes validation it is "Table already exists". *)
Theorem existence_guard_rejects_existing_table
    c db stmt name cols t :
  Catalog_GetDatabase c DEFAULT_DB_NAME = Some db ->
  CreateStatement.type stmt = CreateStatement.kTable ->
  CreateStatement.name stmt = Some name ->
  CreateStatement.columns stmt = Some cols ->
  forallb has_required_fields cols = true ->
  CreateStatement.if_not_exists stmt = true ->
  Database_GetTable db name = Some t ->
  exists log,
    Execute c stmt = Returned false log c
    /\ logged_before_new_table log = true
    /\ (forall declared, validate db [] cols = Next declared ->
          log = TableAlreadyExists name).
Proof.
  intros Edb Ety En Ecols Hreq Hguard Ht.
  destruct (validate_returns db cols [] Hreq) as [(declared & E) | (m & Hm & E)].
  - exists (TableAlreadyExists name). repeat split.
    rewrite (Execute_table _ _ Edb En Ety).
    unfold ExecuteTable. rewrite Ecols. simpl. rewrite E. simpl.
    now rewrite Ht, Hguard.
  - exists m. repeat split; [| assumption | intros d Ed; congruence].
    now apply Execute_table_invalid with (db := db) (name := name)
                                         (cols := cols).
Qed.

End CreateTable.

(* ================================================================== *)
(** ** CREATE TABLE: markers *)
(* ================================================================== *)

Section Markers.

Context `{Headers}.

(** The first loop's verdict on a FOREIGN marker whose lists are present and
    whose sink list is not empty. *)
Lemma validate_foreign db declared col name source key sink :
  ColumnDefinition.type col = FOREIGN ->
  ColumnDefinition.name col = Some name ->
  ColumnDefinition.foreign_key_source col = Some source ->
  ColumnDefinition.foreign_key_sink col = Some (key :: sink) ->
  validate_column db declared col = Next declared <->
  foreign_resolves db declared name source (key :: sink).
Proof.
  intros Ety En Esrc Esnk. unfold foreign_resolves.
  rewrite <- validate_sink_Next,
          <- (validate_keys_Next ForeignKeySourceColumnNotInTable).
  unfold validate_column, if_present. rewrite Ety, En, Esrc, Esnk.
  generalize (validate_sink db (Some name) (key :: sink)).
  generalize (validate_keys ForeignKeySourceColumnNotInTable declared source).
  intros [[]| | |] [[]| | |]; simpl; split;
    solve [ discriminate | intros [? ?]; discriminate | auto ].
Qed.

(** C3, as the code has it.  Take a FOREIGN marker of a CREATE TABLE
    statement whose source and sink lists are present, the sink list not
    empty, and let the definitions before it pass the first loop.  The loop
    accepts the marker exactly when every source column is declared by a
    normal column before the marker, the sink table exists in the database
    and every sink column is a column of it.  A call that returns true has
    accepted the marker; when the marker does not resolve, the call returns
    false and the catalog is unchanged. *)
Theorem foreign_marker_is_accepted_iff_it_resolves
    c db stmt table pre col post name source key sink :
  Catalog_GetDatabase c DEFAULT_DB_NAME = Some db ->
  CreateStatement.type stmt = CreateStatement.kTable ->
  CreateStatement.name stmt = Some table ->
  CreateStatement.columns stmt = Some (pre ++ col :: post) ->
  ColumnDefinition.type col = FOREIGN ->
  ColumnDefinition.name col = Some name ->
  ColumnDefinition.foreign_key_source col = Some source ->
  ColumnDefinition.foreign_key_sink col = Some (key :: sink) ->
  validate db [] pre = Next (normal_names pre) ->
  let resolves :=
    foreign_resolves db (normal_names pre) name source (key :: sink) in
  (validate_column db (normal_names pre) col = Next (normal_names pre)
   <-> resolves)
  /\ (forall log c', Execute c stmt = Returned true log c' -> resolves)
  /\ (~ resolves -> exists log, Execute c stmt = Returned false log c).
Proof.
  intros Edb Ety En Ecols Hty Hname Hsrc Hsnk Hpre resolves.
  pose proof (validate_foreign db (normal_names pre) col Hty Hname Hsrc Hsnk)
    as Hiff.
  fold resolves in Hiff.
  assert (Hreq : has_required_fields col = true).
  { unfold has_required_fields. now rewrite Hty, Hname. }
  assert (Hsame : forall declared',
            validate_column db (normal_names pre) col = Next declared' ->
            declared' = normal_names pre).
  { intros d Ed. apply validate_column_names in Ed. subst d.
    unfold normal_names, is_normal. simpl. rewrite Hty. simpl.
    now rewrite app_nil_r. }
  split; [exact Hiff | split].
  - intros log c' E.
    rewrite (Execute_table _ _ Edb En Ety) in E.
    destruct (ExecuteTable_true _ _ _ Edb E)
      as (cols & declared & _ & _ & Ec & Ev & _).
    rewrite Ecols in Ec. injection Ec as <-.
    rewrite validate_app, Hpre in Ev. simpl in Ev.
    destruct (validate_column db (normal_names pre) col) as [d| | |] eqn:Ed;
      simpl in Ev; try discriminate.
    apply Hiff. now rewrite (Hsame d eq_refl).
  - intros Hno.
    destruct (validate_column_returns db (normal_names pre) col Hreq)
      as [(d & Ed) | (m & _ & Ed)].
    + exfalso. apply Hno, Hiff. now rewrite Ed, (Hsame d Ed).
    + exists m.
      apply Execute_table_invalid with (db := db) (name := table)
                                       (cols := pre ++ col :: post);
        try assumption.
      rewrite validate_app, Hpre. simpl. now rewrite Ed.
Qed.

Lemma validate_column_absent_as_empty db declared col :
  validate_column db declared col =
  validate_column db declared (with_empty_key_lists col).
Proof.
  unfold validate_column, with_empty_key_lists, if_present. simpl.
  destruct (ColumnDefinition.type col); try reflexivity.
  - now destruct (ColumnDefinition.primary_key col).
  - destruct (ColumnDefinition.foreign_key_source col);
      destruct (ColumnDefinition.foreign_key_sink col); reflexivity.
Qed.

(** C10.  Key lists are an unchecked precondition.  The first loop validates
    a marker whose key list is absent as it validates the marker with an
    empty list, and so accepts a PRIMARY marker without its list and a
    FOREIGN marker without both of its lists; the second loop
    dereferences the absent list; hence no CREATE TABLE statement that holds
    such a marker makes [Execute] return true. *)
Theorem absent_key_lists_are_an_unchecked_precondition
    db declared b col :
  lacks_key_list col = true ->
  validate_column db declared col
    = validate_column db declared (with_empty_key_lists col)
  /\ (ColumnDefinition.type col = PRIMARY ->
      validate_column db declared col = Next declared)
  /\ (ColumnDefinition.foreign_key_source col = None ->
      ColumnDefinition.foreign_key_sink col = None ->
      validate_column db declared col = Next declared)
  /\ create_column db b col = NullDereference
  /\ (forall c stmt cols log c',
        CreateStatement.type stmt = CreateStatement.kTable ->
        CreateStatement.columns stmt = Some cols ->
        In col cols ->
        Execute c stmt <> Returned true log c').
Proof.
  intros Hlack. split; [apply validate_column_absent_as_empty |].
  split; [| split; [| split]].
  - intros Ety. unfold lacks_key_list in Hlack. rewrite Ety in Hlack.
    unfold validate_column, if_present. rewrite Ety.
    now destruct (ColumnDefinition.primary_key col).
  - intros Esrc Esnk. unfold lacks_key_list in Hlack.
    unfold validate_column, if_present.
    destruct (ColumnDefinition.type col); try discriminate.
    + now destruct (ColumnDefinition.primary_key col).
    + now rewrite Esrc, Esnk.
  - now apply create_column_null.
  - intros c stmt cols log c' Ety Ecols Hin E.
    pose proof (Execute_returned _ _ E) as (db0 & name & Edb & En).
    rewrite (Execute_table _ _ Edb En Ety) in E.
    destruct (ExecuteTable_true _ _ _ Edb E)
      as (cols' & _ & b' & _ & Ec & _ & Ecreate & _).
    rewrite Ecols in Ec. injection Ec as <-.
    revert Ecreate. now apply create_columns_null with (col := col).
Qed.

End Markers.

(* ================================================================== *)
(** ** CREATE TABLE: the columns of the new table *)
(* ================================================================== *)

Section Columns.

Context `{Headers}.

Lemma oid_succ_small offset n :
  offset + N.of_nat (S n) <= 2 ^ oid_bits ->
  oid_succ offset + N.of_nat n <= 2 ^ oid_bits
  /\ (n <> 0%nat -> oid_succ offset = offset + 1).
Proof.
  intros Hle. unfold oid_succ.
  assert (Hpos : 0 < 2 ^ oid_bits).
  { apply N.neq_0_lt_0, N.pow_nonzero. discriminate. }
  destruct n as [|n].
  - split; [| congruence].
    pose proof (N.mod_lt (offset + 1) (2 ^ oid_bits)). lia.
  - assert (Hlt : offset + 1 < 2 ^ oid_bits) by lia.
    rewrite (N.mod_small _ _ Hlt). split; [lia | reflexivity].
Qed.

Lemma normal_names_cons col cols :
  normal_names (col :: cols) = normal_names [col] ++ normal_names cols.
Proof. apply (normal_names_app [col] cols). Qed.

Lemma columns_from_names cols : forall offset,
  map column_name (columns_from offset cols) = normal_names cols.
Proof.
  induction cols as [|col cols IH]; intros offset; [reflexivity |].
  rewrite normal_names_cons. unfold normal_names at 1. simpl.
  destruct (is_normal col); [| apply IH].
  destruct (ColumnDefinition.name col); simpl; [| apply IH].
  now rewrite IH.
Qed.

(** Offsets count up from the first one as long as the counter does not
    wrap. *)
Lemma columns_from_offsets cols : forall offset,
  offset + N.of_nat (length (normal_names cols)) <= 2 ^ oid_bits ->
  map column_offset (columns_from offset cols) =
  map (fun i => offset + N.of_nat i) (seq 0 (length (normal_names cols))).
Proof.
  induction cols as [|col cols IH]; intros offset; [reflexivity |].
  rewrite normal_names_cons. unfold normal_names at 1 3. simpl.
  destruct (is_normal col); [| apply IH].
  destruct (ColumnDefinition.name col); simpl; [| apply IH].
  intros Hle. rewrite N.add_0_r. f_equal.
  apply oid_succ_small in Hle as [Hle Hsucc].
  rewrite (IH _ Hle), <- seq_shift, map_map.
  destruct (length (normal_names cols)) as [|n] eqn:En; [reflexivity |].
  rewrite Hsucc by discriminate.
  apply map_ext. intros i. lia.
Qed.

(** When every normal column carries its name, the declared names are as
    many as the normal columns. *)
Lemma normal_names_length cols :
  forallb (fun col => negb (is_normal col)
                      || match ColumnDefinition.name col with
                         | Some _ => true
                         | None => false
                         end) cols = true ->
  length (normal_names cols) = length (filter is_normal cols).
Proof.
  induction cols as [|col cols IH]; [reflexivity |].
  rewrite normal_names_cons. unfold normal_names at 1.
  simpl. intros Hall. apply andb_true_iff in Hall as [Hcol Hall].
  rewrite length_app, (IH Hall).
  destruct (is_normal col); [| reflexivity].
  destruct (ColumnDefinition.name col); [reflexivity | discriminate].
Qed.

Lemma columns_from_sizes cols : forall offset,
  forallb (fun col => negb (is_normal col)
                      || match ColumnDefinition.name col with
                         | Some _ => true
                         | None => false
                         end) cols = true ->
  map column_size (columns_from offset cols) =
  map column_length (filter is_normal cols).
Proof.
  induction cols as [|col cols IH]; intros offset; [reflexivity |].
  simpl. intros Hall. apply andb_true_iff in Hall as [Hcol Hall].
  destruct (is_normal col); [| now apply IH].
  destruct (ColumnDefinition.name col); [| discriminate].
  simpl. now rewrite IH.
Qed.


(** The code's width under the two sequential tests of lines 224-227: the
    test on the value type is the later one and wins. *)
Lemma column_length_cases col :
  let type := GetValueType (ColumnDefinition.type col) in
  column_length col =
  match type with
  | VALUE_TYPE_VARCHAR | VALUE_TYPE_VARBINARY => ColumnDefinition.varlen col
  | VALUE_TYPE_OTHER _ =>
      match ColumnDefinition.type col with
      | CHAR => 1
      | _ => GetTypeSize type
      end
  end.
Proof.
  unfold column_length. simpl.
  destruct (GetValueType (ColumnDefinition.type col));
    destruct (ColumnDefinition.type col); reflexivity.
Qed.

(** With CHAR not mapped to a variable-length value type, the code's width
    is the specification's. *)
Lemma column_length_declared col :
  GetValueType CHAR <> VALUE_TYPE_VARCHAR ->
  GetValueType CHAR <> VALUE_TYPE_VARBINARY ->
  column_length col = declared_width col.
Proof.
  intros Hvc Hvb. rewrite column_length_cases. unfold declared_width.
  destruct (ColumnDefinition.type col) eqn:Ety; simpl;
    destruct (GetValueType _) eqn:Ev; try reflexivity; congruence.
Qed.

(** C5.  Offset density: after a successful CREATE TABLE with N normal
    columns (N within the range of [oid_t]), the table registered under the
    statement's name holds N columns, named as the normal columns are and in
    their order, with offsets 0, 1, ..., N-1.  N counts normal columns only:
    the markers in the list take no offset. *)
Theorem created_table_has_dense_offsets
    c stmt name cols log c' :
  CreateStatement.type stmt = CreateStatement.kTable ->
  CreateStatement.name stmt = Some name ->
  CreateStatement.columns stmt = Some cols ->
  N.of_nat (length (filter is_normal cols)) <= 2 ^ oid_bits ->
  Execute c stmt = Returned true log c' ->
  exists db' t,
    Catalog_GetDatabase c' DEFAULT_DB_NAME = Some db'
    /\ Database_GetTable db' name = Some t
    /\ map column_name (table_columns t) = normal_names cols
    /\ map column_offset (table_columns t) =
       map N.of_nat (seq 0 (length (filter is_normal cols))).
Proof.
  intros Ety En Ecols Hrange E.
  pose proof (Execute_returned _ _ E) as (db & name' & Edb & En').
  rewrite En in En'. injection En' as <-.
  rewrite (Execute_table _ _ Edb En Ety) in E.
  destruct (ExecuteTable_true _ _ _ Edb E)
    as (cols' & _ & b & db' & Ec & _ & Ecreate & _ & _ & Edb' & Et).
  rewrite Ecols in Ec. injection Ec as <-.
  apply create_columns_Next in Ecreate as (Ecolumns & _ & _ & Hnamed).
  simpl in Ecolumns.
  exists db', (built_table b). repeat split; try assumption.
  - unfold built_table. simpl. rewrite Ecolumns. apply columns_from_names.
  - unfold built_table. simpl. rewrite Ecolumns.
    rewrite <- (normal_names_length _ Hnamed) in *.
    now rewrite columns_from_offsets.
Qed.


End Columns.

(* ================================================================== *)
(** ** CREATE INDEX *)
(* ================================================================== *)

Section CreateIndex.

Context `{Headers}.

Lemma Table_AddIndex_get t i t' :
  Table_AddIndex t i = (true, t') ->
  table_name t' = table_name t
  /\ table_indexes t' = table_indexes t ++ [i]
  /\ Table_GetIndex t' (index_name i) = Some i.
Proof.
  unfold Table_AddIndex.
  destruct (Table_GetIndex t (index_name i)) eqn:E; [discriminate |].
  intros [= <-]. unfold Table_GetIndex in *. simpl.
  rewrite (lookup_snoc _ _ _ E). now rewrite String.eqb_refl.
Qed.

(** The write through the index pointer reaches the index the table holds. *)
Lemma Table_SetPhysicalIndexOf_get t name i p :
  Table_GetIndex t name = Some i ->
  table_name (Table_SetPhysicalIndexOf t name p) = table_name t
  /\ Table_GetIndex (Table_SetPhysicalIndexOf t name p) name
     = Some (Index_SetPhysicalIndex i p).
Proof.
  intros E. unfold Table_SetPhysicalIndexOf. rewrite E.
  split; [reflexivity |]. unfold Table_GetIndex in *. simpl.
  apply lookup_write_back with (y := i); [assumption |].
  simpl. apply lookup_holds in E. tauto.
Qed.

(** What a CREATE INDEX call that returns true has done. *)
Lemma ExecuteIndex_true c db stmt name log c' :
  ExecuteIndex c db stmt name = Returned true log c' ->
  exists table_name table index_attrs keys table1,
    CreateStatement.table_name stmt = Some table_name
    /\ Database_GetTable db table_name = Some table
    /\ CreateStatement.index_attrs stmt = Some index_attrs
    /\ resolve_keys table table_name index_attrs [] [] = Next keys
    /\ Table_AddIndex table
         (mkIndex name INDEX_TYPE_BTREE_MULTIMAP (CreateStatement.unique stmt)
                  (map Some (snd keys)) None) = (true, table1)
    /\ c' = Catalog_PutDatabase c
              (Database_PutTable db
                 (Table_SetPhysicalIndexOf table1 name None)).
Proof.
  unfold ExecuteIndex, Lock, Unlock.
  destruct (CreateStatement.table_name stmt) as [tn|]; simpl; [| discriminate].
  destruct (Database_GetTable db tn) as [table|] eqn:Et; [| discriminate].
  destruct (CreateStatement.index_attrs stmt) as [attrs|]; [| discriminate].
  destruct (resolve_keys table tn attrs [] []) as [keys| | |] eqn:Ek; simpl;
    try discriminate.
  destruct (table_physical table) as [physical|]; simpl; [| discriminate].
  destruct (Table_AddIndex table _) as [[] table1] eqn:Ea; [| discriminate].
  intros [= <- <-]. exists tn, table, attrs, keys, table1.
  repeat split; solve [reflexivity | assumption].
Qed.

(** C1, as the code has it.  Whenever [Execute] returns true on a CREATE
    INDEX statement, the index registered on the target table under the
    statement's name carries no physical index: its handle is null. *)
Theorem created_index_has_null_physical_index
    c stmt log c' :
  CreateStatement.type stmt = CreateStatement.kIndex ->
  Execute c stmt = Returned true log c' ->
  exists db' name table_name t i,
    CreateStatement.name stmt = Some name
    /\ CreateStatement.table_name stmt = Some table_name
    /\ Catalog_GetDatabase c' DEFAULT_DB_NAME = Some db'
    /\ Database_GetTable db' table_name = Some t
    /\ Table_GetIndex t name = Some i
    /\ index_physical i = None.
Proof.
  intros Ety E.
  pose proof (Execute_returned _ _ E) as (db & name & Edb & En).
  rewrite (Execute_index _ _ Edb En Ety) in E.
  apply ExecuteIndex_true in E
    as (tn & table & attrs & keys & table1 & Etn & Et & _ & _ & Ea & ->).
  apply Table_AddIndex_get in Ea as (Ename1 & _ & Ei). simpl in Ei.
  destruct (Table_SetPhysicalIndexOf_get table1 name None Ei) as (Ename2 & Ei2).
  set (t := Table_SetPhysicalIndexOf table1 name None) in *.
  exists (Database_PutTable db t), name, tn, t. eexists.
  split; [assumption |]. split; [assumption |].
  split; [| split; [| split; [exact Ei2 | reflexivity]]].
  - eapply Catalog_PutDatabase_get; [eassumption |].
    simpl. eapply Catalog_GetDatabase_name; eassumption.
  - eapply Database_PutTable_get; [eassumption |].
    rewrite Ename2, Ename1. eapply Database_GetTable_name; eassumption.
Qed.

(** C6, as the code has it.  A CREATE INDEX statement whose key-attribute
    list is absent makes [Execute] return false, for want of the table or
    for want of the attributes, and the catalog, and so the index set of the
    target table, is unchanged. *)
Theorem create_index_without_attribute_list_is_rejected
    c db stmt name table_name :
  Catalog_GetDatabase c DEFAULT_DB_NAME = Some db ->
  CreateStatement.type stmt = CreateStatement.kIndex ->
  CreateStatement.name stmt = Some name ->
  CreateStatement.table_name stmt = Some table_name ->
  CreateStatement.index_attrs stmt = None ->
  exists log,
    Execute c stmt = Returned false log c
    /\ (log = NoIndexAttributesDefined name
        \/ (log = TableDoesNotExist table_name
            /\ Database_GetTable db table_name = None)).
Proof.
  intros Edb Ety En Etn Eattrs.
  rewrite (Execute_index _ _ Edb En Ety). unfold ExecuteIndex.
  rewrite Etn. simpl.
  destruct (Database_GetTable db table_name) as [t|].
  - rewrite Eattrs. eauto.
  - eauto.
Qed.

End CreateIndex.

(* ================================================================== *)
(** ** The scenarios, run *)
(* ================================================================== *)

Section Scenarios.

#[local] Existing Instance Scenario.headers.

Import Scenario.

(** Scenario E fails and leaves the empty catalog empty. *)
Lemma duplicate_column_leaves_catalog_unchanged :
  Execute empty_catalog create_duplicate
    = Returned false (DuplicateColumnName "amount") empty_catalog
  /\ exists db db',
       Catalog_GetDatabase empty_catalog DEFAULT_DB_NAME = Some db
       /\ Catalog_GetDatabase empty_catalog DEFAULT_DB_NAME = Some db'
       /\ database_tables db' = database_tables db.
Proof.
  split; [reflexivity |].
  apply (@failed_create_table_leaves_database_unchanged headers
           empty_catalog create_duplicate
           (DuplicateColumnName "amount") empty_catalog);
    reflexivity.
Defined.

(** The marker of [create_forward] names "a", declared only after it. *)
Lemma forward_reference_is_rejected :
  ~ In "a" (normal_names [normal "b" INT 0])
  /\ In "a" (normal_names [normal "a" INT 0])
  /\ exists log,
       logged_before_new_table log = true
       /\ Execute empty_catalog create_forward
          = Returned false log empty_catalog.
Proof.
  assert (Hnot : ~ In "a" (normal_names [normal "b" INT 0])).
  { intros [E | []]. discriminate E. }
  split; [exact Hnot |]. split; [now left |].
  apply (@primary_key_forward_reference_is_rejected headers
           empty_catalog (mkDatabase "default" []) create_forward "early"
           [normal "b" INT 0] (primary (Some ["a"])) [normal "a" INT 0]
           ["a"] "a");
    try reflexivity.
  - now left.
  - exact Hnot.
Defined.

(** Scenario B: a second CREATE TABLE orders, guard set. *)
Lemma second_create_orders_is_rejected :
  exists log,
    Execute orders_catalog create_orders = Returned false log orders_catalog
    /\ logged_before_new_table log = true
    /\ (forall declared,
          validate orders_database []
            [normal "id" INT 0; primary (Some ["id"])] = Next declared ->
          log = TableAlreadyExists "orders").
Proof.
  destruct (Database_GetTable orders_database "orders") as [t|] eqn:Et;
    [| discriminate].
  apply (@existence_guard_rejects_existing_table headers
           orders_catalog orders_database create_orders "orders"
           [normal "id" INT 0; primary (Some ["id"])] t);
    solve [reflexivity | exact Et].
Defined.

(** Scenario C: the marker does not resolve, the call returns false. *)
Lemma unknown_sink_column_is_rejected :
  exists log,
    Execute orders_catalog create_lines_unknown_sink
    = Returned false log orders_catalog.
Proof.
  apply (@foreign_marker_is_accepted_iff_it_resolves headers
           orders_catalog orders_database create_lines_unknown_sink "lines"
           [normal "oid" INT 0]
           (foreign "orders" (Some ["oid"]) (Some ["nope"])) []
           "orders" ["oid"] "nope" []);
    try reflexivity.
  intros [_ (t & Et & Hall)].
  apply (Hall "nope"); [now left |].
  vm_compute in Et. injection Et as <-. reflexivity.
Defined.

(** C3 as stated fails in both directions.  The sink of the first marker
    resolves, yet the call returns false, the source column being unknown;
    the sink table of the second marker does not exist, yet the call returns
    true, the marker naming no sink column. *)
Lemma foreign_marker_claim_fails :
  (sink_resolves orders_database "orders" ["id"]
   /\ Execute orders_catalog create_lines_unknown_source
      = Returned false (ForeignKeySourceColumnNotInTable "nope") orders_catalog)
  /\ (~ sink_resolves orders_database "ghost" []
      /\ exists c',
           Execute orders_catalog create_lines_ghost
           = Returned true (CreatedTable "lines") c').
Proof.
  split; split.
  - eexists. split; [reflexivity |].
    intros key [<- | []]. discriminate.
  - reflexivity.
  - intros (t & Et & _). discriminate.
  - eexists. reflexivity.
Defined.

(** The unkeyed marker passes the first loop and faults in the second. *)
Lemma unkeyed_marker_faults :
  Execute empty_catalog create_unkeyed = NullDereferenced
  /\ validate_column (mkDatabase "default" []) ["a"] (primary None)
     = Next ["a"]
  /\ forall log c',
       Execute empty_catalog create_unkeyed <> Returned true log c'.
Proof.
  split; [reflexivity |].
  destruct (@absent_key_lists_are_an_unchecked_precondition headers
              (mkDatabase "default" []) ["a"] (new_table "unkeyed")
              (primary None) eq_refl) as (_ & Hp & _ & _ & Hall).
  split; [exact (Hp eq_refl) |].
  intros log c'.
  apply (Hall empty_catalog create_unkeyed
              [normal "a" INT 0; primary None]); try reflexivity.
  right. now left.
Defined.

(** [create_items]: three normal columns around a marker get offsets 0, 1
    and 2. *)
Lemma items_have_dense_offsets :
  exists db' t,
    Catalog_GetDatabase
      (catalog_of (Execute empty_catalog create_items)) DEFAULT_DB_NAME
      = Some db'
    /\ Database_GetTable db' "items" = Some t
    /\ map column_name (table_columns t) = ["code"; "label"; "qty"]
    /\ map column_offset (table_columns t) = [0; 1; 2].
Proof.
  assert (E : Execute empty_catalog create_items
              = Returned true (CreatedTable "items")
                  (catalog_of (Execute empty_catalog create_items)))
    by reflexivity.
  apply (@created_table_has_dense_offsets headers
           empty_catalog create_items "items"
           [normal "code" CHAR 0; normal "label" VARCHAR 32;
            primary (Some ["code"]); normal "qty" INT 0]
           (CreatedTable "items")
           (catalog_of (Execute empty_catalog create_items))
           eq_refl eq_refl eq_refl);
    [| exact E].
  vm_compute. discriminate.
Defined.



(** Scenario D succeeds, and the index it registers has no physical
    index. *)
Lemma idx_id_has_null_physical_index :
  exists db' name table_name t i,
    CreateStatement.name create_idx_id = Some name
    /\ CreateStatement.table_name create_idx_id = Some table_name
    /\ Catalog_GetDatabase
         (catalog_of (Execute orders_catalog create_idx_id)) DEFAULT_DB_NAME
       = Some db'
    /\ Database_GetTable db' table_name = Some t
    /\ Table_GetIndex t name = Some i
    /\ index_physical i = None.
Proof.
  apply (@created_index_has_null_physical_index headers
           orders_catalog create_idx_id (CreatedIndex "idx_id")
           (catalog_of (Execute orders_catalog create_idx_id)));
    reflexivity.
Defined.

(** An absent attribute list is rejected. *)
Lemma absent_attribute_list_is_rejected :
  exists log,
    Execute orders_catalog create_idx_absent
    = Returned false log orders_catalog
    /\ (log = NoIndexAttributesDefined "idx_id"
        \/ (log = TableDoesNotExist "orders"
            /\ Database_GetTable orders_database "orders" = None)).
Proof.
  apply (@create_index_without_attribute_list_is_rejected headers
           orders_catalog orders_database create_idx_absent
           "idx_id" "orders");
    reflexivity.
Defined.

(** C6 as stated fails: with a key-attribute list that is present and empty
    the call returns true, and the index set of the target table grows by an
    index without key columns. *)
Lemma empty_attribute_list_is_accepted :
  CreateStatement.index_attrs create_idx_empty = Some []
  /\ (exists t,
        Database_GetTable orders_database "orders" = Some t
        /\ map index_name (table_indexes t) = ["INDEX_0"])
  /\ exists c' db' t,
       Execute orders_catalog create_idx_empty
       = Returned true (CreatedIndex "idx_id") c'
       /\ Catalog_GetDatabase c' DEFAULT_DB_NAME = Some db'
       /\ Database_GetTable db' "orders" = Some t
       /\ map index_name (table_indexes t) = ["INDEX_0"; "idx_id"]
       /\ map index_columns (table_indexes t)
          = [[Table_GetColumn t "id"]; []].
Proof.
  split; [reflexivity |]. split.
  - eexists. split; reflexivity.
  - do 3 eexists. repeat split; reflexivity.
Defined.

End Scenarios.

(* ================================================================== *)
(** ** Lookups by name *)
(* ================================================================== *)

Section Names.

Variable A : Type.
Variable f : A -> string.

Lemma lookup_name_None (l : list A) (n : string) :
  lookup (fun x => String.eqb (f x) n) l = None <-> ~ In n (map f l).
Proof.
  unfold lookup. induction l as [|y l IH]; simpl.
  - tauto.
  - destruct (String.eqb_spec (f y) n) as [E | E].
    + split; [discriminate | intros Hn; exfalso; apply Hn; now left].
    + rewrite IH. tauto.
Qed.

Lemma lookup_name_In (l : list A) (n : string) (x : A) :
  lookup (fun x => String.eqb (f x) n) l = Some x -> In n (map f l).
Proof.
  intros E. destruct (in_dec string_dec n (map f l)) as [Hin | Hn];
    [assumption |].
  apply lookup_name_None in Hn. congruence.
Qed.

(** Writing an object back under its own name leaves the names as they
    are. *)
Lemma write_back_names (l : list A) (x : A) :
  map f (write_back (fun y => String.eqb (f y) (f x)) x l) = map f l.
Proof.
  induction l as [|y l IH]; simpl; [reflexivity |].
  destruct (String.eqb_spec (f y) (f x)) as [E | E]; simpl.
  - now rewrite E.
  - now rewrite IH.
Qed.

Lemma write_back_Forall (P : A -> Prop) (p : A -> bool) (l : list A) (x : A) :
  Forall P l -> P x -> Forall P (write_back p x l).
Proof.
  intros Hl Hx. induction Hl as [|y l Hy Hl IH]; simpl; [constructor |].
  destruct (p y); constructor; assumption.
Qed.

(** Writing an object back does not disturb the lookup of another name. *)
Lemma lookup_write_back_other (l : list A) (x : A) (n : string) :
  n <> f x ->
  lookup (fun y => String.eqb (f y) n)
         (write_back (fun y => String.eqb (f y) (f x)) x l)
  = lookup (fun y => String.eqb (f y) n) l.
Proof.
  intros Hn. unfold lookup. induction l as [|y l IH]; simpl; [reflexivity |].
  destruct (String.eqb_spec (f y) (f x)) as [E | E]; simpl.
  - destruct (String.eqb_spec (f x) n) as [E1 | E1]; [congruence |].
    destruct (String.eqb_spec (f y) n) as [E2 | E2]; [congruence |].
    reflexivity.
  - now rewrite IH.
Qed.

Lemma NoDup_snoc (B : Type) (l : list B) (a : B) :
  NoDup l -> ~ In a l -> NoDup (l ++ [a]).
Proof.
  intros Hl Ha. induction Hl as [|b l Hb Hl IH]; simpl.
  - constructor; [intros [] | constructor].
  - constructor.
    + rewrite in_app_iff. simpl. intros [Hin | [E | []]]; [auto |].
      apply Ha. now left.
    + apply IH. intros Hin. apply Ha. now right.
Qed.

End Names.

(* ================================================================== *)
(** ** Calls that return true, in full *)
(* ================================================================== *)

Section Shapes.

Context `{Headers}.

(** A CREATE TABLE call that returns true: the catalog it returns. *)
Lemma ExecuteTable_true_catalog c db stmt name log c' :
  ExecuteTable c db stmt name = Returned true log c' ->
  exists cols declared b,
    CreateStatement.columns stmt = Some cols
    /\ validate db [] cols = Next declared
    /\ create_columns db (new_table name) cols = Next b
    /\ Database_GetTable db name = None
    /\ log = CreatedTable name
    /\ c' = Catalog_PutDatabase c
              (mkDatabase (database_name db)
                          (database_tables db ++ [built_table b])).
Proof.
  unfold ExecuteTable, Lock, Unlock.
  destruct (CreateStatement.columns stmt) as [cols|]; simpl; [| discriminate].
  destruct (validate db [] cols) as [declared| | |] eqn:Ev; simpl;
    try discriminate.
  intros E.
  assert (E' : with_catalog c (create_columns db (new_table name) cols)
                 (fun b =>
                    let (status, db') :=
                      Database_AddTable db (built_table b) in
                    if status
                    then Returned true (CreatedTable name)
                                  (Catalog_PutDatabase c db')
                    else Returned false (CouldNotCreateTable name)
                                  (Catalog_PutDatabase c db'))
               = Returned true log c').
  { destruct (Database_GetTable db name);
      destruct (CreateStatement.if_not_exists stmt);
      try discriminate; exact E. }
  clear E.
  destruct (create_columns db (new_table name) cols) as [b| | |] eqn:Ec;
    simpl in E'; try discriminate.
  pose proof (create_columns_Next _ _ _ Ec) as (_ & _ & Ename & _).
  simpl in Ename.
  unfold Database_AddTable in E'.
  assert (En : table_name (built_table b) = name) by exact Ename.
  rewrite En in E'.
  destruct (Database_GetTable db name) eqn:Eg; [discriminate |].
  injection E' as <- <-.
  exists cols, declared, b. repeat split; solve [reflexivity | assumption].
Qed.

(** A CREATE INDEX call that returns true: the table it leaves. *)
Lemma ExecuteIndex_true_table c db stmt name log c' :
  ExecuteIndex c db stmt name = Returned true log c' ->
  exists target table index_attrs keys physical,
    CreateStatement.table_name stmt = Some target
    /\ Database_GetTable db target = Some table
    /\ CreateStatement.index_attrs stmt = Some index_attrs
    /\ resolve_keys table target index_attrs [] [] = Next keys
    /\ table_physical table = Some physical
    /\ Table_GetIndex table name = None
    /\ log = CreatedIndex name
    /\ c' = Catalog_PutDatabase c
              (Database_PutTable db
                 (mkTable (table_name table) (table_columns table)
                    (table_constraints table)
                    (table_indexes table ++
                     [mkIndex name INDEX_TYPE_BTREE_MULTIMAP
                              (CreateStatement.unique stmt)
                              (map Some (snd keys)) None])
                    (table_physical table))).
Proof.
  unfold ExecuteIndex, Lock, Unlock.
  destruct (CreateStatement.table_name stmt) as [tn|]; simpl; [| discriminate].
  destruct (Database_GetTable db tn) as [table|] eqn:Et; [| discriminate].
  destruct (CreateStatement.index_attrs stmt) as [attrs|]; [| discriminate].
  destruct (resolve_keys table tn attrs [] []) as [keys| | |] eqn:Ek; simpl;
    try discriminate.
  destruct (table_physical table) as [physical|] eqn:Ep; simpl;
    [| discriminate].
  unfold Table_AddIndex. simpl.
  destruct (Table_GetIndex table name) eqn:Ei; [discriminate |].
  intros [= <- <-].
  exists tn, table, attrs, keys, physical.
  repeat split; try solve [reflexivity | assumption].
  do 2 f_equal.
  unfold Table_SetPhysicalIndexOf, Table_GetIndex in *. simpl.
  rewrite (lookup_snoc _ _ _ Ei). simpl. rewrite String.eqb_refl.
  f_equal. simpl.
  assert (G : forall l,
             lookup (fun i => String.eqb (index_name i) name) l = None ->
             write_back (fun j => String.eqb (index_name j) name)
               (Index_SetPhysicalIndex
                  (mkIndex name INDEX_TYPE_BTREE_MULTIMAP
                     (CreateStatement.unique stmt) (map Some (snd keys)) None)
                  None)
               (l ++ [mkIndex name INDEX_TYPE_BTREE_MULTIMAP
                        (CreateStatement.unique stmt)
                        (map Some (snd keys)) None])
             = l ++ [mkIndex name INDEX_TYPE_BTREE_MULTIMAP
                       (CreateStatement.unique stmt)
                       (map Some (snd keys)) None]).
  { unfold lookup. induction l as [|y l IH]; simpl.
    - now rewrite String.eqb_refl.
    - destruct (String.eqb (index_name y) name); [discriminate |].
      intros E. now rewrite IH. }
  now apply G.
Qed.

End Shapes.

(* ================================================================== *)
(** ** The catalog across a call *)
(* ================================================================== *)

Section Catalogs.

Context `{Headers}.

Lemma ExecuteDatabase_true c name log c' :
  ExecuteDatabase c name = Returned true log c' ->
  Catalog_GetDatabase c name = None
  /\ log = CreatedDatabase name
  /\ c' = mkCatalog (catalog_databases c ++ [mkDatabase name []]).
Proof.
  unfold ExecuteDatabase, Lock, Unlock, Catalog_AddDatabase. simpl.
  destruct (Catalog_GetDatabase c name); [discriminate |].
  intros [= <- <-]. auto.
Qed.

(** Where a call writes: the catalog after a call that returns true is the
    old one with a database appended, or with the default database written
    back. *)
Lemma Execute_true_catalog c stmt log c' :
  Execute c stmt = Returned true log c' ->
  (exists name,
     Catalog_GetDatabase c name = None
     /\ c' = mkCatalog (catalog_databases c ++ [mkDatabase name []]))
  \/ (exists db db',
        Catalog_GetDatabase c DEFAULT_DB_NAME = Some db
        /\ database_name db' = DEFAULT_DB_NAME
        /\ c' = Catalog_PutDatabase c db').
Proof.
  intros E. pose proof (Execute_returned _ _ E) as (db & name & Edb & En).
  pose proof (Catalog_GetDatabase_name _ _ Edb) as Edn.
  unfold Execute in E. rewrite Edb, En in E. simpl in E.
  destruct (CreateStatement.type stmt).
  - right. apply ExecuteTable_true_catalog in E
      as (cols & declared & b & _ & _ & _ & _ & _ & ->).
    exists db. eexists.
    split; [assumption |]. split; [| reflexivity]. exact Edn.
  - left. apply ExecuteDatabase_true in E as (Eg & _ & ->). eauto.
  - right. apply ExecuteIndex_true_table in E
      as (tn & t & attrs & keys & ph & _ & _ & _ & _ & _ & _ & _ & ->).
    exists db. eexists.
    split; [assumption |]. split; [| reflexivity]. exact Edn.
  - discriminate.
Qed.

(** X1.  Failure leaves no trace, whatever the statement: a call of
    [Execute] that returns false, on a CREATE TABLE, CREATE DATABASE or
    CREATE INDEX statement or on one of an unknown kind, returns the catalog
    it was given. *)
Theorem failed_call_leaves_catalog_unchanged c stmt log c' :
  Execute c stmt = Returned false log c' -> c' = c.
Proof. apply Execute_false. Qed.

(** X2.  A call that returns keeps the databases: the default database is
    still there, so the next call passes [assert(db)], and every database
    other than the default one is found as it was. *)
Theorem returning_call_keeps_databases c stmt status log c' :
  Execute c stmt = Returned status log c' ->
  (exists db', Catalog_GetDatabase c' DEFAULT_DB_NAME = Some db')
  /\ (forall name db,
        name <> DEFAULT_DB_NAME ->
        Catalog_GetDatabase c name = Some db ->
        Catalog_GetDatabase c' name = Some db).
Proof.
  intros E. pose proof (Execute_returned _ _ E) as (db0 & _ & Edb & _).
  destruct status.
  - apply Execute_true_catalog in E
      as [(name & Eg & ->) | (db & db' & Edb1 & En & ->)].
    + split.
      * exists db0. unfold Catalog_GetDatabase in *. simpl.
        now apply lookup_snoc_found.
      * intros n db _ En. unfold Catalog_GetDatabase in *. simpl.
        now apply lookup_snoc_found.
    + split.
      * exists db'. now apply Catalog_PutDatabase_get with db.
      * intros n d Hn Ed. unfold Catalog_GetDatabase, Catalog_PutDatabase in *.
        simpl. rewrite (lookup_write_back_other database_name); [assumption |].
        now rewrite En.
  - apply Execute_false in E as ->. eauto.
Qed.

(** X3.  CREATE DATABASE, with the default database in place and the
    statement named: a name the catalog does not hold is registered, the new
    database is empty, comes last and is found under its name; a name the
    catalog holds is turned away with "Database already exists" and the
    catalog stays as it was.  The refusal of line 301 is never the answer of
    a call. *)
Theorem create_database_registers_new_names c db0 stmt name :
  Catalog_GetDatabase c DEFAULT_DB_NAME = Some db0 ->
  CreateStatement.type stmt = CreateStatement.kDatabase ->
  CreateStatement.name stmt = Some name ->
  (Catalog_GetDatabase c name = None ->
     exists c',
       Execute c stmt = Returned true (CreatedDatabase name) c'
       /\ catalog_databases c' = catalog_databases c ++ [mkDatabase name []]
       /\ Catalog_GetDatabase c' name = Some (mkDatabase name []))
  /\ (forall d, Catalog_GetDatabase c name = Some d ->
        Execute c stmt = Returned false (DatabaseAlreadyExists name) c)
  /\ (forall c', Execute c stmt <> Returned false (CouldNotCreateDatabase name) c').
Proof.
  intros Edb Ety En. unfold Execute. rewrite Edb, En, Ety. simpl.
  unfold ExecuteDatabase, Lock, Unlock, Catalog_AddDatabase. simpl.
  destruct (Catalog_GetDatabase c name) as [d|] eqn:Eg.
  - split; [discriminate |]. split; [reflexivity | discriminate].
  - split; [| split; [discriminate | discriminate]].
    intros _. eexists. split; [reflexivity |]. split; [reflexivity |].
    unfold Catalog_GetDatabase in *. simpl.
    rewrite (lookup_snoc _ _ _ Eg). simpl. now rewrite String.eqb_refl.
Qed.

(** X4.  CREATE DATABASE twice: when the first call returns true, the same
    statement run on the catalog it left returns false with "Database
    already exists", and leaves that catalog as it is. *)
Theorem second_create_database_is_rejected c stmt name log c' :
  CreateStatement.type stmt = CreateStatement.kDatabase ->
  CreateStatement.name stmt = Some name ->
  Execute c stmt = Returned true log c' ->
  Execute c' stmt = Returned false (DatabaseAlreadyExists name) c'.
Proof. apply create_database_twice. Qed.

End Catalogs.

(* ================================================================== *)
(** ** CREATE TABLE: what is rejected, what is added *)
(* ================================================================== *)

Section Tables.

Context `{Headers}.

(** The first loop keeps the collected names free of duplicates. *)
Lemma validate_NoDup db cols : forall declared declared',
  validate db declared cols = Next declared' ->
  NoDup declared -> NoDup declared'.
Proof.
  induction cols as [|col cols IH]; intros declared declared' E Hd;
    simpl in E.
  - now injection E as <-.
  - destruct (validate_column db declared col) as [d1| | |] eqn:E1;
      simpl in E; try discriminate.
    apply (IH _ _ E). clear E IH.
    unfold validate_column, if_present in E1.
    destruct (ColumnDefinition.type col).
    + destruct (match ColumnDefinition.primary_key col with
                | Some a => validate_keys PrimaryKeyColumnNotInTable declared a
                | None => Next tt end); simpl in E1; try discriminate.
      now injection E1 as <-.
    + destruct (match ColumnDefinition.foreign_key_source col with
                | Some a =>
                    validate_keys ForeignKeySourceColumnNotInTable declared a
                | None => Next tt end); simpl in E1; try discriminate.
      destruct (match ColumnDefinition.foreign_key_sink col with
                | Some a => validate_sink db (ColumnDefinition.name col) a
                | None => Next tt end); simpl in E1; try discriminate.
      now injection E1 as <-.
    + destruct (ColumnDefinition.name col) as [n|]; simpl in E1;
        try discriminate.
      destruct (std_find declared n) eqn:Ef; [discriminate |].
      injection E1 as <-. apply NoDup_snoc; [assumption |].
      now apply std_find_not_In.
    + destruct (ColumnDefinition.name col) as [n|]; simpl in E1;
        try discriminate.
      destruct (std_find declared n) eqn:Ef; [discriminate |].
      injection E1 as <-. apply NoDup_snoc; [assumption |].
      now apply std_find_not_In.
Qed.

(** X5.  Duplicate column names are rejected: a normal column whose name a
    normal column before it in the list already carries makes [Execute]
    return false with the catalog unchanged, before any table is built; when
    the definitions before it pass the first loop the message is "Duplicate
    column name".  (The fields the first loop asserts or reads are present
    in the definitions before the column.) *)
Theorem duplicate_column_name_is_rejected
    c db stmt table pre col post name :
  Catalog_GetDatabase c DEFAULT_DB_NAME = Some db ->
  CreateStatement.type stmt = CreateStatement.kTable ->
  CreateStatement.name stmt = Some table ->
  CreateStatement.columns stmt = Some (pre ++ col :: post) ->
  forallb has_required_fields pre = true ->
  is_normal col = true ->
  ColumnDefinition.name col = Some name ->
  In name (normal_names pre) ->
  exists log,
    Execute c stmt = Returned false log c
    /\ logged_before_new_table log = true
    /\ (forall declared, validate db [] pre = Next declared ->
          log = DuplicateColumnName name).
Proof.
  intros Edb Ety En Ecols Hreq Hnormal Hname Hin.
  destruct (validate_returns db pre [] Hreq) as [(declared & E) | (m & Hm & E)].
  - exists (DuplicateColumnName name).
    split; [| split; [reflexivity | reflexivity]].
    apply Execute_table_invalid with (db := db) (name := table)
                                     (cols := pre ++ col :: post);
      try assumption.
    rewrite validate_app, E. simpl.
    pose proof (validate_names _ _ _ E) as Ed. simpl in Ed. subst declared.
    unfold validate_column. unfold is_normal in Hnormal.
    apply std_find_In in Hin.
    destruct (ColumnDefinition.type col); try discriminate;
      rewrite Hname; simpl; now rewrite Hin.
  - exists m. split; [| split; [assumption | intros d Ed; congruence]].
    apply Execute_table_invalid with (db := db) (name := table)
                                     (cols := pre ++ col :: post);
      try assumption.
    rewrite validate_app, E. reflexivity.
Qed.

(** X6.  A FOREIGN marker may not run ahead of its source columns: a marker
    naming a source column that no normal column before it declares makes
    [Execute] return false with the catalog unchanged, whatever sink it
    names and whatever the list declares after it. *)
Theorem foreign_source_forward_reference_is_rejected
    c db stmt table pre col post source key :
  Catalog_GetDatabase c DEFAULT_DB_NAME = Some db ->
  CreateStatement.type stmt = CreateStatement.kTable ->
  CreateStatement.name stmt = Some table ->
  CreateStatement.columns stmt = Some (pre ++ col :: post) ->
  forallb has_required_fields pre = true ->
  ColumnDefinition.type col = FOREIGN ->
  ColumnDefinition.foreign_key_source col = Some source ->
  In key source ->
  ~ In key (normal_names pre) ->
  exists log,
    logged_before_new_table log = true
    /\ Execute c stmt = Returned false log c.
Proof.
  intros Edb Ety En Ecols Hreq Hty Hsrc Hin Hnot.
  destruct (validate_rejects db pre col post Hreq) as (m & Hm & E).
  - intros declared Ev. apply validate_names in Ev. simpl in Ev. subst declared.
    unfold validate_column, if_present. rewrite Hty, Hsrc.
    destruct (validate_keys_returns ForeignKeySourceColumnNotInTable
                (normal_names pre) source) as [E | (k & _ & _ & E)].
    + exfalso. apply Hnot.
      now apply (proj1 (validate_keys_Next _ _ _) E).
    + rewrite E. simpl. eexists. split; [| reflexivity]. reflexivity.
  - exists m. split; [assumption |].
    now apply Execute_table_invalid with (db := db) (name := table)
                                         (cols := pre ++ col :: post).
Qed.

(** X7.  What a successful CREATE TABLE adds: no table of the statement's
    name existed before, with or without the existence guard; the default
    database keeps its name and its tables and gains exactly one table, the
    last, which carries the statement's name; every table found before is
    found as it was. *)
Theorem created_table_is_appended c db stmt name log c' :
  Catalog_GetDatabase c DEFAULT_DB_NAME = Some db ->
  CreateStatement.type stmt = CreateStatement.kTable ->
  CreateStatement.name stmt = Some name ->
  Execute c stmt = Returned true log c' ->
  Database_GetTable db name = None
  /\ log = CreatedTable name
  /\ exists db' t,
       Catalog_GetDatabase c' DEFAULT_DB_NAME = Some db'
       /\ database_name db' = database_name db
       /\ database_tables db' = database_tables db ++ [t]
       /\ table_name t = name
       /\ Database_GetTable db' name = Some t
       /\ (forall other u, Database_GetTable db other = Some u ->
             Database_GetTable db' other = Some u).
Proof.
  intros Edb Ety En E. rewrite (Execute_table _ _ Edb En Ety) in E.
  apply ExecuteTable_true_catalog in E
    as (cols & declared & b & _ & _ & Ec & Eg & -> & ->).
  apply create_columns_Next in Ec as (_ & _ & Ename & _). simpl in Ename.
  split; [assumption |]. split; [reflexivity |].
  exists (mkDatabase (database_name db)
                     (database_tables db ++ [built_table b])),
    (built_table b).
  split.
  { eapply Catalog_PutDatabase_get; [eassumption |].
    simpl. eapply Catalog_GetDatabase_name; eassumption. }
  repeat split; try assumption.
  - unfold Database_GetTable in *. simpl. rewrite (lookup_snoc _ _ _ Eg).
    replace (table_name (built_table b)) with name by (symmetry; exact Ename).
    now rewrite String.eqb_refl.
  - intros other u Eu. unfold Database_GetTable in *. simpl.
    now apply lookup_snoc_found.
Qed.

(** X8.  Column names of an accepted statement are pairwise distinct: when
    [Execute] returns true on a CREATE TABLE statement, no two normal
    columns of the statement share a name, and the columns of the table it
    registers carry exactly these names, in the order of the statement, so
    no two of them share one either. *)
Theorem created_table_has_distinct_column_names c stmt name cols log c' :
  CreateStatement.type stmt = CreateStatement.kTable ->
  CreateStatement.name stmt = Some name ->
  CreateStatement.columns stmt = Some cols ->
  Execute c stmt = Returned true log c' ->
  NoDup (normal_names cols)
  /\ exists db' t,
       Catalog_GetDatabase c' DEFAULT_DB_NAME = Some db'
       /\ Database_GetTable db' name = Some t
       /\ map column_name (table_columns t) = normal_names cols
       /\ NoDup (map column_name (table_columns t)).
Proof.
  intros Ety En Ecols E.
  pose proof (Execute_returned _ _ E) as (db & name' & Edb & En').
  rewrite En in En'. injection En' as <-.
  rewrite (Execute_table _ _ Edb En Ety) in E.
  destruct (ExecuteTable_true _ _ _ Edb E)
    as (cols' & declared & b & db' & Ec & Ev & Ecreate & _ & _ & Edb' & Et).
  rewrite Ecols in Ec. injection Ec as <-.
  assert (Hnd : NoDup (normal_names cols)).
  { pose proof (validate_names _ _ _ Ev) as Ed. simpl in Ed. subst declared.
    apply (validate_NoDup _ _ Ev). constructor. }
  split; [assumption |].
  apply create_columns_Next in Ecreate as (Ecolumns & _ & _ & _).
  simpl in Ecolumns.
  assert (Enames : map column_name (table_columns (built_table b))
                   = normal_names cols).
  { unfold built_table. simpl. now rewrite Ecolumns, columns_from_names. }
  exists db', (built_table b). repeat split; try assumption.
  now rewrite Enames.
Qed.

End Tables.

(* ================================================================== *)
(** ** CREATE TABLE: columns and schema of the new table *)
(* ================================================================== *)

Section Schemas.

Context `{Headers}.

(** Column by column, the schema entries say what the columns say. *)
Lemma infos_mirror_columns cols : forall offset,
  map info_name (infos_of cols) = map column_name (columns_from offset cols)
  /\ map info_type (infos_of cols)
     = map column_type (columns_from offset cols)
  /\ map info_length (infos_of cols)
     = map column_size (columns_from offset cols)
  /\ map info_allow_null (infos_of cols)
     = map (fun c => negb (column_not_null c)) (columns_from offset cols).
Proof.
  induction cols as [|col cols IH]; intros offset; [simpl; auto |].
  unfold infos_of in *. simpl.
  destruct (is_normal col); [| apply IH].
  destruct (ColumnDefinition.name col) as [name|]; [| apply IH].
  simpl. destruct (IH (oid_succ offset)) as (E1 & E2 & E3 & E4).
  now rewrite E1, E2, E3, E4.
Qed.

(** Column by column, the columns say what the statement declares. *)
Lemma columns_from_declared cols : forall offset,
  forallb (fun col => negb (is_normal col)
                      || match ColumnDefinition.name col with
                         | Some _ => true
                         | None => false
                         end) cols = true ->
  map column_type (columns_from offset cols)
  = map (fun col => GetValueType (ColumnDefinition.type col))
        (filter is_normal cols)
  /\ map column_not_null (columns_from offset cols)
     = map ColumnDefinition.not_null (filter is_normal cols)
  /\ map info_is_varlen (infos_of cols)
     = map (fun col => negb (ColumnDefinition.varlen col =? 0))
           (filter is_normal cols).
Proof.
  induction cols as [|col cols IH]; intros offset; [simpl; auto |].
  unfold infos_of in *. simpl. intros Hall.
  apply andb_true_iff in Hall as [Hcol Hall].
  destruct (is_normal col); [| now apply IH].
  destruct (ColumnDefinition.name col) as [name|]; [| discriminate].
  simpl. destruct (IH (oid_succ offset) Hall) as (E1 & E2 & E3).
  now rewrite E1, E2, E3.
Qed.

(** X9.  The schema mirrors the columns: after a successful CREATE TABLE the
    table registered under the statement's name has a physical table, built
    for the default database identifier, whose schema has one entry per
    column of the table, in order, with the column's name, value type and
    width, and with nulls allowed exactly where the column is not declared
    NOT NULL. *)
Theorem created_schema_mirrors_columns c stmt name log c' :
  CreateStatement.type stmt = CreateStatement.kTable ->
  CreateStatement.name stmt = Some name ->
  Execute c stmt = Returned true log c' ->
  exists db' t physical,
    Catalog_GetDatabase c' DEFAULT_DB_NAME = Some db'
    /\ Database_GetTable db' name = Some t
    /\ table_physical t = Some physical
    /\ physical_database physical = DEFAULT_DB_ID
    /\ map info_name (physical_schema physical)
       = map column_name (table_columns t)
    /\ map info_type (physical_schema physical)
       = map column_type (table_columns t)
    /\ map info_length (physical_schema physical)
       = map column_size (table_columns t)
    /\ map info_allow_null (physical_schema physical)
       = map (fun column => negb (column_not_null column)) (table_columns t).
Proof.
  intros Ety En E.
  pose proof (Execute_returned _ _ E) as (db & name' & Edb & En').
  rewrite En in En'. injection En' as <-.
  rewrite (Execute_table _ _ Edb En Ety) in E.
  destruct (ExecuteTable_true _ _ _ Edb E)
    as (cols & _ & b & db' & _ & _ & Ecreate & _ & _ & Edb' & Et).
  apply create_columns_Next in Ecreate as (Ecolumns & Einfos & _ & _).
  simpl in Ecolumns, Einfos.
  exists db', (built_table b),
    (mkPhysicalTable DEFAULT_DB_ID (physical_columns b)).
  destruct (infos_mirror_columns cols 0) as (E1 & E2 & E3 & E4).
  split; [exact Edb' |]. split; [exact Et |].
  unfold built_table. simpl. rewrite Ecolumns, Einfos.
  repeat split; solve [assumption | reflexivity].
Qed.

(** X10.  What a column of the new table carries: after a successful CREATE
    TABLE the columns of the registered table have, in the order of the
    normal columns of the statement, the value type [GetValueType] gives the
    declared kind, the declared NOT NULL flag, and a width decided by the
    value type first: the declared variable length for VARCHAR and
    VARBINARY, whatever the kind, otherwise 1 for CHAR and [GetTypeSize] of
    the value type for the rest.  The schema marks an entry as variable
    length exactly when the declared variable length is not zero. *)
Theorem created_columns_carry_their_declaration c stmt name cols log c' :
  CreateStatement.type stmt = CreateStatement.kTable ->
  CreateStatement.name stmt = Some name ->
  CreateStatement.columns stmt = Some cols ->
  Execute c stmt = Returned true log c' ->
  exists db' t physical,
    Catalog_GetDatabase c' DEFAULT_DB_NAME = Some db'
    /\ Database_GetTable db' name = Some t
    /\ table_physical t = Some physical
    /\ map column_type (table_columns t)
       = map (fun col => GetValueType (ColumnDefinition.type col))
             (filter is_normal cols)
    /\ map column_not_null (table_columns t)
       = map ColumnDefinition.not_null (filter is_normal cols)
    /\ map column_size (table_columns t)
       = map width_by_precedence (filter is_normal cols)
    /\ map info_is_varlen (physical_schema physical)
       = map (fun col => negb (ColumnDefinition.varlen col =? 0))
             (filter is_normal cols).
Proof.
  intros Ety En Ecols E.
  pose proof (Execute_returned _ _ E) as (db & name' & Edb & En').
  rewrite En in En'. injection En' as <-.
  rewrite (Execute_table _ _ Edb En Ety) in E.
  destruct (ExecuteTable_true _ _ _ Edb E)
    as (cols' & _ & b & db' & Ec & _ & Ecreate & _ & _ & Edb' & Et).
  rewrite Ecols in Ec. injection Ec as <-.
  apply create_columns_Next in Ecreate as (Ecolumns & Einfos & _ & Hnamed).
  simpl in Ecolumns, Einfos.
  exists db', (built_table b),
    (mkPhysicalTable DEFAULT_DB_ID (physical_columns b)).
  destruct (columns_from_declared cols 0 Hnamed) as (E1 & E2 & E3).
  split; [exact Edb' |]. split; [exact Et |].
  unfold built_table. simpl. rewrite Ecolumns, Einfos.
  repeat split; try assumption; try reflexivity.
  rewrite (columns_from_sizes cols 0 Hnamed).
  apply map_ext. intros col. apply column_length_cases.
Qed.

End Schemas.

(* ================================================================== *)
(** ** CREATE TABLE: constraints and indexes of the new table *)
(* ================================================================== *)

Section Constraints.

Context `{Headers}.

(** The three bodies of the second loop, by what they leave of the table's
    constraints and indexes. *)
Lemma create_primary_table b col b' :
  create_primary b col = Next b' ->
  exists keys constraint_name index_name,
    ColumnDefinition.primary_key col = Some keys
    /\ table_constraints (table b') =
       table_constraints (table b) ++
       [mkConstraint constraint_name CONSTRAINT_TYPE_PRIMARY (Some index_name)
          None (map (Table_GetColumn (table b)) keys) []]
    /\ table_indexes (table b') =
       table_indexes (table b) ++
       [mkIndex index_name INDEX_TYPE_BTREE_MULTIMAP
          (ColumnDefinition.unique col)
          (map (Table_GetColumn (table b)) keys) None]
    /\ table_physical (table b') = table_physical (table b).
Proof.
  unfold create_primary.
  destruct (ColumnDefinition.primary_key col) as [keys|]; simpl;
    [| discriminate].
  unfold Table_AddConstraint.
  destruct (Table_GetConstraint (table b) _); [discriminate |].
  unfold Table_AddIndex.
  destruct (Table_GetIndex _ _); [discriminate |].
  intros [= <-]. simpl. eauto 10.
Qed.

Lemma sink_columns_of_Next foreign_table keys sink_columns :
  sink_columns_of foreign_table keys = Next sink_columns ->
  keys = [] /\ sink_columns = []
  \/ exists t, foreign_table = Some t
               /\ sink_columns = map (Table_GetColumn t) keys.
Proof.
  destruct foreign_table as [t|].
  - intros E. right. exists t. split; [reflexivity |].
    revert sink_columns E.
    induction keys as [|key keys IH]; simpl; intros sc E.
    + now injection E as <-.
    + destruct (sink_columns_of (Some t) keys) as [rest| | |]; simpl in E;
        try discriminate.
      injection E as <-. now rewrite (IH rest eq_refl).
  - destruct keys; simpl; [| discriminate].
    intros [= <-]. now left.
Qed.

Lemma create_foreign_table db b col b' :
  create_foreign db b col = Next b' ->
  exists name source sink sink_columns constraint_name,
    ColumnDefinition.name col = Some name
    /\ ColumnDefinition.foreign_key_source col = Some source
    /\ ColumnDefinition.foreign_key_sink col = Some sink
    /\ sink_columns_of (Database_GetTable db name) sink = Next sink_columns
    /\ table_constraints (table b') =
       table_constraints (table b) ++
       [mkConstraint constraint_name CONSTRAINT_TYPE_FOREIGN None
          (option_map table_name (Database_GetTable db name))
          (map (Table_GetColumn (table b)) source) sink_columns]
    /\ table_indexes (table b') = table_indexes (table b)
    /\ table_physical (table b') = table_physical (table b).
Proof.
  unfold create_foreign.
  destruct (ColumnDefinition.name col) as [name|]; simpl; [| discriminate].
  destruct (ColumnDefinition.foreign_key_source col) as [source|]; simpl;
    [| discriminate].
  destruct (ColumnDefinition.foreign_key_sink col) as [sink|]; simpl;
    [| discriminate].
  destruct (sink_columns_of _ sink) as [sink_columns| | |] eqn:Es; simpl;
    try discriminate.
  unfold Table_AddConstraint.
  destruct (Table_GetConstraint (table b) _); [discriminate |].
  intros [= <-]. simpl. exists name, source, sink, sink_columns.
  eexists. repeat split; solve [reflexivity | assumption].
Qed.

Lemma create_normal_table b col b' :
  create_normal b col = Next b' ->
  table_constraints (table b') = table_constraints (table b)
  /\ table_indexes (table b') = table_indexes (table b)
  /\ table_physical (table b') = table_physical (table b).
Proof.
  unfold create_normal. destruct (ColumnDefinition.name col) as [name|];
    simpl; [| discriminate].
  unfold Table_AddColumn.
  destruct (Table_GetColumn (table b) _); [discriminate |].
  intros [= <-]. simpl. auto.
Qed.

(** One constraint per marker, one index per PRIMARY marker. *)
Lemma create_columns_markers db cols : forall b b',
  create_columns db b cols = Next b' ->
  map constraint_type (table_constraints (table b'))
  = map constraint_type (table_constraints (table b)) ++ marker_types cols
  /\ map index_unique (table_indexes (table b'))
     = map index_unique (table_indexes (table b)) ++ primary_flags cols
  /\ map index_physical (table_indexes (table b'))
     = map index_physical (table_indexes (table b))
       ++ map (fun _ => None) (primary_flags cols)
  /\ table_physical (table b') = table_physical (table b).
Proof.
  induction cols as [|col cols IH]; intros b b' E; simpl in E.
  - injection E as <-. simpl. now rewrite !app_nil_r.
  - destruct (create_column db b col) as [b1| | |] eqn:E1; simpl in E;
      try discriminate.
    apply IH in E as (Ec & Eu & Ep & Eph). rewrite Ec, Eu, Ep, Eph.
    unfold create_column in E1. unfold marker_types, primary_flags. simpl.
    destruct (ColumnDefinition.type col) eqn:Ety; simpl.
    + apply create_primary_table in E1
        as (keys & cn & ixn & _ & E1 & E2 & E3).
      rewrite E1, E2, E3, !map_app, <- !app_assoc. auto.
    + apply create_foreign_table in E1
        as (n & so & si & sc & cn & _ & _ & _ & _ & E1 & E2 & E3).
      rewrite E1, E2, E3, !map_app, <- !app_assoc. auto.
    + apply create_normal_table in E1 as (E1 & E2 & E3).
      rewrite E1, E2, E3. auto.
    + apply create_normal_table in E1 as (E1 & E2 & E3).
      rewrite E1, E2, E3. auto.
Qed.

(** X11.  Markers become constraints, in order: after a successful CREATE
    TABLE the registered table has one constraint per marker of the
    statement, PRIMARY for a PRIMARY marker and FOREIGN for a FOREIGN
    marker, in the order of the markers, and one index per PRIMARY marker,
    in order, with the marker's [unique] flag.  None of these indexes has a
    physical index: the second loop builds the logical index only. *)
Theorem created_table_has_one_constraint_per_marker
    c stmt name cols log c' :
  CreateStatement.type stmt = CreateStatement.kTable ->
  CreateStatement.name stmt = Some name ->
  CreateStatement.columns stmt = Some cols ->
  Execute c stmt = Returned true log c' ->
  exists db' t,
    Catalog_GetDatabase c' DEFAULT_DB_NAME = Some db'
    /\ Database_GetTable db' name = Some t
    /\ map constraint_type (table_constraints t) = marker_types cols
    /\ map index_unique (table_indexes t) = primary_flags cols
    /\ Forall (fun i => index_physical i = None) (table_indexes t).
Proof.
  intros Ety En Ecols E.
  pose proof (Execute_returned _ _ E) as (db & name' & Edb & En').
  rewrite En in En'. injection En' as <-.
  rewrite (Execute_table _ _ Edb En Ety) in E.
  destruct (ExecuteTable_true _ _ _ Edb E)
    as (cols' & _ & b & db' & Ec & _ & Ecreate & _ & _ & Edb' & Et).
  rewrite Ecols in Ec. injection Ec as <-.
  apply create_columns_markers in Ecreate as (E1 & E2 & E3 & _).
  simpl in E1, E2, E3.
  exists db', (built_table b).
  split; [exact Edb' |]. split; [exact Et |].
  unfold built_table. simpl. repeat split; try assumption.
  apply Forall_forall. intros i Hi.
  apply (in_map index_physical) in Hi. rewrite E3 in Hi.
  apply in_map_iff in Hi as (u & Eu & _). now symmetry.
Qed.

End Constraints.

(* ================================================================== *)
(** ** CREATE TABLE: the two loops in step *)
(* ================================================================== *)

Section InStep.

Context `{Headers}.

Lemma Table_GetColumn_declared t key :
  In key (map column_name (table_columns t)) ->
  is_resolved (Table_GetColumn t key) = true.
Proof.
  intros Hin. unfold Table_GetColumn.
  destruct (lookup _ (table_columns t)) eqn:E; [reflexivity |].
  apply (lookup_name_None column_name) in E. contradiction.
Qed.

Lemma columns_resolved t keys :
  (forall key, In key keys -> In key (map column_name (table_columns t))) ->
  forallb is_resolved (map (Table_GetColumn t) keys) = true.
Proof.
  intros Hall. apply forallb_forall. intros x Hx.
  apply in_map_iff in Hx as (key & <- & Hin).
  now apply Table_GetColumn_declared, Hall.
Qed.

(** The sink columns the second loop collects after the first loop has
    passed the sink list are all there. *)
Lemma sink_columns_resolved db name sink sink_columns :
  validate_sink db (Some name) sink = Next tt ->
  sink_columns_of (Database_GetTable db name) sink = Next sink_columns ->
  forallb is_resolved sink_columns = true.
Proof.
  intros Ev Es. destruct sink as [|key sink].
  - simpl in Es. now injection Es as <-.
  - destruct (proj1 (validate_sink_Next _ _ _ _) Ev) as (t & Et & Hall).
    rewrite Et in Es.
    apply sink_columns_of_Next in Es as [[E _] | (t' & Et' & ->)];
      [discriminate |].
    injection Et' as <-. apply forallb_forall. intros x Hx.
    apply in_map_iff in Hx as (k & <- & Hin).
    specialize (Hall k Hin). now destruct (Table_GetColumn t k).
Qed.

(** One definition through both loops: the table's column names follow the
    names the first loop collects, and no null column pointer goes into the
    table's indexes and constraints. *)
Lemma create_column_in_step db declared declared' b b' col :
  validate_column db declared col = Next declared' ->
  create_column db b col = Next b' ->
  map column_name (table_columns (table b)) = declared ->
  forallb index_is_resolved (table_indexes (table b)) = true ->
  forallb constraint_is_resolved (table_constraints (table b)) = true ->
  map column_name (table_columns (table b')) = declared'
  /\ forallb index_is_resolved (table_indexes (table b')) = true
  /\ forallb constraint_is_resolved (table_constraints (table b')) = true.
Proof.
  intros Ev Ec Hnames Hix Hcs.
  pose proof (validate_column_names _ _ _ Ev) as Ed.
  unfold normal_names, is_normal in Ed. simpl in Ed.
  unfold validate_column, if_present in Ev. unfold create_column in Ec.
  destruct (ColumnDefinition.type col) eqn:Ety.
  - pose proof (create_primary_Next _ _ Ec) as (Ecols & _).
    apply create_primary_table in Ec as (keys & cn & ixn & Ek & E1 & E2 & _).
    rewrite Ek in Ev.
    destruct (validate_keys PrimaryKeyColumnNotInTable declared keys)
      as [[]| | |] eqn:Evk; simpl in Ev; try discriminate.
    pose proof (proj1 (validate_keys_Next _ _ _) Evk) as Hk.
    rewrite <- Hnames in Hk.
    pose proof (columns_resolved _ _ Hk) as Hres.
    rewrite Ecols, E1, E2, !forallb_app, Hix, Hcs. simpl.
    unfold index_is_resolved, constraint_is_resolved. simpl.
    rewrite Hres. simpl in Ed. rewrite app_nil_r in Ed. subst. auto.
  - pose proof (create_foreign_Next _ _ _ Ec) as (Ecols & _).
    apply create_foreign_table in Ec
      as (n & so & si & sc & cn & En & Eso & Esi & Esc & E1 & E2 & _).
    rewrite Eso, Esi, En in Ev.
    destruct (validate_keys ForeignKeySourceColumnNotInTable declared so)
      as [[]| | |] eqn:Evk; simpl in Ev; try discriminate.
    destruct (validate_sink db (Some n) si) as [[]| | |] eqn:Evs;
      simpl in Ev; try discriminate.
    pose proof (proj1 (validate_keys_Next _ _ _) Evk) as Hk.
    rewrite <- Hnames in Hk.
    pose proof (columns_resolved _ _ Hk) as Hres.
    pose proof (sink_columns_resolved _ _ _ Evs Esc) as Hsink.
    rewrite Ecols, E1, E2, !forallb_app, Hix, Hcs. simpl.
    unfold constraint_is_resolved. simpl.
    rewrite Hres, Hsink. simpl in Ed. rewrite app_nil_r in Ed. subst. auto.
  - pose proof (create_normal_table _ _ Ec) as (E1 & E2 & _).
    apply create_normal_Next in Ec as (n & En & Ecols & _).
    rewrite En in Ed. rewrite Ecols, E1, E2, map_app, Hnames. simpl.
    subst declared'. auto.
  - pose proof (create_normal_table _ _ Ec) as (E1 & E2 & _).
    apply create_normal_Next in Ec as (n & En & Ecols & _).
    rewrite En in Ed. rewrite Ecols, E1, E2, map_app, Hnames. simpl.
    subst declared'. auto.
Qed.

Lemma create_columns_in_step db cols : forall declared declared' b b',
  validate db declared cols = Next declared' ->
  create_columns db b cols = Next b' ->
  map column_name (table_columns (table b)) = declared ->
  forallb index_is_resolved (table_indexes (table b)) = true ->
  forallb constraint_is_resolved (table_constraints (table b)) = true ->
  forallb index_is_resolved (table_indexes (table b')) = true
  /\ forallb constraint_is_resolved (table_constraints (table b')) = true.
Proof.
  induction cols as [|col cols IH]; intros declared declared' b b' Ev Ec;
    simpl in Ev, Ec.
  - injection Ec as <-. auto.
  - destruct (validate_column db declared col) as [d1| | |] eqn:Ev1;
      simpl in Ev; try discriminate.
    destruct (create_column db b col) as [b1| | |] eqn:Ec1;
      simpl in Ec; try discriminate.
    intros Hnames Hix Hcs.
    pose proof create_column_in_step as S.
    specialize S with (1 := Ev1) (2 := Ec1) (3 := Hnames) (4 := Hix)
                      (5 := Hcs).
    destruct S as (Hn1 & Hix1 & Hcs1).
    now apply (IH _ _ _ _ Ev Ec).
Qed.

(** X12.  No dangling key: after a successful CREATE TABLE, every column
    pointer held by an index of the registered table, and every source and
    sink column pointer held by one of its constraints, is a column that was
    found: the second loop stores no null pointer, because the first loop
    has seen every key it looks up. *)
Theorem created_table_holds_no_null_column
    c stmt name log c' :
  CreateStatement.type stmt = CreateStatement.kTable ->
  CreateStatement.name stmt = Some name ->
  Execute c stmt = Returned true log c' ->
  exists db' t,
    Catalog_GetDatabase c' DEFAULT_DB_NAME = Some db'
    /\ Database_GetTable db' name = Some t
    /\ forallb index_is_resolved (table_indexes t) = true
    /\ forallb constraint_is_resolved (table_constraints t) = true.
Proof.
  intros Ety En E.
  pose proof (Execute_returned _ _ E) as (db & name' & Edb & En').
  rewrite En in En'. injection En' as <-.
  rewrite (Execute_table _ _ Edb En Ety) in E.
  destruct (ExecuteTable_true _ _ _ Edb E)
    as (cols & declared & b & db' & _ & Ev & Ecreate & _ & _ & Edb' & Et).
  exists db', (built_table b).
  split; [exact Edb' |]. split; [exact Et |].
  unfold built_table. simpl.
  pose proof create_columns_in_step as S.
  specialize S with (1 := Ev) (2 := Ecreate). now apply S.
Qed.

End InStep.

(* ================================================================== *)
(** ** CREATE INDEX: what is rejected, what is added *)
(* ================================================================== *)

Section Indexes.

Context `{Headers}.

(** The loop of lines 340-350 looks at the columns of the table only. *)
Lemma resolve_keys_columns t t' target keys : forall key_attrs key_columns,
  table_columns t' = table_columns t ->
  resolve_keys t' target keys key_attrs key_columns
  = resolve_keys t target keys key_attrs key_columns.
Proof.
  induction keys as [|key keys IH]; intros ka kc E; simpl; [reflexivity |].
  unfold Table_GetColumn. rewrite E.
  destruct (lookup _ (table_columns t)); [| reflexivity]. now apply IH.
Qed.

(** The loop goes through exactly when every key names a column; it then
    has the columns, and their offsets, in the order of the keys. *)
Lemma resolve_keys_Next t target keys : forall key_attrs key_columns r,
  resolve_keys t target keys key_attrs key_columns = Next r ->
  exists columns,
    map (Table_GetColumn t) keys = map Some columns
    /\ r = (key_attrs ++ map column_offset columns, key_columns ++ columns).
Proof.
  induction keys as [|key keys IH]; intros ka kc r E; simpl in E.
  - injection E as <-. exists []. simpl. now rewrite !app_nil_r.
  - destruct (Table_GetColumn t key) as [column|] eqn:Ek; [| discriminate].
    apply IH in E as (columns & Em & ->).
    exists (column :: columns). simpl.
    now rewrite Ek, Em, <- !app_assoc.
Qed.

Lemma resolve_keys_found t target keys : forall key_attrs key_columns,
  (forall key, In key keys -> Table_GetColumn t key <> None) ->
  exists r, resolve_keys t target keys key_attrs key_columns = Next r.
Proof.
  induction keys as [|key keys IH]; intros ka kc Hall; simpl.
  - eauto.
  - destruct (Table_GetColumn t key) as [column|] eqn:Ek.
    + apply IH. intros k Hk. apply Hall. now right.
    + exfalso. apply (Hall key); [now left | assumption].
Qed.

Lemma resolve_keys_missing t target keys : forall key_attrs key_columns key,
  In key keys -> Table_GetColumn t key = None ->
  exists missing,
    In missing keys /\ Table_GetColumn t missing = None
    /\ resolve_keys t target keys key_attrs key_columns
       = ReturnFalse (IndexAttributeDoesNotExist missing target).
Proof.
  induction keys as [|k keys IH]; intros ka kc key Hin Hnone; simpl.
  - destruct Hin.
  - destruct (Table_GetColumn t k) as [column|] eqn:Ek.
    + destruct Hin as [-> | Hin]; [congruence |].
      destruct (IH (ka ++ [column_offset column]) (kc ++ [column]) key
                   Hin Hnone) as (m & Hm & Em & E).
      exists m. auto.
    + exists k. auto.
Qed.

(** X13.  When CREATE INDEX succeeds: with the default database in place and
    the statement carrying its name and its table name, [Execute] returns
    true exactly when the target table exists in the database, the attribute
    list is present, every attribute names a column of the table, the table
    has its physical table, and the table has no index of the statement's
    name yet. *)
Theorem create_index_succeeds_exactly_when c db stmt name target :
  Catalog_GetDatabase c DEFAULT_DB_NAME = Some db ->
  CreateStatement.type stmt = CreateStatement.kIndex ->
  CreateStatement.name stmt = Some name ->
  CreateStatement.table_name stmt = Some target ->
  (exists c', Execute c stmt = Returned true (CreatedIndex name) c')
  <-> (exists t attrs physical,
         Database_GetTable db target = Some t
         /\ CreateStatement.index_attrs stmt = Some attrs
         /\ (forall key, In key attrs -> Table_GetColumn t key <> None)
         /\ table_physical t = Some physical
         /\ Table_GetIndex t name = None).
Proof.
  intros Edb Ety En Etn. rewrite (Execute_index _ _ Edb En Ety). split.
  - intros (c' & E). apply ExecuteIndex_true_table in E
      as (tn & t & attrs & keys & ph & Etn' & Et & Ea & Ek & Ep & Ei & _).
    rewrite Etn in Etn'. injection Etn' as <-.
    exists t, attrs, ph. repeat split; try assumption.
    intros key Hin Hnone.
    destruct (resolve_keys_missing t target attrs [] [] key Hin Hnone)
      as (m & _ & _ & E). congruence.
  - intros (t & attrs & ph & Et & Ea & Hall & Ep & Ei).
    unfold ExecuteIndex, Lock, Unlock. rewrite Etn. simpl.
    rewrite Et, Ea.
    destruct (resolve_keys_found t target attrs [] [] Hall) as (r & Er).
    rewrite Er. simpl. rewrite Ep. simpl.
    unfold Table_AddIndex. simpl. rewrite Ei. eauto.
Qed.

(** X14.  What CREATE INDEX turns away by name: a target table the database
    does not hold gives "Table does not exist"; with the table there, an
    attribute list holding a name that is no column of the table gives
    "Index attribute does not exist" for such a name.  Either way [Execute]
    returns false and the catalog is unchanged. *)
Theorem create_index_rejects_unknown_names c db stmt name target :
  Catalog_GetDatabase c DEFAULT_DB_NAME = Some db ->
  CreateStatement.type stmt = CreateStatement.kIndex ->
  CreateStatement.name stmt = Some name ->
  CreateStatement.table_name stmt = Some target ->
  (Database_GetTable db target = None ->
     Execute c stmt = Returned false (TableDoesNotExist target) c)
  /\ (forall t attrs key,
        Database_GetTable db target = Some t ->
        CreateStatement.index_attrs stmt = Some attrs ->
        In key attrs ->
        Table_GetColumn t key = None ->
        exists missing,
          In missing attrs
          /\ Table_GetColumn t missing = None
          /\ Execute c stmt
             = Returned false (IndexAttributeDoesNotExist missing target) c).
Proof.
  intros Edb Ety En Etn. rewrite (Execute_index _ _ Edb En Ety).
  unfold ExecuteIndex. rewrite Etn. simpl. split.
  - intros Et. now rewrite Et.
  - intros t attrs key Et Ea Hin Hnone. rewrite Et, Ea.
    destruct (resolve_keys_missing t target attrs [] [] key Hin Hnone)
      as (m & Hm & Em & E).
    exists m. rewrite E. auto.
Qed.

(** The table a successful CREATE INDEX leaves under the target name. *)
Lemma Execute_index_true c db stmt name log c' :
  Catalog_GetDatabase c DEFAULT_DB_NAME = Some db ->
  CreateStatement.type stmt = CreateStatement.kIndex ->
  CreateStatement.name stmt = Some name ->
  Execute c stmt = Returned true log c' ->
  exists target t attrs columns physical,
    CreateStatement.table_name stmt = Some target
    /\ Database_GetTable db target = Some t
    /\ CreateStatement.index_attrs stmt = Some attrs
    /\ map (Table_GetColumn t) attrs = map Some columns
    /\ table_physical t = Some physical
    /\ Table_GetIndex t name = None
    /\ c' = Catalog_PutDatabase c
              (Database_PutTable db
                 (mkTable (table_name t) (table_columns t)
                    (table_constraints t)
                    (table_indexes t ++
                     [mkIndex name INDEX_TYPE_BTREE_MULTIMAP
                              (CreateStatement.unique stmt)
                              (map Some columns) None])
                    (table_physical t))).
Proof.
  intros Edb Ety En E. rewrite (Execute_index _ _ Edb En Ety) in E.
  apply ExecuteIndex_true_table in E
    as (tn & t & attrs & keys & ph & Etn & Et & Ea & Ek & Ep & Ei & _ & ->).
  apply resolve_keys_Next in Ek as (columns & Em & ->). simpl.
  exists tn, t, attrs, columns, ph.
  repeat split; solve [reflexivity | assumption].
Qed.

(** X15.  The index a successful CREATE INDEX registers: it is found on the
    target table under the statement's name, carries the statement's
    [unique] flag, and its key columns are the columns the attributes name,
    in the order of the attribute list, an attribute named twice giving its
    column twice. *)
Theorem created_index_keeps_key_order c db stmt name log c' :
  Catalog_GetDatabase c DEFAULT_DB_NAME = Some db ->
  CreateStatement.type stmt = CreateStatement.kIndex ->
  CreateStatement.name stmt = Some name ->
  Execute c stmt = Returned true log c' ->
  exists target attrs t db' t' i,
    CreateStatement.table_name stmt = Some target
    /\ CreateStatement.index_attrs stmt = Some attrs
    /\ Database_GetTable db target = Some t
    /\ Catalog_GetDatabase c' DEFAULT_DB_NAME = Some db'
    /\ Database_GetTable db' target = Some t'
    /\ Table_GetIndex t' name = Some i
    /\ index_name i = name
    /\ index_unique i = CreateStatement.unique stmt
    /\ index_columns i = map (Table_GetColumn t) attrs
    /\ index_columns i = map (Table_GetColumn t') attrs.
Proof.
  intros Edb Ety En E.
  destruct (Execute_index_true _ _ Edb Ety En E)
    as (tn & t & attrs & columns & ph & Etn & Et & Ea & Em & _ & Ei & ->).
  pose proof (Database_GetTable_name _ _ Et) as Ename.
  set (i := mkIndex name INDEX_TYPE_BTREE_MULTIMAP
              (CreateStatement.unique stmt) (map Some columns) None).
  set (t' := mkTable (table_name t) (table_columns t) (table_constraints t)
               (table_indexes t ++ [i]) (table_physical t)).
  exists tn, attrs, t, (Database_PutTable db t'), t', i.
  split; [exact Etn |]. split; [exact Ea |]. split; [exact Et |].
  split.
  { eapply Catalog_PutDatabase_get; [eassumption |].
    simpl. eapply Catalog_GetDatabase_name; eassumption. }
  split.
  { eapply Database_PutTable_get; [eassumption |]. exact Ename. }
  split.
  { unfold Table_GetIndex in *. simpl. rewrite (lookup_snoc _ _ _ Ei).
    simpl. now rewrite String.eqb_refl. }
  split; [reflexivity |]. split; [reflexivity |].
  split; [simpl; now rewrite Em |].
  simpl. rewrite <- Em. apply map_ext. intros key. reflexivity.
Qed.

(** X16.  What a successful CREATE INDEX leaves alone: the target table
    keeps its name, its columns, its constraints, its physical table and
    the indexes it had, the new index coming after them; the database keeps
    its name and every other table is found as it was. *)
Theorem created_index_is_appended c db stmt name log c' :
  Catalog_GetDatabase c DEFAULT_DB_NAME = Some db ->
  CreateStatement.type stmt = CreateStatement.kIndex ->
  CreateStatement.name stmt = Some name ->
  Execute c stmt = Returned true log c' ->
  exists target t db' t' i,
    CreateStatement.table_name stmt = Some target
    /\ Database_GetTable db target = Some t
    /\ Catalog_GetDatabase c' DEFAULT_DB_NAME = Some db'
    /\ Database_GetTable db' target = Some t'
    /\ database_name db' = database_name db
    /\ map table_name (database_tables db')
       = map table_name (database_tables db)
    /\ table_name t' = table_name t
    /\ table_columns t' = table_columns t
    /\ table_constraints t' = table_constraints t
    /\ table_physical t' = table_physical t
    /\ table_indexes t' = table_indexes t ++ [i]
    /\ (forall other u,
          other <> target ->
          Database_GetTable db other = Some u ->
          Database_GetTable db' other = Some u).
Proof.
  intros Edb Ety En E.
  destruct (Execute_index_true _ _ Edb Ety En E)
    as (tn & t & attrs & columns & ph & Etn & Et & Ea & Em & _ & Ei & ->).
  pose proof (Database_GetTable_name _ _ Et) as Ename.
  set (i := mkIndex name INDEX_TYPE_BTREE_MULTIMAP
              (CreateStatement.unique stmt) (map Some columns) None).
  set (t' := mkTable (table_name t) (table_columns t) (table_constraints t)
               (table_indexes t ++ [i]) (table_physical t)).
  exists tn, t, (Database_PutTable db t'), t', i.
  split; [exact Etn |]. split; [exact Et |].
  split.
  { eapply Catalog_PutDatabase_get; [eassumption |].
    simpl. eapply Catalog_GetDatabase_name; eassumption. }
  split.
  { eapply Database_PutTable_get; [eassumption |]. exact Ename. }
  split; [reflexivity |].
  split; [exact (write_back_names table_name (database_tables db) t') |].
  do 5 (split; [reflexivity |]).
  intros other u Hother Eu.
  assert (Hn : other <> table_name t').
  { simpl. now rewrite Ename. }
  unfold Database_GetTable, Database_PutTable in *. simpl database_tables.
  etransitivity; [| exact Eu].
  exact (lookup_write_back_other table_name (database_tables db) t' Hn).
Qed.

(** X17.  CREATE INDEX twice: when the first call returns true, the same
    statement run on the catalog it left returns false with "Could not
    create index", the name being taken, and leaves that catalog as it
    is. *)
Theorem second_create_index_is_rejected c stmt name log c' :
  CreateStatement.type stmt = CreateStatement.kIndex ->
  CreateStatement.name stmt = Some name ->
  Execute c stmt = Returned true log c' ->
  Execute c' stmt = Returned false (CouldNotCreateIndex name) c'.
Proof.
  intros Ety En E.
  pose proof (Execute_returned _ _ E) as (db & name' & Edb & En').
  rewrite En in En'. injection En' as <-.
  destruct (Execute_index_true _ _ Edb Ety En E)
    as (tn & t & attrs & columns & ph & Etn & Et & Ea & Em & Ep & Ei & Ec').
  pose proof (Database_GetTable_name _ _ Et) as Ename.
  set (i := mkIndex name INDEX_TYPE_BTREE_MULTIMAP
              (CreateStatement.unique stmt) (map Some columns) None) in *.
  set (t' := mkTable (table_name t) (table_columns t) (table_constraints t)
               (table_indexes t ++ [i]) (table_physical t)) in *.
  assert (Edb' : Catalog_GetDatabase c' DEFAULT_DB_NAME
                 = Some (Database_PutTable db t')).
  { rewrite Ec'. eapply Catalog_PutDatabase_get; [eassumption |].
    simpl. eapply Catalog_GetDatabase_name; eassumption. }
  assert (Et' : Database_GetTable (Database_PutTable db t') tn = Some t').
  { eapply Database_PutTable_get; [eassumption |]. exact Ename. }
  assert (Ei' : Table_GetIndex t' name = Some i).
  { unfold Table_GetIndex in *. simpl. rewrite (lookup_snoc _ _ _ Ei).
    simpl. now rewrite String.eqb_refl. }
  assert (Ek : exists r, resolve_keys t' tn attrs [] [] = Next r).
  { rewrite (resolve_keys_columns t t' tn attrs [] [] eq_refl).
    apply resolve_keys_found. intros key Hin Hnone.
    apply (in_map (Table_GetColumn t)) in Hin. rewrite Em, Hnone in Hin.
    apply in_map_iff in Hin as (x & Ex & _). discriminate. }
  destruct Ek as (r & Ek).
  assert (Ecall : exists c'',
             Execute c' stmt = Returned false (CouldNotCreateIndex name) c'').
  { rewrite (Execute_index _ _ Edb' En Ety).
    unfold ExecuteIndex, Lock, Unlock. rewrite Etn. simpl.
    rewrite Et', Ea, Ek. simpl. rewrite Ep. simpl.
    unfold Table_AddIndex. simpl. rewrite Ei'. eauto. }
  destruct Ecall as (c'' & Ecall).
  pose proof (Execute_false _ _ Ecall) as ->. exact Ecall.
Qed.

End Indexes.

(* ================================================================== *)
(** ** Names stay unique *)
(* ================================================================== *)

Section UniqueNames.

Context `{Headers}.

Lemma Table_AddColumn_unique t column t' :
  Table_AddColumn t column = (true, t') ->
  table_names_unique t -> table_names_unique t'.
Proof.
  unfold Table_AddColumn, Table_GetColumn.
  destruct (lookup _ (table_columns t)) eqn:E; [discriminate |].
  intros [= <-] (Hc & Hk & Hi). unfold table_names_unique. simpl.
  repeat split; try assumption.
  rewrite map_app. apply NoDup_snoc; [assumption |].
  now apply (lookup_name_None column_name) in E.
Qed.

Lemma Table_AddConstraint_unique t k t' :
  Table_AddConstraint t k = (true, t') ->
  table_names_unique t -> table_names_unique t'.
Proof.
  unfold Table_AddConstraint, Table_GetConstraint.
  destruct (lookup _ (table_constraints t)) eqn:E; [discriminate |].
  intros [= <-] (Hc & Hk & Hi). unfold table_names_unique. simpl.
  repeat split; try assumption.
  rewrite map_app. apply NoDup_snoc; [assumption |].
  now apply (lookup_name_None constraint_name) in E.
Qed.

Lemma Table_AddIndex_unique t i t' :
  Table_AddIndex t i = (true, t') ->
  table_names_unique t -> table_names_unique t'.
Proof.
  unfold Table_AddIndex, Table_GetIndex.
  destruct (lookup _ (table_indexes t)) eqn:E; [discriminate |].
  intros [= <-] (Hc & Hk & Hi). unfold table_names_unique. simpl.
  repeat split; try assumption.
  rewrite map_app. apply NoDup_snoc; [assumption |].
  now apply (lookup_name_None index_name) in E.
Qed.

(** Every object the second loop puts into the table went through an
    insertion the table accepted. *)
Lemma create_column_unique db b col b' :
  create_column db b col = Next b' ->
  table_names_unique (table b) -> table_names_unique (table b').
Proof.
  unfold create_column, create_primary, create_foreign, create_normal.
  destruct (ColumnDefinition.type col).
  - destruct (ColumnDefinition.primary_key col) as [keys|]; simpl;
      [| discriminate].
    destruct (Table_AddConstraint (table b) _) as [[] t1] eqn:E1;
      [| discriminate].
    destruct (Table_AddIndex t1 _) as [[] t2] eqn:E2; [| discriminate].
    intros [= <-] Hu. simpl.
    apply (Table_AddIndex_unique _ E2), (Table_AddConstraint_unique _ E1), Hu.
  - destruct (ColumnDefinition.name col) as [name|]; simpl; [| discriminate].
    destruct (ColumnDefinition.foreign_key_source col) as [source|]; simpl;
      [| discriminate].
    destruct (ColumnDefinition.foreign_key_sink col) as [sink|]; simpl;
      [| discriminate].
    destruct (sink_columns_of _ sink) as [sink_columns| | |]; simpl;
      try discriminate.
    destruct (Table_AddConstraint (table b) _) as [[] t1] eqn:E1;
      [| discriminate].
    intros [= <-] Hu. simpl. apply (Table_AddConstraint_unique _ E1), Hu.
  - destruct (ColumnDefinition.name col) as [name|]; simpl; [| discriminate].
    destruct (Table_AddColumn (table b) _) as [[] t1] eqn:E1;
      [| discriminate].
    intros [= <-] Hu. simpl. apply (Table_AddColumn_unique _ E1), Hu.
  - destruct (ColumnDefinition.name col) as [name|]; simpl; [| discriminate].
    destruct (Table_AddColumn (table b) _) as [[] t1] eqn:E1;
      [| discriminate].
    intros [= <-] Hu. simpl. apply (Table_AddColumn_unique _ E1), Hu.
Qed.

Lemma create_columns_unique db cols : forall b b',
  create_columns db b cols = Next b' ->
  table_names_unique (table b) -> table_names_unique (table b').
Proof.
  induction cols as [|col cols IH]; intros b b' E Hu; simpl in E.
  - now injection E as <-.
  - destruct (create_column db b col) as [b1| | |] eqn:E1; simpl in E;
      try discriminate.
    apply (IH _ _ E). now apply (create_column_unique _ _ _ E1).
Qed.

Lemma found_database_unique c name db :
  catalog_names_unique c ->
  Catalog_GetDatabase c name = Some db -> database_names_unique db.
Proof.
  intros [_ Hall] E. apply lookup_holds in E as [_ Hin].
  now apply (proj1 (Forall_forall _ _) Hall).
Qed.

Lemma found_table_unique db name t :
  database_names_unique db ->
  Database_GetTable db name = Some t -> table_names_unique t.
Proof.
  intros [_ Hall] E. apply lookup_holds in E as [_ Hin].
  now apply (proj1 (Forall_forall _ _) Hall).
Qed.

(** Writing a database back keeps the catalog's names unique when the
    database's own are. *)
Lemma Catalog_PutDatabase_unique c db :
  catalog_names_unique c ->
  database_names_unique db ->
  catalog_names_unique (Catalog_PutDatabase c db).
Proof.
  intros [Hn Hall] Hdb. unfold catalog_names_unique, Catalog_PutDatabase.
  simpl. split.
  - now rewrite (write_back_names database_name).
  - now apply write_back_Forall.
Qed.

Lemma Database_PutTable_unique db t :
  database_names_unique db ->
  table_names_unique t ->
  database_names_unique (Database_PutTable db t).
Proof.
  intros [Hn Hall] Ht. unfold database_names_unique, Database_PutTable.
  simpl. split.
  - now rewrite (write_back_names table_name).
  - now apply write_back_Forall.
Qed.

(** X18.  Names stay unique.  If, in the catalog a call starts from, no two
    databases share a name, no two tables of a database do, and no two
    columns, no two constraints and no two indexes of a table do, then the
    same holds of the catalog the call returns, whatever the statement and
    whether the call returns true or false. *)
Theorem returning_call_keeps_names_unique c stmt status log c' :
  catalog_names_unique c ->
  Execute c stmt = Returned status log c' ->
  catalog_names_unique c'.
Proof.
  intros Hc E. destruct status; [| now apply Execute_false in E as ->].
  pose proof (Execute_returned _ _ E) as (db & name & Edb & En).
  pose proof found_database_unique as Hdb.
  specialize Hdb with (1 := Hc) (2 := Edb).
  unfold Execute in E. rewrite Edb, En in E. simpl in E.
  destruct (CreateStatement.type stmt).
  - apply ExecuteTable_true_catalog in E
      as (cols & declared & b & _ & _ & Ecreate & Eg & _ & ->).
    apply Catalog_PutDatabase_unique; [assumption |].
    pose proof (create_columns_Next _ _ _ Ecreate) as (_ & _ & Ename & _).
    simpl in Ename.
    assert (Hb : table_names_unique (table b)).
    { apply (create_columns_unique _ _ _ Ecreate).
      unfold table_names_unique. simpl. repeat split; constructor. }
    destruct Hdb as [Hn Hall]. unfold database_names_unique. simpl. split.
    + rewrite map_app. apply NoDup_snoc; [assumption |]. simpl.
      unfold built_table. simpl. rewrite Ename.
      now apply (lookup_name_None table_name) in Eg.
    + apply Forall_app. split; [assumption |].
      constructor; [| constructor]. exact Hb.
  - apply ExecuteDatabase_true in E as (Eg & _ & ->).
    destruct Hc as [Hn Hall]. unfold catalog_names_unique. simpl. split.
    + rewrite map_app. apply NoDup_snoc; [assumption |]. simpl.
      now apply (lookup_name_None database_name) in Eg.
    + apply Forall_app. split; [assumption |].
      constructor; [| constructor].
      unfold database_names_unique. simpl. split; constructor.
  - apply ExecuteIndex_true_table in E
      as (tn & t & attrs & keys & ph & _ & Et & _ & _ & _ & Ei & _ & ->).
    apply Catalog_PutDatabase_unique; [assumption |].
    apply Database_PutTable_unique; [assumption |].
    pose proof found_table_unique as Ht.
    specialize Ht with (1 := Hdb) (2 := Et).
    destruct Ht as (Hcols & Hks & His).
    unfold table_names_unique. simpl. repeat split; try assumption.
    rewrite map_app. apply NoDup_snoc; [assumption |]. simpl.
    now apply (lookup_name_None index_name) in Ei.
  - discriminate.
Qed.

End UniqueNames.

(* ================================================================== *)
(** ** CREATE TABLE: the second loop after the first *)
(* ================================================================== *)

Section Completion.

Context `{Headers}.

Lemma to_string_inj a b : to_string a = to_string b -> a = b.
Proof.
  unfold to_string. intros E.
  assert (Hnil : forall n, N.to_uint n <> Decimal.Nil).
  { intros [|p]; [discriminate |]. apply DecimalPos.Unsigned.to_uint_nonnil. }
  apply (f_equal NilZero.uint_of_string) in E.
  rewrite !NilZero.usu in E by apply Hnil.
  injection E as E. now apply DecimalN.Unsigned.to_uint_inj.
Qed.

Lemma fresh_constraint_name t n prefix :
  constraints_numbered t n ->
  prefix = "PK_" \/ prefix = "FK_" ->
  Table_GetConstraint t (prefix ++ to_string n)%string = None.
Proof.
  intros Hnum Hp. unfold Table_GetConstraint.
  apply (lookup_name_None constraint_name). intros Hin.
  apply in_map_iff in Hin as (k & Ek & Hk).
  destruct (Hnum k Hk) as (j & Hj & Ej).
  assert (E : to_string j = to_string n).
  { destruct Hp as [-> | ->]; destruct Ej as [Ej | Ej];
      rewrite Ej in Ek; simpl in Ek; congruence. }
  apply to_string_inj in E. lia.
Qed.

Lemma fresh_index_name t n :
  indexes_numbered t n ->
  Table_GetIndex t ("INDEX_" ++ to_string n)%string = None.
Proof.
  intros Hnum. unfold Table_GetIndex.
  apply (lookup_name_None index_name). intros Hin.
  apply in_map_iff in Hin as (i & Ei & Hi).
  destruct (Hnum i Hi) as (j & Hj & Ej).
  rewrite Ej in Ei. simpl in Ei.
  assert (E : to_string j = to_string n) by congruence.
  apply to_string_inj in E. lia.
Qed.

Lemma oid_succ_in_range x :
  x + 1 < 2 ^ oid_bits -> oid_succ x = x + 1.
Proof. intros Hlt. unfold oid_succ. now apply N.mod_small. Qed.

Lemma sink_columns_of_found db name sink :
  validate_sink db (Some name) sink = Next tt ->
  exists sink_columns,
    sink_columns_of (Database_GetTable db name) sink = Next sink_columns.
Proof.
  destruct sink as [|key sink]; [simpl; eauto |].
  intros Ev. destruct (proj1 (validate_sink_Next _ _ _ _) Ev) as (t & Et & _).
  rewrite Et. clear Ev Et. generalize (key :: sink). intros keys.
  induction keys as [|k keys [sc IH]]; simpl; [eauto |].
  rewrite IH. simpl. eauto.
Qed.

(** What the second loop needs of a definition to go on. *)
Lemma create_column_fields db b col b' :
  create_column db b col = Next b' ->
  has_required_fields col = true /\ lacks_key_list col = false.
Proof.
  intros E. split.
  - unfold has_required_fields. unfold create_column in E.
    destruct (ColumnDefinition.type col); [reflexivity | | |].
    + apply create_foreign_table in E
        as (n & _ & _ & _ & _ & En & _). now rewrite En.
    + apply create_normal_Next in E as (n & En & _). now rewrite En.
    + apply create_normal_Next in E as (n & En & _). now rewrite En.
  - destruct (lacks_key_list col) eqn:El; [| reflexivity].
    rewrite (create_column_null db b col El) in E. discriminate.
Qed.

Lemma create_columns_fields db cols : forall b b',
  create_columns db b cols = Next b' ->
  forallb has_required_fields cols = true
  /\ forallb (fun col => negb (lacks_key_list col)) cols = true.
Proof.
  induction cols as [|col cols IH]; intros b b' E; simpl in E; [auto |].
  destruct (create_column db b col) as [b1| | |] eqn:E1; simpl in E;
    try discriminate.
  apply create_column_fields in E1 as (Hr & Hl).
  apply IH in E as (Hrs & Hls). simpl. now rewrite Hr, Hl, Hrs, Hls.
Qed.

(** One definition that the first loop has passed goes through the second
    loop: the generated names are new, the column's name is new. *)
Lemma create_column_goes_on db declared declared' b col :
  validate_column db declared col = Next declared' ->
  has_required_fields col = true ->
  lacks_key_list col = false ->
  map column_name (table_columns (table b)) = declared ->
  constraints_numbered (table b) (constraint_id b) ->
  indexes_numbered (table b) (index_id b) ->
  index_id b <= constraint_id b ->
  constraint_id b + N.of_nat (length (marker_types [col])) < 2 ^ oid_bits ->
  exists b',
    create_column db b col = Next b'
    /\ map column_name (table_columns (table b')) = declared'
    /\ constraints_numbered (table b') (constraint_id b')
    /\ indexes_numbered (table b') (index_id b')
    /\ index_id b' <= constraint_id b'
    /\ constraint_id b'
       = constraint_id b + N.of_nat (length (marker_types [col])).
Proof.
  intros Ev Hreq Hlack Hnames Hks His Hle Hrange.
  pose proof (validate_column_names _ _ _ Ev) as Ed.
  unfold normal_names, is_normal in Ed. simpl in Ed.
  unfold validate_column, if_present in Ev.
  unfold has_required_fields in Hreq. unfold lacks_key_list in Hlack.
  unfold marker_types in Hrange. simpl in Hrange.
  unfold create_column, marker_types. simpl.
  destruct (ColumnDefinition.type col) eqn:Ety; simpl in *.
  - (* PRIMARY *)
    destruct (ColumnDefinition.primary_key col) as [keys|] eqn:Ek;
      [| discriminate].
    pose proof (@fresh_constraint_name (table b) (constraint_id b) "PK_"
                  Hks (or_introl eq_refl)) as Hfk.
    pose proof (@fresh_index_name (table b) (index_id b) His) as Hfi.
    unfold create_primary. rewrite Ek.
    remember ("PK_" ++ to_string (constraint_id b))%string as cn eqn:Ecn.
    remember ("INDEX_" ++ to_string (index_id b))%string as ixn eqn:Eixn.
    cbn [bind deref]. unfold Table_AddConstraint. cbn [constraint_name].
    rewrite Hfk. unfold Table_AddIndex, Table_GetIndex in *.
    cbn [index_name table_indexes]. rewrite Hfi.
    rewrite !oid_succ_in_range by lia.
    eexists. split; [reflexivity |]. cbn.
    rewrite app_nil_r in Ed. subst declared'.
    split; [assumption |]. split; [| split; [| split; [lia | reflexivity]]].
    + intros k Hk. apply in_app_iff in Hk as [Hk | [<- | []]].
      * destruct (Hks k Hk) as (j & Hj & Ej). exists j. split; [lia | exact Ej].
      * exists (constraint_id b). split; [lia |]. left. exact Ecn.
    + intros i Hi. apply in_app_iff in Hi as [Hi | [<- | []]].
      * destruct (His i Hi) as (j & Hj & Ej). exists j. split; [lia | exact Ej].
      * exists (index_id b). split; [lia |]. exact Eixn.
  - (* FOREIGN *)
    destruct (ColumnDefinition.name col) as [n|] eqn:En; [| discriminate].
    destruct (ColumnDefinition.foreign_key_source col) as [source|] eqn:Eso;
      [| discriminate].
    destruct (ColumnDefinition.foreign_key_sink col) as [sink|] eqn:Esi;
      [| discriminate].
    destruct (validate_keys ForeignKeySourceColumnNotInTable declared source)
      as [[]| | |]; simpl in Ev; try discriminate.
    destruct (validate_sink db (Some n) sink) as [[]| | |] eqn:Evs;
      simpl in Ev; try discriminate.
    pose proof sink_columns_of_found as S.
    specialize S with (1 := Evs). destruct S as (sc & Esc).
    pose proof (@fresh_constraint_name (table b) (constraint_id b) "FK_"
                  Hks (or_intror eq_refl)) as Hfk.
    unfold create_foreign. rewrite En, Eso, Esi.
    remember ("FK_" ++ to_string (constraint_id b))%string as cn eqn:Ecn.
    cbn [bind deref]. rewrite Esc. cbn [bind].
    unfold Table_AddConstraint. cbn [constraint_name]. rewrite Hfk.
    rewrite !oid_succ_in_range by lia.
    eexists. split; [reflexivity |]. cbn.
    rewrite app_nil_r in Ed. subst declared'.
    split; [assumption |]. split; [| split; [| split; [lia | reflexivity]]].
    + intros k Hk. apply in_app_iff in Hk as [Hk | [<- | []]].
      * destruct (Hks k Hk) as (j & Hj & Ej). exists j. split; [lia | exact Ej].
      * exists (constraint_id b). split; [lia |]. right. exact Ecn.
    + exact His.
  - (* CHAR *)
    destruct (ColumnDefinition.name col) as [n|] eqn:En; [| discriminate].
    simpl in Ev. destruct (std_find declared n) eqn:Ef; [discriminate |].
    apply std_find_not_In in Ef. rewrite <- Hnames in Ef.
    unfold create_normal. rewrite En. simpl.
    unfold Table_AddColumn, Table_GetColumn. simpl.
    rewrite (proj2 (lookup_name_None column_name _ n) Ef).
    eexists. split; [reflexivity |]. simpl.
    rewrite map_app, Hnames. subst declared'.
    repeat split; try assumption. lia.
  - (* any other kind *)
    destruct (ColumnDefinition.name col) as [n|] eqn:En; [| discriminate].
    simpl in Ev. destruct (std_find declared n) eqn:Ef; [discriminate |].
    apply std_find_not_In in Ef. rewrite <- Hnames in Ef.
    unfold create_normal. rewrite En. simpl.
    unfold Table_AddColumn, Table_GetColumn. simpl.
    rewrite (proj2 (lookup_name_None column_name _ n) Ef).
    eexists. split; [reflexivity |]. simpl.
    rewrite map_app, Hnames. subst declared'.
    repeat split; try assumption. lia.
Qed.

Lemma marker_types_cons col cols :
  marker_types (col :: cols) = marker_types [col] ++ marker_types cols.
Proof. unfold marker_types. simpl. now rewrite app_nil_r. Qed.

Lemma create_columns_go_on db cols : forall declared declared' b,
  validate db declared cols = Next declared' ->
  forallb has_required_fields cols = true ->
  forallb (fun col => negb (lacks_key_list col)) cols = true ->
  map column_name (table_columns (table b)) = declared ->
  constraints_numbered (table b) (constraint_id b) ->
  indexes_numbered (table b) (index_id b) ->
  index_id b <= constraint_id b ->
  constraint_id b + N.of_nat (length (marker_types cols)) < 2 ^ oid_bits ->
  exists b', create_columns db b cols = Next b'.
Proof.
  induction cols as [|col cols IH];
    intros declared declared' b Ev Hreq Hlack Hnames Hks His Hle Hrange;
    simpl in Ev |- *; [eauto |].
  destruct (validate_column db declared col) as [d1| | |] eqn:Ev1;
    simpl in Ev; try discriminate.
  simpl in Hreq, Hlack.
  apply andb_true_iff in Hreq as [Hr Hrs].
  apply andb_true_iff in Hlack as [Hl Hls].
  apply negb_true_iff in Hl.
  rewrite marker_types_cons, length_app, Nat2N.inj_add in Hrange.
  pose proof create_column_goes_on as S.
  specialize S with (1 := Ev1) (2 := Hr) (3 := Hl) (4 := Hnames) (5 := Hks)
                    (6 := His) (7 := Hle).
  destruct S as (b1 & E1 & Hn1 & Hks1 & His1 & Hle1 & Ecid); [lia |].
  rewrite E1. simpl.
  apply (IH _ _ _ Ev Hrs Hls Hn1 Hks1 His1 Hle1). lia.
Qed.

(** X19.  When CREATE TABLE succeeds.  With the default database in place,
    the statement named and fewer markers in the column list than [oid_t]
    has values, [Execute] returns true exactly when the column list passes
    the first loop, every normal column and every FOREIGN marker carries its
    name, every marker carries its key lists, and the database holds no
    table of the statement's name.  Given these, none of the refusals of
    lines 163-178, 208-213, 243-247 and 265-270 is met. *)
Theorem create_table_succeeds_exactly_when c db stmt name cols :
  Catalog_GetDatabase c DEFAULT_DB_NAME = Some db ->
  CreateStatement.type stmt = CreateStatement.kTable ->
  CreateStatement.name stmt = Some name ->
  CreateStatement.columns stmt = Some cols ->
  N.of_nat (length (marker_types cols)) < 2 ^ oid_bits ->
  (exists c', Execute c stmt = Returned true (CreatedTable name) c')
  <-> ((exists declared, validate db [] cols = Next declared)
       /\ forallb has_required_fields cols = true
       /\ forallb (fun col => negb (lacks_key_list col)) cols = true
       /\ Database_GetTable db name = None).
Proof.
  intros Edb Ety En Ecols Hrange. rewrite (Execute_table _ _ Edb En Ety).
  split.
  - intros (c' & E). apply ExecuteTable_true_catalog in E
      as (cols' & declared & b & Ec & Ev & Ecreate & Eg & _).
    rewrite Ecols in Ec. injection Ec as <-.
    apply create_columns_fields in Ecreate as (Hr & Hl).
    split; [eauto |]. auto.
  - intros ((declared & Ev) & Hr & Hl & Eg).
    assert (Ecreate : exists b,
               create_columns db (new_table name) cols = Next b).
    { pose proof create_columns_go_on as S.
      specialize S with (b := new_table name) (1 := Ev) (2 := Hr) (3 := Hl).
      apply S; simpl.
      - reflexivity.
      - intros k [].
      - intros i [].
      - lia.
      - lia. }
    destruct Ecreate as (b & Ecreate).
    unfold ExecuteTable, Lock, Unlock. rewrite Ecols. simpl.
    rewrite Ev. simpl. rewrite Eg, Ecreate. simpl.
    pose proof (create_columns_Next _ _ _ Ecreate) as (_ & _ & Ename & _).
    simpl in Ename.
    unfold Database_AddTable. simpl. rewrite Ename, Eg.
    destruct (CreateStatement.if_not_exists stmt); eauto.
Qed.

End Completion.

(* ================================================================== *)
(** ** CREATE TABLE: the assertion on column names *)
(* ================================================================== *)

Section Assertions.

Context `{Headers}.

(** The second loop tests nothing with [assert]. *)
Lemma create_columns_asserts_nothing db cols : forall b,
  create_columns db b cols <> AssertionFailure.
Proof.
  induction cols as [|col cols IH]; intros b; simpl; [discriminate |].
  destruct (create_column db b col) as [b1| | |] eqn:E; simpl;
    try discriminate; [apply IH |].
  exfalso. unfold create_column, create_primary, create_foreign,
             create_normal in E.
  destruct (ColumnDefinition.type col).
  - destruct (ColumnDefinition.primary_key col); simpl in E;
      [| discriminate].
    destruct (Table_AddConstraint _ _) as [[] t1]; [| discriminate].
    destruct (Table_AddIndex _ _) as [[] t2]; discriminate.
  - destruct (ColumnDefinition.name col); simpl in E; [| discriminate].
    destruct (ColumnDefinition.foreign_key_source col); simpl in E;
      [| discriminate].
    destruct (ColumnDefinition.foreign_key_sink col) as [sink|]; simpl in E;
      [| discriminate].
    assert (G : forall ft keys, sink_columns_of ft keys <> AssertionFailure).
    { intros ft keys. induction keys as [|k keys IHk]; simpl;
        [discriminate |].
      destruct ft; simpl; [| discriminate].
      destruct (sink_columns_of (Some t) keys); simpl; try discriminate.
      now contradiction IHk. }
    destruct (sink_columns_of _ sink) eqn:Es; simpl in E; try discriminate.
    + destruct (Table_AddConstraint _ _) as [[] t1]; discriminate.
    + now apply G in Es.
  - destruct (ColumnDefinition.name col); simpl in E; [| discriminate].
    destruct (Table_AddColumn _ _) as [[] t1]; discriminate.
  - destruct (ColumnDefinition.name col); simpl in E; [| discriminate].
    destruct (Table_AddColumn _ _) as [[] t1]; discriminate.
Qed.

(** The first loop fails an [assert] exactly at a normal column without a
    name that it reaches. *)
Lemma validate_asserts db cols : forall declared,
  validate db declared cols = AssertionFailure <->
  exists pre col post reached,
    cols = pre ++ col :: post
    /\ validate db declared pre = Next reached
    /\ is_normal col = true
    /\ ColumnDefinition.name col = None.
Proof.
  induction cols as [|col cols IH]; intros declared; simpl.
  - split; [discriminate |].
    intros (pre & c0 & post & r & E & _). now destruct pre.
  - split.
    + destruct (validate_column db declared col) as [d1| | |] eqn:E1; simpl;
        try discriminate.
      * intros E. apply IH in E as (pre & c0 & post & r & -> & Ev & Hn & En).
        exists (col :: pre), c0, post, r. simpl. rewrite E1. simpl. auto.
      * intros _. exists [], col, cols, declared. simpl.
        unfold validate_column, if_present, is_normal in *.
        destruct (ColumnDefinition.type col).
        -- destruct (match ColumnDefinition.primary_key col with
                     | Some a =>
                         validate_keys PrimaryKeyColumnNotInTable declared a
                     | None => Next tt end) eqn:Ek; simpl in E1;
             try discriminate.
           exfalso. destruct (ColumnDefinition.primary_key col) as [keys|];
             [| discriminate].
           destruct (validate_keys_returns PrimaryKeyColumnNotInTable
                       declared keys) as [E | (k & _ & _ & E)]; congruence.
        -- exfalso.
           destruct (ColumnDefinition.foreign_key_source col) as [source|].
           ++ destruct (validate_keys_returns ForeignKeySourceColumnNotInTable
                          declared source) as [E | (k & _ & _ & E)];
                rewrite E in E1; simpl in E1; [| discriminate].
              destruct (ColumnDefinition.foreign_key_sink col) as [sink|];
                [| discriminate].
              assert (G : forall keys,
                        validate_sink db (ColumnDefinition.name col) keys
                        <> AssertionFailure).
              { induction keys as [|k keys IHk]; simpl; [discriminate |].
                destruct (ColumnDefinition.name col); simpl;
                  [| discriminate].
                destruct (Database_GetTable db s); [| discriminate].
                destruct (Table_GetColumn t k); [assumption | discriminate]. }
              destruct (validate_sink db (ColumnDefinition.name col) sink)
                eqn:Es; simpl in E1; try discriminate. now apply G in Es.
           ++ simpl in E1.
              destruct (ColumnDefinition.foreign_key_sink col) as [sink|];
                [| discriminate].
              assert (G : forall keys,
                        validate_sink db (ColumnDefinition.name col) keys
                        <> AssertionFailure).
              { induction keys as [|k keys IHk]; simpl; [discriminate |].
                destruct (ColumnDefinition.name col); simpl;
                  [| discriminate].
                destruct (Database_GetTable db s); [| discriminate].
                destruct (Table_GetColumn t k); [assumption | discriminate]. }
              destruct (validate_sink db (ColumnDefinition.name col) sink)
                eqn:Es; simpl in E1; try discriminate. now apply G in Es.
        -- destruct (ColumnDefinition.name col) as [n|]; simpl in E1; [| auto].
           destruct (std_find declared n); discriminate.
        -- destruct (ColumnDefinition.name col) as [n|]; simpl in E1; [| auto].
           destruct (std_find declared n); discriminate.
    + intros (pre & c0 & post & r & E & Ev & Hn & En).
      destruct pre as [|p0 pre]; simpl in E; injection E as -> ->.
      * simpl in Ev. injection Ev as <-.
        unfold validate_column. unfold is_normal in Hn.
        destruct (ColumnDefinition.type c0); try discriminate;
          now rewrite En.
      * simpl in Ev.
        destruct (validate_column db declared p0) as [d1| | |]; simpl in *;
          try discriminate.
        apply IH. exists pre, c0, post, r. auto.
Qed.

(** X20.  The assertion on column names.  With the default database in
    place and the statement carrying its name and its column list, a CREATE
    TABLE call ends in the failed [assert] of line 99 exactly when the first
    loop reaches a normal column that has no name, that is, when the
    definitions before such a column all pass the first loop.  No other
    [assert] can fail in such a call. *)
Theorem unnamed_column_fails_the_assertion c db stmt name cols :
  Catalog_GetDatabase c DEFAULT_DB_NAME = Some db ->
  CreateStatement.type stmt = CreateStatement.kTable ->
  CreateStatement.name stmt = Some name ->
  CreateStatement.columns stmt = Some cols ->
  Execute c stmt = AssertionFailed
  <-> exists pre col post reached,
        cols = pre ++ col :: post
        /\ validate db [] pre = Next reached
        /\ is_normal col = true
        /\ ColumnDefinition.name col = None.
Proof.
  intros Edb Ety En Ecols. rewrite <- validate_asserts.
  rewrite (Execute_table _ _ Edb En Ety).
  unfold ExecuteTable, Lock, Unlock. rewrite Ecols. simpl.
  destruct (validate db [] cols) as [d| | |]; simpl;
    try (split; [discriminate | discriminate]); [| tauto].
  split; [| discriminate].
  assert (G : with_catalog c (create_columns db (new_table name) cols)
                (fun b =>
                   let (status, db') :=
                     Database_AddTable db
                       (Table_SetPhysicalTable (table b)
                          (TableFactory_GetTable DEFAULT_DB_ID
                             (physical_columns b))) in
                   if status
                   then Returned true (CreatedTable name)
                                 (Catalog_PutDatabase c db')
                   else Returned false (CouldNotCreateTable name)
                                 (Catalog_PutDatabase c db'))
              <> AssertionFailed).
  { pose proof (create_columns_asserts_nothing db cols (new_table name)) as Hc.
    destruct (create_columns db (new_table name) cols); simpl;
      try discriminate; [| contradiction].
    destruct (Database_AddTable db _) as [[] db']; discriminate. }
  destruct (Database_GetTable db name);
    destruct (CreateStatement.if_not_exists stmt);
    intros E; try discriminate; now apply G in E.
Qed.

End Assertions.

(* ================================================================== *)
(** ** Physical tables, and the calls that do not return *)
(* ================================================================== *)

Section PhysicalTables.

Context `{Headers}.

Lemma found_database_physical c name db :
  catalog_tables_physical c ->
  Catalog_GetDatabase c name = Some db -> database_tables_physical db.
Proof.
  intros Hall E. apply lookup_holds in E as [_ Hin].
  now apply (proj1 (Forall_forall _ _) Hall).
Qed.

Lemma found_table_physical db name t :
  database_tables_physical db ->
  Database_GetTable db name = Some t -> has_physical_table t.
Proof.
  intros Hall E. apply lookup_holds in E as [_ Hin].
  now apply (proj1 (Forall_forall _ _) Hall).
Qed.

(** The loop of lines 340-350 returns false or goes on. *)
Lemma resolve_keys_returns t target keys : forall key_attrs key_columns,
  (exists r, resolve_keys t target keys key_attrs key_columns = Next r)
  \/ (exists log,
        resolve_keys t target keys key_attrs key_columns = ReturnFalse log).
Proof.
  induction keys as [|key keys IH]; intros ka kc; simpl; [eauto |].
  destruct (Table_GetColumn t key); [apply IH | eauto].
Qed.

(** X21.  Every table keeps a physical table.  If every table of the catalog
    a call starts from has its physical table, so has every table of the
    catalog the call returns: CREATE TABLE attaches one to the table it
    registers, CREATE INDEX leaves the one of its target in place, CREATE
    DATABASE registers no table. *)
Theorem returning_call_keeps_physical_tables c stmt status log c' :
  catalog_tables_physical c ->
  Execute c stmt = Returned status log c' ->
  catalog_tables_physical c'.
Proof.
  intros Hc E. destruct status; [| now apply Execute_false in E as ->].
  pose proof (Execute_returned _ _ E) as (db & name & Edb & En).
  pose proof found_database_physical as Hdb.
  specialize Hdb with (1 := Hc) (2 := Edb).
  unfold Execute in E. rewrite Edb, En in E. simpl in E.
  destruct (CreateStatement.type stmt).
  - apply ExecuteTable_true_catalog in E
      as (cols & declared & b & _ & _ & _ & _ & _ & ->).
    unfold catalog_tables_physical, Catalog_PutDatabase. simpl.
    apply write_back_Forall; [assumption |].
    unfold database_tables_physical. simpl.
    apply Forall_app. split; [assumption |].
    constructor; [| constructor].
    unfold has_physical_table, built_table. simpl. discriminate.
  - apply ExecuteDatabase_true in E as (_ & _ & ->).
    unfold catalog_tables_physical. simpl.
    apply Forall_app. split; [assumption |].
    constructor; [| constructor]. constructor.
  - apply ExecuteIndex_true_table in E
      as (tn & t & attrs & keys & ph & _ & Et & _ & _ & Eph & _ & _ & ->).
    unfold catalog_tables_physical, Catalog_PutDatabase. simpl.
    apply write_back_Forall; [assumption |].
    unfold database_tables_physical, Database_PutTable. simpl.
    apply write_back_Forall; [assumption |].
    unfold has_physical_table. simpl. now rewrite Eph.
  - discriminate.
Qed.

(** X22.  CREATE INDEX returns.  On a catalog whose tables all have their
    physical table, with the default database in place and the statement
    carrying its name and its table name, a CREATE INDEX call returns true
    or false: it fails no [assert] and line 356 reads no null pointer. *)
Theorem create_index_returns c db stmt name target :
  catalog_tables_physical c ->
  Catalog_GetDatabase c DEFAULT_DB_NAME = Some db ->
  CreateStatement.type stmt = CreateStatement.kIndex ->
  CreateStatement.name stmt = Some name ->
  CreateStatement.table_name stmt = Some target ->
  exists status log c', Execute c stmt = Returned status log c'.
Proof.
  intros Hc Edb Ety En Etn.
  pose proof found_database_physical as Hdb.
  specialize Hdb with (1 := Hc) (2 := Edb).
  unfold Execute. rewrite Edb, En, Ety. simpl.
  unfold ExecuteIndex, Lock, Unlock. rewrite Etn. simpl.
  destruct (Database_GetTable db target) as [t|] eqn:Et; [| eauto].
  destruct (CreateStatement.index_attrs stmt) as [attrs|]; [| eauto].
  destruct (resolve_keys_returns t target attrs [] [])
    as [[keys ->] | [m ->]]; simpl; [| eauto].
  pose proof found_table_physical as Hph.
  specialize Hph with (1 := Hdb) (2 := Et).
  destruct (table_physical t) as [physical|] eqn:Eph;
    [| now contradiction Hph].
  simpl. destruct (Table_AddIndex t _) as [[] t1]; eauto.
Qed.

(** X23.  The assertions of every call.  On a statement that is not a CREATE
    TABLE, a call ends in a failed [assert] exactly when the catalog holds
    no default database or the statement has no name; so CREATE DATABASE
    itself needs the default database to be there.  CREATE DATABASE and
    CREATE INDEX test nothing else with [assert]. *)
Theorem other_statements_assert_database_and_name c stmt :
  CreateStatement.type stmt <> CreateStatement.kTable ->
  Execute c stmt = AssertionFailed
  <-> Catalog_GetDatabase c DEFAULT_DB_NAME = None
      \/ CreateStatement.name stmt = None.
Proof.
  intros Hty. unfold Execute.
  destruct (Catalog_GetDatabase c DEFAULT_DB_NAME) as [db|]; simpl;
    [| tauto].
  destruct (CreateStatement.name stmt) as [name|]; simpl; [| tauto].
  split; [| intros [E | E]; discriminate].
  intros E. exfalso.
  destruct (CreateStatement.type stmt).
  - now contradiction Hty.
  - unfold ExecuteDatabase, Lock, Unlock in E.
    destruct (Catalog_GetDatabase c name); [discriminate |].
    destruct (Catalog_AddDatabase c _) as [[] c1]; discriminate.
  - unfold ExecuteIndex, Lock, Unlock in E.
    destruct (CreateStatement.table_name stmt) as [target|]; simpl in E;
      [| discriminate].
    destruct (Database_GetTable db target) as [t|]; [| discriminate].
    destruct (CreateStatement.index_attrs stmt) as [attrs|];
      [| discriminate].
    destruct (resolve_keys_returns t target attrs [] [])
      as [[keys Ek] | [m Ek]]; rewrite Ek in E; simpl in E;
      [| discriminate].
    destruct (table_physical t); simpl in E; [| discriminate].
    destruct (Table_AddIndex t _) as [[] t1]; discriminate.
  - discriminate.
Qed.

End PhysicalTables.

(* ================================================================== *)
(** ** More scenarios, run *)
(* ================================================================== *)

Section MoreScenarios.

#[local] Existing Instance Scenario.headers.

Import Scenario.

(** An index over a column that items does not have is refused, and the
    catalog is the one the call was given. *)
Lemma refused_index_leaves_catalog_unchanged :
  Execute items_catalog create_idx_unknown_attribute
    = Returned false (IndexAttributeDoesNotExist "colour" "items")
               items_catalog
  /\ items_catalog = items_catalog.
Proof.
  split; [reflexivity |].
  apply (@failed_call_leaves_catalog_unchanged headers
           items_catalog create_idx_unknown_attribute
           (IndexAttributeDoesNotExist "colour" "items") items_catalog).
  reflexivity.
Defined.

(** CREATE TABLE lines on a catalog of two databases leaves sales alone. *)
Lemma create_lines_keeps_sales :
  (exists db',
     Catalog_GetDatabase
       (catalog_of (Execute sales_catalog create_lines)) DEFAULT_DB_NAME
     = Some db')
  /\ Catalog_GetDatabase
       (catalog_of (Execute sales_catalog create_lines)) "sales"
     = Some (mkDatabase "sales" []).
Proof.
  assert (E : Execute sales_catalog create_lines
               = Returned true (CreatedTable "lines")
                   (catalog_of (Execute sales_catalog create_lines)))
    by (vm_compute; reflexivity).
  destruct (@returning_call_keeps_databases headers
              sales_catalog create_lines true (CreatedTable "lines")
              (catalog_of (Execute sales_catalog create_lines)) E)
    as (Hd & Hall).
  split; [exact Hd |].
  apply Hall; [discriminate | reflexivity].
Defined.

(** CREATE DATABASE sales on the catalog of scenario A. *)
Lemma create_sales_registers_sales :
  exists c',
    Execute orders_catalog create_sales
    = Returned true (CreatedDatabase "sales") c'
    /\ catalog_databases c'
       = catalog_databases orders_catalog ++ [mkDatabase "sales" []]
    /\ Catalog_GetDatabase c' "sales" = Some (mkDatabase "sales" []).
Proof.
  apply (@create_database_registers_new_names headers
           orders_catalog orders_database create_sales "sales");
    reflexivity.
Defined.

Lemma second_create_sales_is_rejected :
  Execute sales_catalog create_sales
  = Returned false (DatabaseAlreadyExists "sales") sales_catalog.
Proof.
  apply (@second_create_database_is_rejected headers
           orders_catalog create_sales "sales" (CreatedDatabase "sales")
           sales_catalog);
    reflexivity.
Defined.

(** Scenario E, by its message. *)
Lemma duplicate_amount_is_rejected :
  exists log,
    Execute empty_catalog create_duplicate = Returned false log empty_catalog
    /\ logged_before_new_table log = true
    /\ (forall declared,
          validate (mkDatabase "default" []) [] [normal "amount" INT 0]
          = Next declared ->
          log = DuplicateColumnName "amount").
Proof.
  apply (@duplicate_column_name_is_rejected headers
           empty_catalog (mkDatabase "default" []) create_duplicate
           "payments" [normal "amount" INT 0] (normal "amount" INT 0) []
           "amount");
    try reflexivity.
  now left.
Defined.

Lemma foreign_forward_reference_is_rejected :
  exists log,
    logged_before_new_table log = true
    /\ Execute orders_catalog create_lines_forward
       = Returned false log orders_catalog.
Proof.
  apply (@foreign_source_forward_reference_is_rejected headers
           orders_catalog orders_database create_lines_forward "lines" []
           (foreign "orders" (Some ["oid"]) (Some ["id"]))
           [normal "oid" INT 0] ["oid"] "oid");
    try reflexivity.
  - now left.
  - intros [].
Defined.

Lemma lines_is_appended :
  Database_GetTable orders_database "lines" = None
  /\ CreatedTable "lines" = CreatedTable "lines"
  /\ exists db' t,
       Catalog_GetDatabase
         (catalog_of (Execute orders_catalog create_lines)) DEFAULT_DB_NAME
       = Some db'
       /\ database_name db' = database_name orders_database
       /\ database_tables db' = database_tables orders_database ++ [t]
       /\ table_name t = "lines"
       /\ Database_GetTable db' "lines" = Some t
       /\ (forall other u,
             Database_GetTable orders_database other = Some u ->
             Database_GetTable db' other = Some u).
Proof.
  apply (@created_table_is_appended headers
           orders_catalog orders_database create_lines "lines"
           (CreatedTable "lines")
           (catalog_of (Execute orders_catalog create_lines)));
    reflexivity.
Defined.

Lemma items_have_distinct_column_names :
  NoDup (normal_names items_columns)
  /\ exists db' t,
       Catalog_GetDatabase
         (catalog_of (Execute empty_catalog create_items)) DEFAULT_DB_NAME
       = Some db'
       /\ Database_GetTable db' "items" = Some t
       /\ map column_name (table_columns t) = normal_names items_columns
       /\ NoDup (map column_name (table_columns t)).
Proof.
  apply (@created_table_has_distinct_column_names headers
           empty_catalog create_items "items" items_columns
           (CreatedTable "items")
           (catalog_of (Execute empty_catalog create_items)));
    reflexivity.
Defined.

Lemma items_schema_mirrors_columns :
  exists db' t physical,
    Catalog_GetDatabase
      (catalog_of (Execute empty_catalog create_items)) DEFAULT_DB_NAME
    = Some db'
    /\ Database_GetTable db' "items" = Some t
    /\ table_physical t = Some physical
    /\ physical_database physical = DEFAULT_DB_ID
    /\ map info_name (physical_schema physical)
       = map column_name (table_columns t)
    /\ map info_type (physical_schema physical)
       = map column_type (table_columns t)
    /\ map info_length (physical_schema physical)
       = map column_size (table_columns t)
    /\ map info_allow_null (physical_schema physical)
       = map (fun column => negb (column_not_null column)) (table_columns t).
Proof.
  apply (@created_schema_mirrors_columns headers
           empty_catalog create_items "items" (CreatedTable "items")
           (catalog_of (Execute empty_catalog create_items)));
    reflexivity.
Defined.

Lemma items_carry_their_declaration :
  exists db' t physical,
    Catalog_GetDatabase
      (catalog_of (Execute empty_catalog create_items)) DEFAULT_DB_NAME
    = Some db'
    /\ Database_GetTable db' "items" = Some t
    /\ table_physical t = Some physical
    /\ map column_type (table_columns t)
       = [VALUE_TYPE_OTHER 3; VALUE_TYPE_VARCHAR; VALUE_TYPE_OTHER 0]
    /\ map column_not_null (table_columns t) = [true; true; true]
    /\ map column_size (table_columns t) = [1; 32; 4]
    /\ map info_is_varlen (physical_schema physical) = [false; true; false].
Proof.
  apply (@created_columns_carry_their_declaration headers
           empty_catalog create_items "items" items_columns
           (CreatedTable "items")
           (catalog_of (Execute empty_catalog create_items)));
    reflexivity.
Defined.

Lemma lines_has_one_constraint_per_marker :
  exists db' t,
    Catalog_GetDatabase
      (catalog_of (Execute orders_catalog create_lines)) DEFAULT_DB_NAME
    = Some db'
    /\ Database_GetTable db' "lines" = Some t
    /\ map constraint_type (table_constraints t)
       = [CONSTRAINT_TYPE_PRIMARY; CONSTRAINT_TYPE_FOREIGN]
    /\ map index_unique (table_indexes t) = [true]
    /\ Forall (fun i => index_physical i = None) (table_indexes t).
Proof.
  apply (@created_table_has_one_constraint_per_marker headers
           orders_catalog create_lines "lines" lines_columns
           (CreatedTable "lines")
           (catalog_of (Execute orders_catalog create_lines)));
    reflexivity.
Defined.

Lemma lines_holds_no_null_column :
  exists db' t,
    Catalog_GetDatabase
      (catalog_of (Execute orders_catalog create_lines)) DEFAULT_DB_NAME
    = Some db'
    /\ Database_GetTable db' "lines" = Some t
    /\ forallb index_is_resolved (table_indexes t) = true
    /\ forallb constraint_is_resolved (table_constraints t) = true.
Proof.
  apply (@created_table_holds_no_null_column headers
           orders_catalog create_lines "lines" (CreatedTable "lines")
           (catalog_of (Execute orders_catalog create_lines)));
    reflexivity.
Defined.

Lemma idx_items_is_created :
  exists c',
    Execute items_catalog create_idx_items
    = Returned true (CreatedIndex "idx_items") c'.
Proof.
  apply (proj2 (@create_index_succeeds_exactly_when headers
                  items_catalog items_database create_idx_items
                  "idx_items" "items" eq_refl eq_refl eq_refl eq_refl)).
  do 3 eexists. split; [reflexivity |]. split; [reflexivity |].
  split; [| split; reflexivity].
  intros key [<- | [<- | [<- | []]]]; discriminate.
Defined.

Lemma unknown_attribute_is_rejected :
  exists missing,
    In missing ["qty"; "colour"]
    /\ (exists t,
          Database_GetTable items_database "items" = Some t
          /\ Table_GetColumn t missing = None)
    /\ Execute items_catalog create_idx_unknown_attribute
       = Returned false (IndexAttributeDoesNotExist missing "items")
                  items_catalog.
Proof.
  destruct (Database_GetTable items_database "items") as [t|] eqn:Et;
    [| discriminate].
  destruct (proj2 (@create_index_rejects_unknown_names headers
                     items_catalog items_database
                     create_idx_unknown_attribute "idx_items" "items"
                     eq_refl eq_refl eq_refl eq_refl)
                  t ["qty"; "colour"] "colour" Et eq_refl
                  (or_intror (or_introl eq_refl)))
    as (missing & Hin & Hnone & E).
  - vm_compute in Et. injection Et as <-. reflexivity.
  - exists missing. split; [exact Hin |]. split; [| exact E].
    exists t. split; [reflexivity | exact Hnone].
Defined.

Lemma idx_items_keeps_key_order :
  exists target attrs t db' t' i,
    CreateStatement.table_name create_idx_items = Some target
    /\ CreateStatement.index_attrs create_idx_items = Some attrs
    /\ Database_GetTable items_database target = Some t
    /\ Catalog_GetDatabase
         (catalog_of (Execute items_catalog create_idx_items))
         DEFAULT_DB_NAME = Some db'
    /\ Database_GetTable db' target = Some t'
    /\ Table_GetIndex t' "idx_items" = Some i
    /\ index_name i = "idx_items"
    /\ index_unique i = CreateStatement.unique create_idx_items
    /\ index_columns i = map (Table_GetColumn t) attrs
    /\ index_columns i = map (Table_GetColumn t') attrs.
Proof.
  apply (@created_index_keeps_key_order headers
           items_catalog items_database create_idx_items "idx_items"
           (CreatedIndex "idx_items")
           (catalog_of (Execute items_catalog create_idx_items)));
    reflexivity.
Defined.

Lemma idx_items_is_appended :
  exists target t db' t' i,
    CreateStatement.table_name create_idx_items = Some target
    /\ Database_GetTable items_database target = Some t
    /\ Catalog_GetDatabase
         (catalog_of (Execute items_catalog create_idx_items))
         DEFAULT_DB_NAME = Some db'
    /\ Database_GetTable db' target = Some t'
    /\ database_name db' = database_name items_database
    /\ map table_name (database_tables db')
       = map table_name (database_tables items_database)
    /\ table_name t' = table_name t
    /\ table_columns t' = table_columns t
    /\ table_constraints t' = table_constraints t
    /\ table_physical t' = table_physical t
    /\ table_indexes t' = table_indexes t ++ [i]
    /\ (forall other u,
          other <> target ->
          Database_GetTable items_database other = Some u ->
          Database_GetTable db' other = Some u).
Proof.
  apply (@created_index_is_appended headers
           items_catalog items_database create_idx_items "idx_items"
           (CreatedIndex "idx_items")
           (catalog_of (Execute items_catalog create_idx_items)));
    reflexivity.
Defined.

Lemma second_idx_items_is_rejected :
  Execute (catalog_of (Execute items_catalog create_idx_items))
          create_idx_items
  = Returned false (CouldNotCreateIndex "idx_items")
             (catalog_of (Execute items_catalog create_idx_items)).
Proof.
  apply (@second_create_index_is_rejected headers
           items_catalog create_idx_items "idx_items"
           (CreatedIndex "idx_items")
           (catalog_of (Execute items_catalog create_idx_items)));
    reflexivity.
Defined.

Lemma names_stay_unique_after_create_lines :
  catalog_names_unique orders_catalog
  /\ catalog_names_unique (catalog_of (Execute orders_catalog create_lines)).
Proof.
  assert (Hc : catalog_names_unique orders_catalog).
  { unfold catalog_names_unique, database_names_unique, table_names_unique.
    simpl.
    repeat first [ split | constructor ]; simpl; intuition discriminate. }
  split; [exact Hc |].
  apply (@returning_call_keeps_names_unique headers
           orders_catalog create_lines true (CreatedTable "lines")
           (catalog_of (Execute orders_catalog create_lines)) Hc).
  reflexivity.
Defined.

Lemma lines_is_created :
  exists c',
    Execute orders_catalog create_lines
    = Returned true (CreatedTable "lines") c'.
Proof.
  apply (proj2 (@create_table_succeeds_exactly_when headers
                  orders_catalog orders_database create_lines "lines"
                  lines_columns eq_refl eq_refl eq_refl eq_refl eq_refl)).
  split; [eexists; reflexivity |]. repeat split; reflexivity.
Defined.

Lemma unnamed_column_aborts :
  Execute empty_catalog create_unnamed = AssertionFailed.
Proof.
  apply (proj2 (@unnamed_column_fails_the_assertion headers
                  empty_catalog (mkDatabase "default" []) create_unnamed
                  "unnamed"
                  [normal "a" INT 0;
                   ColumnDefinition.mk None INT 0 false false None None None;
                   normal "b" INT 0]
                  eq_refl eq_refl eq_refl eq_refl)).
  exists [normal "a" INT 0],
    (ColumnDefinition.mk None INT 0 false false None None None),
    [normal "b" INT 0], ["a"].
  repeat split; reflexivity.
Defined.

Lemma physical_tables_stay_after_create_lines :
  catalog_tables_physical orders_catalog
  /\ catalog_tables_physical
       (catalog_of (Execute orders_catalog create_lines)).
Proof.
  assert (Hc : catalog_tables_physical orders_catalog).
  { repeat constructor; discriminate. }
  split; [exact Hc |].
  apply (@returning_call_keeps_physical_tables headers
           orders_catalog create_lines true (CreatedTable "lines")
           (catalog_of (Execute orders_catalog create_lines)) Hc).
  reflexivity.
Defined.

Lemma create_idx_items_returns :
  exists status log c',
    Execute items_catalog create_idx_items = Returned status log c'.
Proof.
  apply (@create_index_returns headers
           items_catalog items_database create_idx_items "idx_items"
           "items");
    try reflexivity.
  repeat constructor; discriminate.
Defined.

(** CREATE DATABASE default, on a catalog that holds no database. *)
Lemma create_default_needs_the_default_database :
  Execute (mkCatalog []) create_default = AssertionFailed.
Proof.
  apply (proj2 (@other_statements_assert_database_and_name headers
                  (mkCatalog []) create_default
                  ltac:(discriminate))).
  left. reflexivity.
Defined.

End MoreScenarios.
